(** * Apex rank watch: a shallow embedding of [src/index.ts]

    The plugin keeps a registry [groupSubscriptions] of tracked players per
    chat group, polls an external statistics service with retries, compares
    the fetched score with the stored one and notifies the group on a change.

    Conventions of the embedding.
    - A JavaScript string is a [string] (a sequence of bytes, the UTF-8
      encoding of the source literal).  [toLowerCase] maps the ASCII letters
      and [trim] removes the ASCII white space; characters outside ASCII are
      left as they are.
    - A JavaScript number holding a score, a threshold, a delay or a
      timestamp is a [Z].
    - A plain object used as a dictionary is an insertion-ordered association
      list ([JsObject.t]); property reads go through the prototype chain.
    - Effects (network requests, timer delays, file writes, group messages,
      logger calls) are recorded as events of a trace, in program order.
    - A command handler and a pass of the timer callback run as a whole:
      what could be interleaved at their suspension points is not
      modelled.  The outcomes of the requests and the readings of the clock
      are parameters of a run. *)

From Stdlib Require Import ZArith List String Ascii Bool Lia Permutation.
From ExtLib Require Import Structures.Monad Structures.MonadState.
From ExtLib Require Import Data.Monads.StateMonad.
Import ListNotations.
Import MonadNotation.
Local Open Scope monad_scope.
Local Open Scope string_scope.
Local Open Scope list_scope.
Local Open Scope Z_scope.

(* ------------------------------------------------------------------ *)
(** ** JavaScript strings *)

Module JsString.

Definition isUpper (c : ascii) : bool :=
  let n := nat_of_ascii c in (65 <=? n)%nat && (n <=? 90)%nat.

Definition lowerChar (c : ascii) : ascii :=
  if isUpper c then ascii_of_nat (nat_of_ascii c + 32) else c.

(** [s.toLowerCase()] *)
Fixpoint toLowerCase (s : string) : string :=
  match s with
  | EmptyString => EmptyString
  | String c r => String (lowerChar c) (toLowerCase r)
  end.

(** White space removed by [trim]: TAB, LF, VT, FF, CR and SP. *)
Definition isWhite (c : ascii) : bool :=
  let n := nat_of_ascii c in
  ((9 <=? n)%nat && (n <=? 13)%nat) || (n =? 32)%nat.

Fixpoint trimStart (s : string) : string :=
  match s with
  | EmptyString => EmptyString
  | String c r => if isWhite c then trimStart r else s
  end.

Fixpoint trimEnd (s : string) : string :=
  match s with
  | EmptyString => EmptyString
  | String c r =>
      match trimEnd r with
      | EmptyString => if isWhite c then EmptyString else String c EmptyString
      | r' => String c r'
      end
  end.

(** [s.trim()] *)
Definition trim (s : string) : string := trimEnd (trimStart s).

(** [s.split(sep)] for a one-character separator; the empty string
    splits into one empty piece. *)
Fixpoint split (sep : ascii) (s : string) : list string :=
  match s with
  | EmptyString => [EmptyString]
  | String c r =>
      if Ascii.eqb c sep then EmptyString :: split sep r
      else match split sep r with
           | h :: t => String c h :: t
           | [] => [String c EmptyString]
           end
  end.

(** [text.includes(pattern)] on strings *)
Fixpoint includes (text pattern : string) : bool :=
  String.prefix pattern text ||
  match text with
  | EmptyString => false
  | String _ r => includes r pattern
  end.

(** [array.includes(x)] on an array of strings *)
Definition arrayIncludes (a : list string) (x : string) : bool :=
  existsb (String.eqb x) a.

(** Truthiness of a string value. *)
Definition truthy (s : string) : bool := negb (String.eqb s EmptyString).

(** [a || b] on strings *)
Definition orElse (a b : string) : string := if truthy a then a else b.

End JsString.

(* ------------------------------------------------------------------ *)
(** ** Regular expressions

    The fragment of the JavaScript regular expressions the source uses:
    a sequence of atoms, without flags.  [$] is the end-of-input assertion,
    [\d+] is greedy with backtracking.  A match records the text each atom
    consumed, so that a capture group is the concatenation of the texts of
    its atoms. *)

Module Regex.

Inductive atom : Type :=
| AEnd                (* $ *)
| ADigits             (* \d+ *)
| AChar (c : ascii).  (* a literal character *)

Definition isDigit (c : ascii) : bool :=
  let n := nat_of_ascii c in (48 <=? n)%nat && (n <=? 57)%nat.

(** [\d+] followed by the continuation [k]: the longest run first. *)
Fixpoint matchDigits {A} (s acc : string) (k : string -> string -> option A)
  : option A :=
  match s with
  | EmptyString => None
  | String c r =>
      if isDigit c then
        let acc' := (acc ++ String c EmptyString)%string in
        match matchDigits r acc' k with
        | Some x => Some x
        | None => k acc' r
        end
      else None
  end.

(** Match the atoms at the start of [s]; the texts consumed, per atom. *)
Fixpoint matchHere (atoms : list atom) (s : string) : option (list string) :=
  match atoms with
  | [] => Some []
  | AEnd :: rest =>
      match s with
      | EmptyString => option_map (cons EmptyString) (matchHere rest s)
      | String _ _ => None
      end
  | AChar c :: rest =>
      match s with
      | EmptyString => None
      | String c' r =>
          if Ascii.eqb c c'
          then option_map (cons (String c EmptyString)) (matchHere rest r)
          else None
      end
  | ADigits :: rest =>
      matchDigits s EmptyString
        (fun consumed r => option_map (cons consumed) (matchHere rest r))
  end.

(** The leftmost match: the text before it and the texts consumed. *)
Fixpoint search (atoms : list atom) (s : string)
  : option (string * list string) :=
  match matchHere atoms s with
  | Some parts => Some (EmptyString, parts)
  | None =>
      match s with
      | EmptyString => None
      | String c r =>
          match search atoms r with
          | Some (before, parts) => Some (String c before, parts)
          | None => None
          end
      end
  end.

Definition concatAll (parts : list string) : string :=
  fold_right String.append EmptyString parts.

(** The atoms [from .. from+len-1] of a match: a capture group. *)
Definition group (from len : nat) (parts : list string) : string :=
  concatAll (firstn len (skipn from parts)).

(** [s.replace(re, '')] for a match starting after [before]. *)
Definition removeMatch (s before : string) (parts : list string) : string :=
  let skip := (String.length before + String.length (concatAll parts))%nat in
  (before ++ String.substring skip (String.length s - skip) s)%string.

End Regex.

(* ------------------------------------------------------------------ *)
(** ** Translation tables *)

(** [nameMap] *)
Definition nameMap : list (string * string) :=
  [ ("Unranked", "菜鸟"); ("Bronze", "青铜"); ("Silver", "白银");
    ("Gold", "黄金"); ("Platinum", "白金"); ("Diamond", "钻石");
    ("Master", "大师"); ("Apex Predator", "Apex 猎杀者");
    ("offline", "离线"); ("online", "在线");
    ("inLobby", "在大厅"); ("in Lobby", "在大厅"); ("In lobby", "在大厅");
    ("inMatch", "比赛中"); ("in Match", "比赛中"); ("In match", "比赛中");
    ("Offline", "离线"); ("Online", "在线");
    ("true", "是"); ("false", "否");
    ("Bloodhound", "寻血猎犬"); ("Gibraltar", "直布罗陀");
    ("Lifeline", "命脉"); ("Pathfinder", "探路者"); ("Wraith", "恶灵");
    ("Bangalore", "班加罗尔"); ("Caustic", "侵蚀"); ("Mirage", "幻象");
    ("Octane", "动力小子"); ("Wattson", "沃特森"); ("Crypto", "密客");
    ("Revenant", "亡灵"); ("Loba", "罗芭"); ("Rampart", "兰伯特");
    ("Horizon", "地平线"); ("Fuse", "暴雷"); ("Valkyrie", "瓦尔基里");
    ("Seer", "希尔"); ("Ash", "艾许"); ("Mad Maggie", "疯玛吉");
    ("Newcastle", "纽卡斯尔"); ("Vantage", "万蒂奇");
    ("Catalyst", "卡特莉丝"); ("Ballistic", "弹道"); ("Conduit", "导管");
    ("Alter", "变幻"); ("Sparrow", "琉雀") ].

(** [legendRankMap] *)
Definition legendRankMap : list (string * string) :=
  [ ("罗芭", "S"); ("地平线", "S"); ("动力小子", "S");
    ("瓦尔基里", "A"); ("命脉", "A"); ("恶灵", "A"); ("探路者", "A");
    ("艾许", "B"); ("希尔", "B"); ("密客", "B"); ("沃特森", "B");
    ("寻血猎犬", "B");
    ("班加罗尔", "C"); ("纽卡斯尔", "C"); ("暴雷", "C"); ("直布罗陀", "C");
    ("弹道", "D"); ("侵蚀", "D"); ("亡灵", "D"); ("疯玛吉", "D");
    ("幻象", "D"); ("兰伯特", "D"); ("导管", "D"); ("卡特莉丝", "D");
    ("万蒂奇", "D"); ("变幻", "C"); ("琉雀", "B") ].

Fixpoint tableLookup (k : string) (t : list (string * string)) : option string :=
  match t with
  | [] => None
  | (k', v) :: r => if String.eqb k k' then Some v else tableLookup k r
  end.

(** [translate]: [nameMap[name] || name].  Every value of the table is a
    non-empty string; the vocabulary sent by the service is taken not to
    name a member of [Object.prototype]. *)
Definition translate (name : string) : string :=
  match tableLookup name nameMap with
  | Some v => JsString.orElse v name
  | None => name
  end.

(** [containsPattern] *)
Definition containsPattern (text pattern : string) : bool :=
  JsString.includes (JsString.toLowerCase text) (JsString.toLowerCase pattern).

(** [getLegendRank]: [legendRankMap[legendName] || '未知'], for a legend
    name that is not a member of [Object.prototype]. *)
Definition getLegendRank (legendName : string) : string :=
  match tableLookup legendName legendRankMap with
  | Some v => JsString.orElse v "未知"
  | None => "未知"
  end.

(** [isBlacklisted] *)
Definition isBlacklisted (playerName blacklist : string) : bool :=
  if negb (JsString.truthy blacklist)
     || String.eqb (JsString.trim blacklist) EmptyString
  then false
  else
    let blacklistArray :=
      map JsString.trim (JsString.split "," (JsString.toLowerCase blacklist)) in
    JsString.arrayIncludes blacklistArray (JsString.toLowerCase playerName).

(* ------------------------------------------------------------------ *)
(** ** The statistics service *)

(** The error object of a rejected request: [error.code],
    [error.response.status] (when a response came) and [error.message]. *)
Record ApiError : Type := mkApiError {
  code : option string;
  responseStatus : option Z;
  message : string
}.

(** [data.global.rank] *)
Record RankData : Type := mkRankData {
  rd_rankScore : option Z;
  rd_rankName : option string;
  rd_rankDiv : option Z;
  rd_ALStopPercentGlobal : option string
}.

(** [data.global] *)
Record GlobalData : Type := mkGlobalData {
  gd_name : option string;
  gd_uid : option string;
  gd_platform : option string;
  gd_level : option Z;
  gd_toNextLevelPercent : option Z;
  gd_rank : option RankData
}.

(** [data.realtime] *)
Record RealtimeData : Type := mkRealtimeData {
  rt_isOnline : option Z;
  rt_selectedLegend : option string;
  rt_currentStateAsText : option string;
  rt_currentState : option string
}.

(** [response.data], an object whose fields have the types of the
    interface of the service; every level may be absent. *)
Record ApiData : Type := mkApiData {
  global : option GlobalData;
  realtime : option RealtimeData
}.

(** What one [axiosInstance.get] does: resolve with data or reject. *)
Inductive Outcome : Type :=
| Resolved (data : ApiData)
| Rejected (error : ApiError).

(** Effects of the fetch routine. *)
Inductive NetEvent : Type :=
| NetDelay (ms : Z)            (* setTimeout(resolve, ms) *)
| NetGet (player : string).    (* axiosInstance.get(url, { params }) *)

Definition codeIs (e : ApiError) (c : string) : bool :=
  match code e with
  | Some c' => String.eqb c' c
  | None => false
  end.

(** [isRetriableError] *)
Definition isRetriableError (e : ApiError) : bool :=
  codeIs e "ECONNRESET" || codeIs e "ETIMEDOUT" || codeIs e "ECONNABORTED" ||
  match responseStatus e with
  | Some status => (500 <=? status) || (status =? 429)
  | None => false
  end.

(** What [apiRequestWithRetry] ends in: the data, or a thrown value
    ([None] is [undefined], the initial [lastError]). *)
Inductive RetryResult : Type :=
| Returned (data : ApiData)
| Thrown (error : option ApiError).

(** The loop [for (attempt = 0; attempt <= maxRetries; attempt++)] from
    [attempt] on; [remaining] counts the iterations the loop condition
    still allows, and [net k] is what request number [k] does. *)
Fixpoint retryLoop (net : nat -> Outcome) (player : string) (maxRetries : Z)
    (remaining attempt : nat) (lastError : option ApiError)
  : list NetEvent * RetryResult :=
  match remaining with
  | O => ([], Thrown lastError)
  | S remaining' =>
      let delay :=
        if 0 <? Z.of_nat attempt
        then [NetDelay (2 ^ Z.of_nat attempt * 1000)] else [] in
      match net attempt with
      | Resolved data => (delay ++ [NetGet player], Returned data)
      | Rejected error =>
          if isRetriableError error && (Z.of_nat attempt <? maxRetries)
          then
            let '(events, result) :=
              retryLoop net player maxRetries remaining' (S attempt) (Some error) in
            (delay ++ NetGet player :: events, result)
          else (delay ++ [NetGet player], Thrown (Some error))
      end
  end.

(** [apiRequestWithRetry] *)
Definition apiRequestWithRetry (net : nat -> Outcome) (player : string)
    (maxRetries : Z) : list NetEvent * RetryResult :=
  retryLoop net player maxRetries (Z.to_nat (maxRetries + 1)) 0%nat None.

(** The value [getPlayerStats] resolves with. *)
Record PlayerStats : Type := mkPlayerStats {
  ps_name : option string;
  ps_uid : option string;
  ps_platform : option string;
  ps_level : option Z;
  ps_toNextLevelPercent : option Z;
  ps_rankScore : Z;
  ps_rankName : string;
  ps_rankDiv : Z;
  ps_globalRankPercent : string;
  ps_isOnline : string;
  ps_selectedLegend : string;
  ps_legendRank : string;
  ps_currentState : string;
  ps_isInLobbyOrMatch : bool
}.

Definition emptyRank : RankData := mkRankData None None None None.
Definition emptyGlobal : GlobalData := mkGlobalData None None None None None None.
Definition emptyRealtime : RealtimeData := mkRealtimeData None None None None.

(** [x || d] for an optional string and for an optional number *)
Definition strOr (x : option string) (d : string) : string :=
  match x with
  | Some s => JsString.orElse s d
  | None => d
  end.

Definition numOr (x : option Z) (d : Z) : Z :=
  match x with
  | Some n => if n =? 0 then d else n
  | None => d
  end.

(** [matchTimeRegex], the literal [/$(\d+:\d+)$$/]: end of input, the
    group (atoms 1 to 3), end of input, end of input. *)
Definition matchTimeRegex : list Regex.atom :=
  [Regex.AEnd; Regex.ADigits; Regex.AChar ":"; Regex.ADigits;
   Regex.AEnd; Regex.AEnd].

(** The state text and its time annotation, as the source separates them:
    [(currentState, timeInfo)]. *)
Definition splitTimeInfo (currentState : string) : string * string :=
  match Regex.search matchTimeRegex currentState with
  | Some (before, parts) =>
      (JsString.trim (Regex.removeMatch currentState before parts),
       (" (" ++ Regex.group 1 3 parts ++ ")")%string)
  | None => (currentState, EmptyString)
  end.

(** The body of [getPlayerStats] after the request has resolved. *)
Definition normalize (data : ApiData) : PlayerStats :=
  let globalData := match global data with Some g => g | None => emptyGlobal end in
  let realtimeData :=
    match realtime data with Some r => r | None => emptyRealtime end in
  let rankData := match gd_rank globalData with Some r => r | None => emptyRank end in
  let isOnlineStatus :=
    match rt_isOnline realtimeData with
    | Some 1 => "在线"
    | _ => "离线"
    end in
  let globalRankPercent := strOr (rd_ALStopPercentGlobal rankData) "未知" in
  let selectedLegend := translate (strOr (rt_selectedLegend realtimeData) EmptyString) in
  let legendRank := getLegendRank selectedLegend in
  let currentState0 :=
    strOr (rt_currentStateAsText realtimeData)
          (strOr (rt_currentState realtimeData) "offline") in
  let '(currentState, timeInfo) := splitTimeInfo currentState0 in
  let translatedState :=
    if JsString.truthy timeInfo
    then (translate currentState ++ timeInfo)%string
    else translate currentState in
  {| ps_name := gd_name globalData;
     ps_uid := gd_uid globalData;
     ps_platform := gd_platform globalData;
     ps_level := gd_level globalData;
     ps_toNextLevelPercent := gd_toNextLevelPercent globalData;
     ps_rankScore := numOr (rd_rankScore rankData) 0;
     ps_rankName := translate (strOr (rd_rankName rankData) "Unranked");
     ps_rankDiv := numOr (rd_rankDiv rankData) 0;
     ps_globalRankPercent := globalRankPercent;
     ps_isOnline := isOnlineStatus;
     ps_selectedLegend := selectedLegend;
     ps_legendRank := legendRank;
     ps_currentState := translatedState;
     ps_isInLobbyOrMatch :=
       containsPattern currentState "lobby" || containsPattern currentState "match" |}.

(** The message of the error [getPlayerStats] throws for every failure. *)
Definition fetchFailedMessage : string :=
  "获取玩家数据失败，请检查网络连接或API密钥".

(** [getPlayerStats]: the request with retries, then the normalisation;
    whatever the request throws is replaced by one error. *)
Definition getPlayerStats (maxRetries : Z) (net : nat -> Outcome)
    (playerName : string) : list NetEvent * (PlayerStats + string) :=
  match apiRequestWithRetry net playerName maxRetries with
  | (events, Returned data) => (events, inl (normalize data))
  | (events, Thrown _) => (events, inr fetchFailedMessage)
  end.

(* ------------------------------------------------------------------ *)
(** ** Plain objects used as dictionaries *)

Module JsObject.

(** The property names of [Object.prototype]; each holds a function or
    an object, so a read that reaches one of them is truthy. *)
Definition prototypeKeys : list string :=
  [ "constructor"; "__defineGetter__"; "__defineSetter__"; "hasOwnProperty";
    "__lookupGetter__"; "__lookupSetter__"; "isPrototypeOf";
    "propertyIsEnumerable"; "toString"; "valueOf"; "__proto__";
    "toLocaleString" ].

Definition isPrototypeKey (k : string) : bool :=
  existsb (String.eqb k) prototypeKeys.

(** An array index: the canonical decimal form of an integer below
    [2^32 - 1]. *)
Fixpoint digitsValue (s : string) (acc : N) : option N :=
  match s with
  | EmptyString => Some acc
  | String c r =>
      if Regex.isDigit c
      then digitsValue r (acc * 10 + (N_of_ascii c - 48))%N
      else None
  end.

Definition arrayIndex (k : string) : option N :=
  match k with
  | EmptyString => None
  | String c r =>
      if Ascii.eqb c "0" && negb (String.eqb r EmptyString) then None
      else match digitsValue k 0%N with
           | Some n => if (n <? 2 ^ 32 - 1)%N then Some n else None
           | None => None
           end
  end.

Fixpoint insertIndex (x : N * string) (l : list (N * string))
  : list (N * string) :=
  match l with
  | [] => [x]
  | y :: r => if (fst x <=? fst y)%N then x :: l else y :: insertIndex x r
  end.

Definition sortIndices (l : list (N * string)) : list (N * string) :=
  fold_right insertIndex [] l.

Definition indexKeys (ks : list string) : list (N * string) :=
  flat_map (fun k => match arrayIndex k with
                     | Some n => [(n, k)]
                     | None => []
                     end) ks.

Definition nameKeys (ks : list string) : list string :=
  filter (fun k => match arrayIndex k with
                   | Some _ => false
                   | None => true
                   end) ks.

(** The order in which [for ... in], [Object.keys] and [Object.values]
    visit property names: array indices ascending, then the other names
    in the order of their creation. *)
Definition enumerate (ks : list string) : list string :=
  map snd (sortIndices (indexKeys ks)) ++ nameKeys ks.

Section Dictionary.
Context {V : Type}.

(** Own properties, in the order of their creation. *)
Definition t : Type := list (string * V).

Definition empty : t := [].

Fixpoint ownLookup (k : string) (o : t) : option V :=
  match o with
  | [] => None
  | (k', v) :: r => if String.eqb k k' then Some v else ownLookup k r
  end.

(** What a read [o[k]] yields. *)
Inductive property : Type :=
| Own (v : V)
| Inherited
| Undefined.

(** [o[k]] *)
Definition get (o : t) (k : string) : property :=
  match ownLookup k o with
  | Some v => Own v
  | None => if isPrototypeKey k then Inherited else Undefined
  end.

(** [o[k] = v], as the source uses it: on a name whose read was
    undefined, or on an own property. *)
Fixpoint set (o : t) (k : string) (v : V) : t :=
  match o with
  | [] => [(k, v)]
  | (k', v') :: r =>
      if String.eqb k k' then (k, v) :: r else (k', v') :: set r k v
  end.

(** [delete o[k]] *)
Definition delete (o : t) (k : string) : t :=
  filter (fun kv => negb (String.eqb k (fst kv))) o.

(** [Object.keys(o)] *)
Definition keys (o : t) : list string := enumerate (map fst o).

(** No two own properties share a name. *)
Definition wf (o : t) : Prop := NoDup (map fst o).

End Dictionary.

Arguments t : clear implicits.
Arguments property : clear implicits.

End JsObject.

(* ------------------------------------------------------------------ *)
(** ** The registry *)

(** [Config] *)
Record Config : Type := mkConfig {
  apiKey : string;
  checkInterval : Z;
  dataDir : string;
  maxRetries : Z;
  timeout : Z;
  maxScoreDropThreshold : Z;
  minValidScore : Z;
  blacklist : string
}.

(** [PlayerData] *)
Record PlayerData : Type := mkPlayerData {
  playerName : string;
  rankScore : Z;
  rankName : string;
  rankDiv : Z;
  lastChecked : Z;
  globalRankPercent : option string;
  selectedLegend : option string;
  legendRank : option string
}.

(** [GroupSubscription] *)
Record GroupSubscription : Type := mkGroupSubscription {
  groupId : string;
  players : JsObject.t PlayerData
}.

(** The object [group] after an update of [group.players]. *)
Definition withPlayers (group : GroupSubscription)
    (players' : JsObject.t PlayerData) : GroupSubscription :=
  mkGroupSubscription (groupId group) players'.

(** [groupSubscriptions] *)
Definition Registry : Type := JsObject.t GroupSubscription.

(** A line of a message; the rendering into text is not modelled. *)
Inductive Line : Type :=
| LineTitle (text : string)
| LineDate (now : Z)
| LinePlayer (name : option string)
| LineOldScore (score : Z)
| LineScore (score : Z)
| LineRank (rankName : string) (rankDiv : option Z)
| LineChange (rose : bool) (amount : Z)
| LineGlobalRank (percent : string)
| LineLevel (level : option Z)
| LineOnline (status : string)
| LineLegend (legend : string) (tier : option string)
| LineState (state : string).

Inductive Message : Type :=
| MsgWatching (playerName : string)
| MsgRankChange (lines : list Line).

Inductive LogEntry : Type :=
| LogBlockedQuery (playerName : string)
| LogBlockedWatch (playerName : string)
| LogSkipBlacklisted (playerName : string)
| LogInvalidScore (playerName : string) (newScore oldScore : Z)
| LogAbnormalDrop (playerName : string) (oldScore newScore : Z)
| LogCheckFailed (playerName : string)
| LogQueryFailed
| LogWatchFailed.

(** Effects of the command handlers and of the timer callback, in
    program order.  Of the logger calls, those made by the handlers and by
    the callback themselves at level [warn] and [error] are recorded; the
    logger calls inside [apiRequestWithRetry], [getPlayerStats] and
    [sendGroupMessage], and the calls at level [info], are not. *)
Inductive Event : Type :=
| EvNet (e : NetEvent)
| EvSave (registry : Registry)              (* saveGroupData() *)
| EvSend (groupId : string) (m : Message)   (* sendGroupMessage(groupId, m) *)
| EvWarn (entry : LogEntry)
| EvError (entry : LogEntry).

(** The mutable state of the plugin and the effects so far. *)
Record World : Type := mkWorld {
  subs : Registry;
  trace : list Event
}.

Definition M : Type -> Type := state World.

Definition emit (evs : list Event) : M unit :=
  w <- get ;; put (mkWorld (subs w) (trace w ++ evs)).

Definition setSubs (r : Registry) : M unit :=
  w <- get ;; put (mkWorld r (trace w)).

Definition getSubs : M Registry :=
  w <- get ;; ret (subs w).

(** [saveGroupData]: the whole registry is written. *)
Definition saveGroupData : M unit :=
  r <- getSubs ;; emit [EvSave r].

(** [await sendGroupMessage(groupId, message)]; the delivery through the
    bots is outside the model, and its result is not used by the callers
    modelled here. *)
Definition sendGroupMessage (groupId : string) (m : Message) : M unit :=
  emit [EvSend groupId m].

(** [await getPlayerStats(playerName)] *)
Definition awaitPlayerStats (config : Config) (net : nat -> Outcome)
    (playerName : string) : M (PlayerStats + string) :=
  let '(events, result) := getPlayerStats (maxRetries config) net playerName in
  emit (map EvNet events) ;; ret result.

Definition rankDisplay (rankName : string) (rankDiv : Z) : Line :=
  LineRank rankName (if rankDiv =? 0 then None else Some rankDiv).

Definition tierOf (legendRank : string) : option string :=
  if JsString.truthy legendRank && negb (String.eqb legendRank "未知")
  then Some legendRank else None.

Definition percentLine (percent : string) : list Line :=
  if JsString.truthy percent && negb (String.eqb percent "未知")
  then [LineGlobalRank percent] else [].

(** [formatPlayerRankText] *)
Definition formatPlayerRankText (now : Z) (playerData : PlayerStats) : list Line :=
  [ LineTitle "📊 Apex 段位信息"; LineDate now; LinePlayer (ps_name playerData);
    rankDisplay (ps_rankName playerData) (ps_rankDiv playerData);
    LineScore (ps_rankScore playerData) ]
  ++ percentLine (ps_globalRankPercent playerData)
  ++ [ LineLevel (ps_level playerData) ]
  ++ (if String.eqb (ps_isOnline playerData) "在线"
      then
        [ LineOnline (ps_isOnline playerData) ]
        ++ (if JsString.truthy (ps_selectedLegend playerData)
            then [ LineLegend (ps_selectedLegend playerData)
                              (tierOf (ps_legendRank playerData)) ]
            else [])
        ++ (if ps_isInLobbyOrMatch playerData
            then [ LineState (ps_currentState playerData) ]
            else [])
      else [ LineOnline (ps_isOnline playerData) ]).

(** [getRankDisplayText] *)
Definition getRankDisplayText (playerData : PlayerStats) : list Line :=
  [ rankDisplay (ps_rankName playerData) (ps_rankDiv playerData);
    LineScore (ps_rankScore playerData) ].

(** A command argument or a session field that passes the test [!x]. *)
Definition present (x : option string) : option string :=
  match x with
  | Some s => if JsString.truthy s then Some s else None
  | None => None
  end.

(* ------------------------------------------------------------------ *)
(** ** Command [apexrank] *)

Inductive QueryReply : Type :=
| QueryUsage
| QueryBlacklisted (playerName : string)
| QueryTooLow (playerName : string) (score minValid : Z)
| QueryRank (lines : list Line)
| QueryFailed (message : string).

Definition apexrank (config : Config) (net : nat -> Outcome) (now : Z)
    (playerArg : option string) : M QueryReply :=
  match present playerArg with
  | None => ret QueryUsage
  | Some playerName =>
      if isBlacklisted playerName (blacklist config) then
        emit [EvWarn (LogBlockedQuery playerName)] ;;
        ret (QueryBlacklisted playerName)
      else
        result <- awaitPlayerStats config net playerName ;;
        match result with
        | inl playerData =>
            if ps_rankScore playerData <? minValidScore config
            then ret (QueryTooLow playerName (ps_rankScore playerData)
                                  (minValidScore config))
            else ret (QueryRank (formatPlayerRankText now playerData))
        | inr message =>
            emit [EvError LogQueryFailed] ;; ret (QueryFailed message)
        end
  end.

(* ------------------------------------------------------------------ *)
(** ** Command [apexrankwatch] *)

(** What the [catch] of the handler receives. *)
Inductive Failure : Type :=
| FetchFailure (message : string)   (* thrown by getPlayerStats *)
| TypeFailure.                      (* a property read on undefined *)

Inductive WatchReply : Type :=
| WatchUsage
| WatchGroupOnly
| WatchBlacklisted (playerName : string)
| WatchTooLow (playerName : string) (score minValid : Z)
| WatchAlready (playerName : string)
| WatchAdded (playerName : string) (rank : list Line)
| WatchFailed (failure : Failure).

Definition newPlayerData (playerName : string) (playerData : PlayerStats)
    (now : Z) : PlayerData :=
  {| playerName := playerName;
     rankScore := ps_rankScore playerData;
     rankName := ps_rankName playerData;
     rankDiv := ps_rankDiv playerData;
     globalRankPercent := Some (ps_globalRankPercent playerData);
     selectedLegend := Some (ps_selectedLegend playerData);
     legendRank := Some (ps_legendRank playerData);
     lastChecked := now |}.

(** The handler from the duplicate test on; [group] is the object
    [groupSubscriptions[groupId]], an own property of the registry. *)
Definition watchInGroup (now : Z) (groupId playerName playerKey : string)
    (playerData : PlayerStats) (group : GroupSubscription) : M WatchReply :=
  match JsObject.get (players group) playerKey with
  | JsObject.Own _ | JsObject.Inherited => ret (WatchAlready playerName)
  | JsObject.Undefined =>
      let group' :=
        withPlayers group
          (JsObject.set (players group) playerKey
             (newPlayerData playerName playerData now)) in
      registry <- getSubs ;;
      setSubs (JsObject.set registry groupId group') ;;
      saveGroupData ;;
      sendGroupMessage groupId (MsgWatching playerName) ;;
      ret (WatchAdded playerName (getRankDisplayText playerData))
  end.

Definition apexrankwatch (config : Config) (net : nat -> Outcome) (now : Z)
    (guildId playerArg : option string) : M WatchReply :=
  match present playerArg with
  | None => ret WatchUsage
  | Some playerName =>
      match present guildId with
      | None => ret WatchGroupOnly
      | Some groupId =>
          if isBlacklisted playerName (blacklist config) then
            emit [EvWarn (LogBlockedWatch playerName)] ;;
            ret (WatchBlacklisted playerName)
          else
            let playerKey := JsString.toLowerCase playerName in
            result <- awaitPlayerStats config net playerName ;;
            match result with
            | inr message =>
                emit [EvError LogWatchFailed] ;;
                ret (WatchFailed (FetchFailure message))
            | inl playerData =>
                if ps_rankScore playerData <? minValidScore config
                then ret (WatchTooLow playerName (ps_rankScore playerData)
                                      (minValidScore config))
                else
                  registry <- getSubs ;;
                  match JsObject.get registry groupId with
                  | JsObject.Undefined =>
                      let group := mkGroupSubscription groupId JsObject.empty in
                      setSubs (JsObject.set registry groupId group) ;;
                      watchInGroup now groupId playerName playerKey playerData group
                  | JsObject.Own group =>
                      watchInGroup now groupId playerName playerKey playerData group
                  | JsObject.Inherited =>
                      (* the inherited member has no [players]:
                         reading [players[playerKey]] throws *)
                      emit [EvError LogWatchFailed] ;;
                      ret (WatchFailed TypeFailure)
                  end
            end
      end
  end.

(* ------------------------------------------------------------------ *)
(** ** Command [apexrankremove] *)

Inductive RemoveReply : Type :=
| RemoveUsage
| RemoveGroupOnly
| RemoveNotTracked (playerName : string)
| Removed (playerName : string).

Definition apexrankremove (guildId playerArg : option string) : M RemoveReply :=
  match present playerArg with
  | None => ret RemoveUsage
  | Some playerName =>
      match present guildId with
      | None => ret RemoveGroupOnly
      | Some groupId =>
          let playerKey := JsString.toLowerCase playerName in
          registry <- getSubs ;;
          match JsObject.get registry groupId with
          | JsObject.Undefined | JsObject.Inherited =>
              ret (RemoveNotTracked playerName)
          | JsObject.Own group =>
              match JsObject.get (players group) playerKey with
              | JsObject.Undefined => ret (RemoveNotTracked playerName)
              | JsObject.Own _ | JsObject.Inherited =>
                  let players' := JsObject.delete (players group) playerKey in
                  let group' := withPlayers group players' in
                  setSubs (JsObject.set registry groupId group') ;;
                  registry' <- getSubs ;;
                  (if (List.length (JsObject.keys players') =? 0)%nat
                   then setSubs (JsObject.delete registry' groupId)
                   else ret tt) ;;
                  saveGroupData ;;
                  ret (Removed playerName)
              end
          end
      end
  end.

(* ------------------------------------------------------------------ *)
(** ** The timer callback: one pass over the registry *)

(** [isValidScore] *)
Definition isValidScore (config : Config) (newRankScore : Z) : bool :=
  minValidScore config <=? newRankScore.

(** [isDroppingTooMuch] *)
Definition isDroppingTooMuch (config : Config) (oldRankScore newRankScore : Z)
  : bool :=
  let diff := newRankScore - oldRankScore in
  (diff <? 0) && (maxScoreDropThreshold config <? Z.abs diff).

(** The branch of the [if ... else if ... else if] chain that runs. *)
Inductive Verdict : Type :=
| Changed
| Invalid
| AnomalousDrop
| Unchanged.

Definition verdict (config : Config) (oldRankScore newRankScore : Z) : Verdict :=
  if isValidScore config newRankScore
     && negb (isDroppingTooMuch config oldRankScore newRankScore)
     && negb (newRankScore =? oldRankScore)
  then Changed
  else if negb (isValidScore config newRankScore) then Invalid
  else if isDroppingTooMuch config oldRankScore newRankScore then AnomalousDrop
  else Unchanged.

(** The assignments to the fields of [player]. *)
Definition updatedPlayer (player : PlayerData) (playerData : PlayerStats)
    (now : Z) : PlayerData :=
  {| playerName := playerName player;
     rankScore := ps_rankScore playerData;
     rankName := ps_rankName playerData;
     rankDiv := ps_rankDiv playerData;
     globalRankPercent := Some (ps_globalRankPercent playerData);
     selectedLegend := Some (ps_selectedLegend playerData);
     legendRank := Some (ps_legendRank playerData);
     lastChecked := now |}.

(** The text of the notification, built from the updated [player]. *)
Definition rankChangeMessage (now : Z) (player : PlayerData)
    (oldRankScore newRankScore : Z) (playerData : PlayerStats) : Message :=
  let diff := newRankScore - oldRankScore in
  let online := String.eqb (ps_isOnline playerData) "在线" in
  MsgRankChange
    ([ LineTitle "📈 Apex 排位分数变化"; LineDate now;
       LinePlayer (Some (playerName player));
       LineOldScore oldRankScore; LineScore newRankScore;
       rankDisplay (rankName player) (rankDiv player);
       if 0 <? diff then LineChange true diff
       else LineChange false (Z.abs diff) ]
     ++ percentLine (ps_globalRankPercent playerData)
     ++ (if online && JsString.truthy (ps_selectedLegend playerData)
         then [ LineLegend (ps_selectedLegend playerData)
                           (tierOf (ps_legendRank playerData)) ]
         else [])
     ++ (if online && JsString.truthy (ps_currentState playerData)
         then [ LineState (ps_currentState playerData) ]
         else [])).

(** The object [player] is shared with the registry: writing its fields
    changes the entry [groupSubscriptions[groupId].players[playerKey]]. *)
Definition storePlayer (groupId playerKey : string) (player : PlayerData)
  : M unit :=
  registry <- getSubs ;;
  match JsObject.ownLookup groupId registry with
  | Some group =>
      setSubs (JsObject.set registry groupId
                 (withPlayers group
                    (JsObject.set (players group) playerKey player)))
  | None => ret tt
  end.

(** The body of the [try] once the statistics have arrived. *)
Definition applyStats (config : Config) (now : Z) (groupId playerKey : string)
    (player : PlayerData) (playerData : PlayerStats) : M unit :=
  let newRankScore := ps_rankScore playerData in
  let oldRankScore := rankScore player in
  match verdict config oldRankScore newRankScore with
  | Changed =>
      let player' := updatedPlayer player playerData now in
      storePlayer groupId playerKey player' ;;
      sendGroupMessage groupId
        (rankChangeMessage now player' oldRankScore newRankScore playerData) ;;
      saveGroupData
  | Invalid =>
      emit [EvWarn (LogInvalidScore (playerName player) newRankScore oldRankScore)]
  | AnomalousDrop =>
      emit [EvWarn (LogAbnormalDrop (playerName player) oldRankScore newRankScore)]
  | Unchanged => ret tt
  end.

(** What the world does during one pass: the outcome of request number
    [k] made for the player [playerKey] of the group [groupId], and the
    time at which that player is handled. *)
Record Env : Type := mkEnv {
  requests : string -> string -> nat -> Outcome;
  clock : string -> string -> Z
}.

(** One iteration of the inner loop. *)
Definition checkPlayer (config : Config) (env : Env)
    (groupId playerKey : string) : M unit :=
  registry <- getSubs ;;
  match JsObject.ownLookup groupId registry with
  | None => ret tt
  | Some group =>
      match JsObject.ownLookup playerKey (players group) with
      | None => ret tt
      | Some player =>
          if isBlacklisted (playerName player) (blacklist config) then
            emit [EvWarn (LogSkipBlacklisted (playerName player))]
          else
            result <- awaitPlayerStats config (requests env groupId playerKey)
                        (playerName player) ;;
            match result with
            | inl playerData =>
                applyStats config (clock env groupId playerKey)
                           groupId playerKey player playerData
            | inr _ => emit [EvError (LogCheckFailed (playerName player))]
            end
      end
  end.

Fixpoint forEach {A : Type} (l : list A) (body : A -> M unit) : M unit :=
  match l with
  | [] => ret tt
  | x :: rest => body x ;; forEach rest body
  end.

(** One iteration of the outer loop. *)
Definition checkGroup (config : Config) (env : Env) (groupId : string) : M unit :=
  registry <- getSubs ;;
  match JsObject.ownLookup groupId registry with
  | None => ret tt
  | Some group =>
      forEach (JsObject.keys (players group)) (checkPlayer config env groupId)
  end.

(** The callback of [ctx.setInterval]. *)
Definition checkRankChanges (config : Config) (env : Env) : M unit :=
  registry <- getSubs ;;
  forEach (JsObject.keys registry) (checkGroup config env).

(** Running a handler from a registry, with an empty trace. *)
Definition run {A : Type} (c : M A) (registry : Registry) : A * World :=
  runState c (mkWorld registry []).

(* ------------------------------------------------------------------ *)
(** ** Command [apexranklist] *)

(** [Object.values(o)]: the values of the own properties, in the order
    of enumeration. *)
Definition objectValues {V : Type} (o : JsObject.t V) : list V :=
  flat_map (fun k => match JsObject.ownLookup k o with
                     | Some v => [v]
                     | None => []
                     end)
           (JsObject.keys o).

(** A truthy optional string. *)
Definition truthyOpt (x : option string) : option string :=
  match x with
  | Some s => if JsString.truthy s then Some s else None
  | None => None
  end.

(** A truthy optional string other than ['未知']. *)
Definition knownOpt (x : option string) : option string :=
  match truthyOpt x with
  | Some s => if String.eqb s "未知" then None else Some s
  | None => None
  end.

(** The lines of one player of the list, after the number and the
    name. *)
Definition listEntry (player : PlayerData) : list Line :=
  [ LinePlayer (Some (playerName player));
    rankDisplay (rankName player) (rankDiv player);
    LineScore (rankScore player) ]
  ++ (match knownOpt (globalRankPercent player) with
      | Some percent => [LineGlobalRank percent]
      | None => []
      end)
  ++ (match truthyOpt (selectedLegend player) with
      | Some legend => [LineLegend legend (knownOpt (legendRank player))]
      | None => []
      end).

(** [forEach((player, index) => ...)]: each player with the number
    [index + 1] it is listed under. *)
Fixpoint listEntries (index : nat) (values : list PlayerData)
  : list (Z * list Line) :=
  match values with
  | [] => []
  | player :: rest =>
      (Z.of_nat index + 1, listEntry player) :: listEntries (S index) rest
  end.

Inductive ListReply : Type :=
| ListGroupOnly
| ListNothing
| ListPlayers (entries : list (Z * list Line)) (total : nat)
    (checkInterval maxScoreDropThreshold minValidScore : Z).

Definition apexranklist (config : Config) (guildId : option string)
  : M ListReply :=
  match present guildId with
  | None => ret ListGroupOnly
  | Some groupId =>
      registry <- getSubs ;;
      match JsObject.get registry groupId with
      | JsObject.Undefined | JsObject.Inherited => ret ListNothing
      | JsObject.Own group =>
          if (List.length (JsObject.keys (players group)) =? 0)%nat
          then ret ListNothing
          else
            ret (ListPlayers
                   (listEntries 0 (objectValues (players group)))
                   (List.length (JsObject.keys (players group)))
                   (checkInterval config) (maxScoreDropThreshold config)
                   (minValidScore config))
      end
  end.

(* ------------------------------------------------------------------ *)
(** ** Sending a message through the bots *)

Module Notifier.

(** A bot of [ctx.bots]: its platform, its identity, what
    [bot.sendMessage(groupId, message)] does (whether it resolves) and,
    when [bot.internal.sendGroupMsg] is a function, what it does. *)
Record Bot : Type := mkBot {
  platform : string;
  selfId : string;
  sendMessage : string -> string -> bool;
  internalSendGroupMsg : option (string -> string -> bool)
}.

Inductive Method : Type :=
| Primary      (* bot.sendMessage *)
| Fallback.    (* bot.internal.sendGroupMsg *)

(** A call of a method of a bot. *)
Inductive Call : Type :=
| CallBot (selfId : string) (method : Method) (groupId message : string).

(** The loop [for (const bot of bots)]. *)
Fixpoint sendLoop (bots : list Bot) (groupId message : string)
  : list Call * bool :=
  match bots with
  | [] => ([], false)
  | bot :: rest =>
      let primary := CallBot (selfId bot) Primary groupId message in
      if sendMessage bot groupId message then ([primary], true)
      else
        match internalSendGroupMsg bot with
        | Some send =>
            let fallback := CallBot (selfId bot) Fallback groupId message in
            if send groupId message then ([primary; fallback], true)
            else
              let '(calls, ok) := sendLoop rest groupId message in
              (primary :: fallback :: calls, ok)
        | None =>
            let '(calls, ok) := sendLoop rest groupId message in
            (primary :: calls, ok)
        end
  end.

(** [ctx.bots.filter(bot => bot.platform === 'onebot')] *)
Definition oneBots (bots : list Bot) : list Bot :=
  filter (fun bot => String.eqb (platform bot) "onebot") bots.

(** [sendGroupMessage], with the bots of the context. *)
Definition sendGroupMessage (ctxBots : list Bot) (groupId message : string)
  : list Call * bool :=
  let bots := oneBots ctxBots in
  if (List.length bots =? 0)%nat then ([], false)
  else sendLoop bots groupId message.

Inductive TestReply : Type :=
| TestSent          (* running, test message sent to the group *)
| TestNotSent       (* running, but the message could not be sent *)
| TestRunning.      (* running; not in a group *)

(** The text of the test message. *)
Definition testMessage : string := "✅ Apex Legends 排名监控测试消息".

(** Command [apextest] *)
Definition apextest (ctxBots : list Bot) (guildId : option string)
  : list Call * TestReply :=
  match present guildId with
  | Some groupId =>
      let '(calls, success) := sendGroupMessage ctxBots groupId testMessage in
      (calls, if success then TestSent else TestNotSent)
  | None => ([], TestRunning)
  end.

End Notifier.

(* ------------------------------------------------------------------ *)
(** ** Definitions used by the statements

    What the theorems below observe of a run (traces, stored snapshots,
    lines of a message), the invariants of the registry, the registries
    the plugin can reach, and some concrete data on which the statements
    are tried. *)

(** The trace of the fetch routine when request number [k] is the last
    one: the first request, then a delay of [2^j] seconds before request
    number [j], for [j] from 1 to [k]. *)
Definition schedule (player : string) (k : nat) : list NetEvent :=
  NetGet player ::
  flat_map (fun j => [NetDelay (2 ^ Z.of_nat j * 1000); NetGet player]) (seq 1 k).

(** The delays of a trace, in milliseconds. *)
Definition delaysOf (events : list NetEvent) : list Z :=
  flat_map (fun e => match e with NetDelay ms => [ms] | NetGet _ => [] end) events.

(** Request number [j] fails with an error the routine retries. *)
Definition transientAt (net : nat -> Outcome) (j : nat) : Prop :=
  exists e, net j = Rejected e /\ isRetriableError e = true.

(** The expression the comments of the source describe: a parenthesised
    [digits:digits] at the end of the text.  It is not used by the code. *)
Definition parenthesisedTimeRegex : list Regex.atom :=
  [Regex.AChar "("; Regex.ADigits; Regex.AChar ":"; Regex.ADigits;
   Regex.AChar ")"; Regex.AEnd].

(** The default values of the configuration schema. *)
Definition defaultConfig : Config :=
  mkConfig "key" 2 "./data/apexrankwatch" 3 10000 2000 1 EmptyString.

(** A response of the service: a Gold 2 player with the given score,
    activity text and online flag, playing Wraith. *)
Definition statsData (score : Z) (state : string) (online : Z) : ApiData :=
  mkApiData
    (Some (mkGlobalData (Some "n") None None (Some 10) None
             (Some (mkRankData (Some score) (Some "Gold") (Some 2) None))))
    (Some (mkRealtimeData (Some online) (Some "Wraith") (Some state) None)).

(** Every request has the same outcome. *)
Definition always (o : Outcome) : nat -> Outcome := fun _ => o.

(** A request that times out, and one answered with status 404. *)
Definition timedOut : Outcome :=
  Rejected (mkApiError (Some "ETIMEDOUT") None "timeout of 10000ms exceeded").

Definition notFound : Outcome :=
  Rejected (mkApiError None (Some 404) "Request failed with status code 404").

(** Three timeouts, then a response. *)
Definition threeTimeouts (data : ApiData) : nat -> Outcome :=
  fun k => if (k <? 3)%nat then timedOut else Resolved data.

(** The text the service sent for the activity state. *)
Definition rawState (data : ApiData) : string :=
  let realtimeData :=
    match realtime data with Some r => r | None => emptyRealtime end in
  strOr (rt_currentStateAsText realtimeData)
        (strOr (rt_currentState realtimeData) "offline").

(** The classifier in the words of the specification: [Invalid] when the
    new score is below the minimum, [AnomalousDrop] when the score fell by
    more than the threshold, [Unchanged] when it is the old score,
    [Changed] otherwise. *)
Definition classify_spec (oldScore newScore minValid maxDrop : Z) : Verdict :=
  if newScore <? minValid then Invalid
  else if (newScore <? oldScore) && (maxDrop <? oldScore - newScore)
       then AnomalousDrop
  else if newScore =? oldScore then Unchanged
  else Changed.

(** The stored snapshot of a player of a group. *)
Definition playerAt (groupId playerKey : string) (r : Registry)
  : option PlayerData :=
  match JsObject.ownLookup groupId r with
  | Some group => JsObject.ownLookup playerKey (players group)
  | None => None
  end.

(** The kinds of events. *)
Definition isSend (e : Event) : bool :=
  match e with EvSend _ _ => true | _ => false end.

Definition isSave (e : Event) : bool :=
  match e with EvSave _ => true | _ => false end.

Definition isNet (e : Event) : bool :=
  match e with EvNet _ => true | _ => false end.

(** A registry with one group and one tracked player. *)
Definition samplePlayer : PlayerData :=
  mkPlayerData "MoeNeri" 10000 "钻石" 4 0 (Some "未知") (Some "恶灵") (Some "A").

Definition sampleRegistry : Registry :=
  [("123", mkGroupSubscription "123" [("moeneri", samplePlayer)])].

(** An event satisfying [p] comes before an event satisfying [q]. *)
Fixpoint precedesb (p q : Event -> bool) (events : list Event) : bool :=
  match events with
  | [] => false
  | e :: rest => (p e && existsb q rest) || precedesb p q rest
  end.

(** The events of one step of the pass for the sample player, whose
    score went from 10000 to 8500. *)
Definition sampleStepTrace : list Event :=
  trace (snd (run (applyStats defaultConfig 50 "123" "moeneri" samplePlayer
                     (normalize (statsData 8500 "In lobby" 1)))
                  sampleRegistry)).

(** The lines of a message. *)
Definition linesOf (m : Message) : list Line :=
  match m with
  | MsgRankChange lines => lines
  | MsgWatching _ => []
  end.

(** The message has a line for the activity state. *)
Definition hasStateLine (m : Message) : bool :=
  existsb (fun l => match l with LineState _ => true | _ => false end)
          (linesOf m).

(** A player who is online and neither in the lobby nor in a match. *)
Definition idleOnline : PlayerStats := normalize (statsData 8500 "Online" 1).

(** The names of a registry: each group with the keys of its players, in
    the order of creation. *)
Definition shape (r : Registry) : list (string * list string) :=
  map (fun entry => (fst entry, map fst (players (snd entry)))) r.

(** No two groups share an identity and, in a group, no two players
    share a key. *)
Definition wfRegistry (r : Registry) : Prop :=
  NoDup (map fst (shape r)) /\ Forall (fun entry => NoDup (snd entry)) (shape r).

(** The request for the player fails: [getPlayerStats] throws. *)
Definition fetchFails (config : Config) (env : Env) (groupId playerKey : string)
    (player : PlayerData) : Prop :=
  snd (getPlayerStats (maxRetries config) (requests env groupId playerKey)
         (playerName player)) = inr fetchFailedMessage.

(** The snapshot one iteration leaves for a player: a function of the
    player's own snapshot and of what the world does for this player. *)
Definition checked (config : Config) (env : Env) (groupId playerKey : string)
    (player : PlayerData) : PlayerData :=
  if isBlacklisted (playerName player) (blacklist config) then player
  else
    match snd (getPlayerStats (maxRetries config)
                 (requests env groupId playerKey) (playerName player)) with
    | inl playerData =>
        match verdict config (rankScore player) (ps_rankScore playerData) with
        | Changed =>
            updatedPlayer player playerData (clock env groupId playerKey)
        | _ => player
        end
    | inr _ => player
    end.

(** The player a message is about. *)
Definition about (m : Message) (name : string) : Prop :=
  match m with
  | MsgWatching n => n = name
  | MsgRankChange lines => In (LinePlayer (Some name)) lines
  end.

(** An event that does not concern a blacklisted player: no request for
    such a name and no message about it. *)
Definition clean (config : Config) (e : Event) : Prop :=
  match e with
  | EvNet (NetGet name) => isBlacklisted name (blacklist config) = false
  | EvSend _ m =>
      forall name, about m name -> isBlacklisted name (blacklist config) = false
  | _ => True
  end.

(** What one iteration of the inner loop does to a world. *)
Definition stepFacts (config : Config) (env : Env) (g k : string)
    (w w' : World) : Prop :=
  (forall g' k', (g', k') <> (g, k) ->
                 playerAt g' k' (subs w') = playerAt g' k' (subs w))
  /\ playerAt g k (subs w')
     = option_map (checked config env g k) (playerAt g k (subs w))
  /\ shape (subs w') = shape (subs w)
  /\ exists events,
       trace w' = trace w ++ events
       /\ Forall (clean config) events
       /\ (forall p,
              playerAt g k (subs w) = Some p ->
              isBlacklisted (playerName p) (blacklist config) = false ->
              fetchFails config env g k p ->
              In (EvError (LogCheckFailed (playerName p))) events).

(** The world a computation leaves. *)
Definition exec {A : Type} (c : M A) (w : World) : World := snd (runState c w).

(** What a part of the pass that visits the players [visited] does. *)
Definition loopFacts (config : Config) (env : Env)
    (visited : string -> string -> Prop) (w w' : World) : Prop :=
  (forall g k, ~ visited g k ->
               playerAt g k (subs w') = playerAt g k (subs w))
  /\ (forall g k, visited g k ->
        playerAt g k (subs w')
        = option_map (checked config env g k) (playerAt g k (subs w)))
  /\ shape (subs w') = shape (subs w)
  /\ exists events,
       trace w' = trace w ++ events
       /\ Forall (clean config) events
       /\ (forall g k p,
              visited g k ->
              playerAt g k (subs w) = Some p ->
              isBlacklisted (playerName p) (blacklist config) = false ->
              fetchFails config env g k p ->
              In (EvError (LogCheckFailed (playerName p))) events).

(** A registry with two groups and three tracked players. *)
Definition otherPlayer : PlayerData :=
  mkPlayerData "Zed" 6000 "黄金" 2 0 (Some "未知") (Some "恶灵") (Some "A").

Definition twoGroups : Registry :=
  [ ("123", mkGroupSubscription "123"
              [("moeneri", samplePlayer); ("zed", otherPlayer)]);
    ("99", mkGroupSubscription "99" [("zed", otherPlayer)]) ].

(** The request for [moeneri] is answered with status 404; the other
    players are reported with 5500 points. *)
Definition oneFailure : Env :=
  mkEnv (fun _ k => if String.eqb k "moeneri" then always notFound
                    else always (Resolved (statsData 5500 "In lobby" 1)))
        (fun _ _ => 100).

(** Well-formedness of a concrete registry. *)
Ltac solve_wfRegistry :=
  split; simpl;
  repeat (constructor; simpl; try (intuition discriminate)).

(** The configuration with two names on the blacklist. *)
Definition blacklistConfig : Config :=
  mkConfig "key" 2 "./data/apexrankwatch" 3 10000 2000 1 " alice , MoeNeri ".

(** No group of the registry has an empty [players]. *)
Definition noEmptyGroup (r : Registry) : Prop :=
  forall g group, JsObject.ownLookup g r = Some group -> players group <> [].

(** The registry after the player [playerKey] of [group] is deleted. *)
Definition afterRemoval (registry : Registry) (groupId : string)
    (group : GroupSubscription) (playerKey : string) : Registry :=
  let players' := JsObject.delete (players group) playerKey in
  let registry' := JsObject.set registry groupId (withPlayers group players') in
  if (List.length (JsObject.keys players') =? 0)%nat
  then JsObject.delete registry' groupId
  else registry'.

(** The registry after [groupSubscriptions[groupId].players[playerKey]]
    is assigned, the group being created first when it is missing. *)
Definition afterWatch (registry : Registry) (groupId playerKey : string)
    (player : PlayerData) : Registry :=
  match JsObject.ownLookup groupId registry with
  | Some group =>
      JsObject.set registry groupId
        (withPlayers group (JsObject.set (players group) playerKey player))
  | None =>
      let group := mkGroupSubscription groupId JsObject.empty in
      JsObject.set (JsObject.set registry groupId group) groupId
        (withPlayers group (JsObject.set (players group) playerKey player))
  end.

(** The registry after the handler has created the group and has then
    found the player key to be taken. *)
Definition afterEmptyGroup (registry : Registry) (groupId : string) : Registry :=
  JsObject.set registry groupId (mkGroupSubscription groupId JsObject.empty).

(** The entries of a group of the registry that carry the key. *)
Definition entriesOf (groupId playerKey : string) (r : Registry)
  : list (string * PlayerData) :=
  match JsObject.ownLookup groupId r with
  | Some group =>
      filter (fun entry => String.eqb playerKey (fst entry)) (players group)
  | None => []
  end.

(** One operation on the registry: a watch command, a remove command or
    a pass of the timer callback, with any arguments and any behaviour of
    the service. *)
Inductive Step (config : Config) : Registry -> Registry -> Prop :=
| StepWatch (net : nat -> Outcome) (now : Z) (guildId playerArg : option string)
    (r : Registry) :
    Step config r
      (subs (snd (run (apexrankwatch config net now guildId playerArg) r)))
| StepRemove (guildId playerArg : option string) (r : Registry) :
    Step config r (subs (snd (run (apexrankremove guildId playerArg) r)))
| StepCheck (env : Env) (r : Registry) :
    Step config r (subs (snd (run (checkRankChanges config env) r))).

(** The registries reached from the empty one. *)
Inductive Reachable (config : Config) : Registry -> Prop :=
| ReachEmpty : Reachable config []
| ReachStep (r r' : Registry) :
    Reachable config r -> Step config r r' -> Reachable config r'.

(** Every stored score is at least zero. *)
Definition scoresNonNegative (r : Registry) : Prop :=
  forall g k p, playerAt g k r = Some p -> 0 <= rankScore p.

(** A configuration with a negative minimum valid score. *)
Definition negativeMinimum : Config :=
  mkConfig "key" 2 "./data/apexrankwatch" 3 10000 2000 (-10) EmptyString.

(** The registry after one watch command in the empty registry. *)
Definition afterOneWatch : Registry :=
  subs (snd (run (apexrankwatch defaultConfig
                    (always (Resolved (statsData 5000 "In lobby" 1)))
                    50 (Some "123") (Some "moeneri")) [])).

(** The requests of a trace. *)
Definition isGet (e : NetEvent) : bool :=
  match e with NetGet _ => true | NetDelay _ => false end.

(** What the routine ends in when request number [k] is the last one. *)
Definition decidedBy (net : nat -> Outcome) (k : nat) : RetryResult :=
  match net k with
  | Resolved data => Returned data
  | Rejected e => Thrown (Some e)
  end.

(** Whether request number [j] fails with an error the routine retries. *)
Definition transientb (net : nat -> Outcome) (j : nat) : bool :=
  match net j with
  | Rejected e => isRetriableError e
  | Resolved _ => false
  end.

(** The sum of the delays of a trace, in milliseconds. *)
Definition totalDelay (events : list NetEvent) : Z :=
  fold_right Z.add 0 (delaysOf events).

(** The score the service sent, [data.global.rank.rankScore], when every
    level is there. *)
Definition sentScore (data : ApiData) : option Z :=
  match global data with
  | Some globalData =>
      match gd_rank globalData with
      | Some rankData => rd_rankScore rankData
      | None => None
      end
  | None => None
  end.

(** A response from which every field is missing. *)
Definition emptyData : ApiData := mkApiData None None.

(** The character occurs in the string. *)
Fixpoint hasChar (c : ascii) (s : string) : bool :=
  match s with
  | EmptyString => false
  | String c' r => Ascii.eqb c c' || hasChar c r
  end.

(** The string starts, or ends, with a white space character. *)
Definition startsWhite (s : string) : bool :=
  match s with
  | EmptyString => false
  | String c _ => JsString.isWhite c
  end.

Fixpoint endsWhite (s : string) : bool :=
  match s with
  | EmptyString => false
  | String c EmptyString => JsString.isWhite c
  | String _ r => endsWhite r
  end.

(** The kinds of lines. *)
Definition isStateLine (l : Line) : bool :=
  match l with LineState _ => true | _ => false end.

Definition isLegendLine (l : Line) : bool :=
  match l with LineLegend _ _ => true | _ => false end.

(** The player names of the entries of a list. *)
Definition entryNames (entries : list (Z * list Line)) : list string :=
  flat_map (fun entry => match snd entry with
                         | LinePlayer (Some n) :: _ => [n]
                         | _ => []
                         end) entries.

(** The player names an answer of the list command shows. *)
Definition listedNames (reply : ListReply) : list string :=
  match reply with
  | ListPlayers entries _ _ _ _ => entryNames entries
  | _ => []
  end.

(** Every send of the trace is followed at once by a save, and there is
    no other save. *)
Fixpoint pairedb (events : list Event) : bool :=
  match events with
  | [] => true
  | EvSend _ _ :: rest =>
      match rest with
      | EvSave _ :: rest' => pairedb rest'
      | _ => false
      end
  | EvSave _ :: _ => false
  | _ :: rest => pairedb rest
  end.

(** Every player is stored under the lower-cased form of its name, and
    the name is not empty. *)
Definition storedUnderLowercasedName (r : Registry) : Prop :=
  forall g k p,
    playerAt g k r = Some p ->
    k = JsString.toLowerCase (playerName p)
    /\ JsString.truthy (playerName p) = true.

(** The bot is of the OneBot platform. *)
Definition isOneBot (bot : Notifier.Bot) : bool :=
  String.eqb (Notifier.platform bot) "onebot".

(** One of the two methods of the bot delivers the message. *)
Definition delivers (bot : Notifier.Bot) (groupId message : string) : bool :=
  Notifier.sendMessage bot groupId message
  || match Notifier.internalSendGroupMsg bot with
     | Some send => send groupId message
     | None => false
     end.

(** Two bots of which the first cannot deliver by either method. *)
Definition brokenBot : Notifier.Bot :=
  Notifier.mkBot "onebot" "1001" (fun _ _ => false) (Some (fun _ _ => false)).

Definition fallbackBot : Notifier.Bot :=
  Notifier.mkBot "onebot" "1002" (fun _ _ => false) (Some (fun _ _ => true)).

Definition discordBot : Notifier.Bot :=
  Notifier.mkBot "discord" "2001" (fun _ _ => true) None.

(* ------------------------------------------------------------------ *)
(** ** The fetch routine *)

Section Retry.

Variable net : nat -> Outcome.
Variable player : string.
Variable maxRetries : Z.

Let attemptDelay (attempt : nat) : list NetEvent :=
  if 0 <? Z.of_nat attempt
  then [NetDelay (2 ^ Z.of_nat attempt * 1000)] else [].

(** Requests [attempt .. attempt+d-1] fail and are retried: the loop
    goes on from request [attempt+d]. *)
Lemma retryLoop_skip (d : nat) :
  forall (remaining attempt : nat) (lastError : option ApiError),
    (forall j, (attempt <= j < attempt + d)%nat -> transientAt net j) ->
    (Z.of_nat (attempt + d) <= maxRetries) ->
    exists lastError',
      retryLoop net player maxRetries (d + remaining) attempt lastError =
      (let '(events, result) :=
         retryLoop net player maxRetries remaining (attempt + d) lastError' in
       (flat_map (fun j => attemptDelay j ++ [NetGet player]) (seq attempt d)
          ++ events, result)).
Proof.
  induction d as [|d IH]; intros remaining attempt lastError Htrans Hle.
  - exists lastError. rewrite Nat.add_0_r. simpl.
    destruct (retryLoop net player maxRetries remaining attempt lastError).
    reflexivity.
  - destruct (Htrans attempt ltac:(lia)) as [e [Hnet Hretry]].
    destruct (IH remaining (S attempt) (Some e)) as [last' Heq].
    + intros j Hj. apply Htrans. lia.
    + lia.
    + exists last'. simpl. rewrite Hnet, Hretry.
      replace (Z.of_nat attempt <? maxRetries) with true
        by (symmetry; apply Z.ltb_lt; lia).
      simpl. rewrite Heq.
      replace (S attempt + d)%nat with (attempt + S d)%nat by lia.
      destruct (retryLoop net player maxRetries remaining (attempt + S d) last')
        as [events result].
      fold (attemptDelay attempt).
      rewrite <- !app_assoc. reflexivity.
Qed.

Lemma schedule_unfold (k : nat) :
  flat_map (fun j => attemptDelay j ++ [NetGet player]) (seq 0 k)
    ++ attemptDelay k ++ [NetGet player]
  = schedule player k.
Proof.
  unfold schedule.
  assert (H : forall a n,
             (0 < a)%nat ->
             flat_map (fun j => attemptDelay j ++ [NetGet player]) (seq a n)
             = flat_map (fun j => [NetDelay (2 ^ Z.of_nat j * 1000);
                                   NetGet player]) (seq a n)).
  { intros a n; revert a; induction n as [|n IH]; intros a Ha; simpl.
    - reflexivity.
    - rewrite IH by lia. unfold attemptDelay.
      replace (0 <? Z.of_nat a) with true by (symmetry; apply Z.ltb_lt; lia).
      reflexivity. }
  destruct k as [|k].
  - reflexivity.
  - change (seq 0 (S k)) with (0%nat :: seq 1 k).
    cbn [flat_map]. rewrite H by lia.
    replace (seq 1 (S k)) with (seq 1 k ++ [S k]).
    2:{ rewrite (seq_S k 1). reflexivity. }
    rewrite flat_map_app. simpl. reflexivity.
Qed.

(** The run of the routine up to request [k], when the requests before
    it fail with retriable errors. *)
Lemma apiRequestWithRetry_prefix (k : nat) :
  (forall j, (j < k)%nat -> transientAt net j) ->
  Z.of_nat k <= maxRetries ->
  exists lastError remaining,
    apiRequestWithRetry net player maxRetries =
    (let '(events, result) :=
       retryLoop net player maxRetries (S remaining) k lastError in
     (flat_map (fun j => attemptDelay j ++ [NetGet player]) (seq 0 k)
        ++ events, result)).
Proof.
  intros Htrans Hle. unfold apiRequestWithRetry.
  set (n := Z.to_nat (maxRetries + 1)).
  assert (Hn : (n = k + S (n - S k))%nat) by lia.
  destruct (retryLoop_skip k (S (n - S k)) 0%nat None) as [last' Heq].
  - intros j Hj. apply Htrans. lia.
  - simpl. lia.
  - exists last', (n - S k)%nat. rewrite Hn at 1. exact Heq.
Qed.

End Retry.

(** C2. The fetch routine retries only after a retriable failure (a
    connection reset, timeout or abort, or a status that is at least 500
    or is 429), waits [2^j] seconds before request number [j], throws the
    last error once the retries are used up, and throws any other error at
    once, with no delay and no further request.  Here requests [0 .. k-1]
    fail with retriable errors and request [k] decides the run. *)
Theorem apiRequestWithRetry_policy
    (net : nat -> Outcome) (player : string) (maxRetries : Z) (k : nat) :
  (forall j, (j < k)%nat -> transientAt net j) ->
  Z.of_nat k <= maxRetries ->
  (forall data,
      net k = Resolved data ->
      apiRequestWithRetry net player maxRetries
      = (schedule player k, Returned data))
  /\ (forall e,
      net k = Rejected e -> isRetriableError e = false ->
      apiRequestWithRetry net player maxRetries
      = (schedule player k, Thrown (Some e)))
  /\ (forall e,
      net k = Rejected e -> Z.of_nat k = maxRetries ->
      apiRequestWithRetry net player maxRetries
      = (schedule player k, Thrown (Some e)))
  /\ delaysOf (schedule player k)
     = map (fun j => 2 ^ Z.of_nat j * 1000) (seq 1 k).
Proof.
  intros Htrans Hle.
  destruct (apiRequestWithRetry_prefix net player maxRetries k Htrans Hle)
    as [lastError [remaining Hrun]].
  repeat split.
  - intros data Hnet. rewrite Hrun. simpl. rewrite Hnet.
    rewrite <- schedule_unfold. reflexivity.
  - intros e Hnet Hfatal. rewrite Hrun. simpl. rewrite Hnet, Hfatal. simpl.
    rewrite <- schedule_unfold. reflexivity.
  - intros e Hnet Hlast. rewrite Hrun. simpl. rewrite Hnet.
    replace (Z.of_nat k <? maxRetries) with false
      by (symmetry; apply Z.ltb_ge; lia).
    rewrite andb_false_r.
    rewrite <- schedule_unfold. reflexivity.
  - unfold schedule, delaysOf. cbn [flat_map app].
    induction (seq 1 k) as [|j l IH]; simpl; [reflexivity|].
    f_equal. exact IH.
Qed.

(** Three timeouts, then a response: the default budget of three retries
    is enough, with delays of 2, 4 and 8 seconds. *)
Lemma apiRequestWithRetry_policy_witness :
  ((forall j, (j < 3)%nat ->
              transientAt (threeTimeouts (statsData 5000 "In lobby" 1)) j)
   /\ Z.of_nat 3 <= 3)
  /\ apiRequestWithRetry (threeTimeouts (statsData 5000 "In lobby" 1)) "moeneri" 3
     = ([ NetGet "moeneri"; NetDelay 2000; NetGet "moeneri"; NetDelay 4000;
          NetGet "moeneri"; NetDelay 8000; NetGet "moeneri" ],
        Returned (statsData 5000 "In lobby" 1)).
Proof.
  assert (Htrans : forall j, (j < 3)%nat ->
             transientAt (threeTimeouts (statsData 5000 "In lobby" 1)) j).
  { intros j Hj. unfold transientAt, threeTimeouts.
    destruct (Nat.ltb_spec j 3) as [_|Hge]; [|lia].
    eexists. split; reflexivity. }
  assert (Hle : Z.of_nat 3 <= 3) by (simpl; lia).
  split; [split; assumption|].
  exact (proj1 (apiRequestWithRetry_policy
                  (threeTimeouts (statsData 5000 "In lobby" 1)) "moeneri" 3 3
                  Htrans Hle)
               (statsData 5000 "In lobby" 1) eq_refl).
Defined.

(** A failure that is not retriable on the first request: one request,
    no delay. *)
Example fatal_failure_is_not_retried :
  apiRequestWithRetry (always notFound) "moeneri" 3
  = ([NetGet "moeneri"],
     Thrown (Some (mkApiError None (Some 404)
                     "Request failed with status code 404"))).
Proof. reflexivity. Qed.

(** With a negative [maxRetries] the loop body never runs and the
    routine throws [undefined]. *)
Example negative_budget_throws_undefined :
  apiRequestWithRetry (always timedOut) "moeneri" (-1) = ([], Thrown None).
Proof. reflexivity. Qed.

(* ------------------------------------------------------------------ *)
(** ** The time annotation of the activity state *)

(** The matcher finds the annotation with the expression of the
    comments. *)
Example parenthesised_time_is_found :
  Regex.search parenthesisedTimeRegex "In match (00:39)"
  = Some ("In match ", ["("; "00"; ":"; "39"; ")"; EmptyString]).
Proof. reflexivity. Qed.

(** [matchTimeRegex] asks for digits after the end of the input: it
    matches no text. *)
Lemma matchTimeRegex_never_matches (s : string) :
  Regex.search matchTimeRegex s = None.
Proof.
  induction s as [|c r IH].
  - reflexivity.
  - simpl. simpl in IH. rewrite IH. reflexivity.
Qed.

Lemma splitTimeInfo_id (s : string) : splitTimeInfo s = (s, EmptyString).
Proof. unfold splitTimeInfo. rewrite matchTimeRegex_never_matches. reflexivity. Qed.

(** The whole text, annotation included, is what is looked up. *)
Lemma currentState_is_whole_text (data : ApiData) :
  ps_currentState (normalize data) = translate (rawState data).
Proof.
  unfold normalize, rawState.
  rewrite splitTimeInfo_id. reflexivity.
Qed.

(** C4. For the state text [In match (00:39)] the annotation is not
    separated: the text is looked up whole, is not in the table and comes
    back untranslated, while the state without the annotation has a
    translation. *)
Theorem time_annotation_is_not_extracted :
  splitTimeInfo "In match (00:39)" = ("In match (00:39)", EmptyString)
  /\ ps_currentState (normalize (statsData 5000 "In match (00:39)" 1))
     = "In match (00:39)"
  /\ translate "In match" = "比赛中"
  /\ ps_currentState (normalize (statsData 5000 "In match (00:39)" 1))
     <> "比赛中 (00:39)".
Proof.
  repeat split; try reflexivity.
  intros H. vm_compute in H. discriminate H.
Qed.

(* ------------------------------------------------------------------ *)
(** ** Facts about dictionaries *)

Module JsObjectFacts.
Import JsObject.

Section Facts.
Context {V : Type}.
Implicit Types (o : t V) (k : string) (v : V).

Lemma ownLookup_set_same o k v : ownLookup k (set o k v) = Some v.
Proof.
  induction o as [|[k' v'] r IH]; simpl.
  - rewrite String.eqb_refl. reflexivity.
  - destruct (String.eqb_spec k k') as [->|Hne]; simpl.
    + rewrite String.eqb_refl. reflexivity.
    + destruct (String.eqb_spec k k'); [contradiction|exact IH].
Qed.

Lemma ownLookup_set_other o k k' v :
  k <> k' -> ownLookup k' (set o k v) = ownLookup k' o.
Proof.
  intros Hne. induction o as [|[k0 v0] r IH]; simpl.
  - destruct (String.eqb_spec k' k); [congruence|reflexivity].
  - destruct (String.eqb_spec k k0) as [->|Hk]; simpl.
    + destruct (String.eqb_spec k' k0); [congruence|reflexivity].
    + destruct (String.eqb_spec k' k0); [reflexivity|exact IH].
Qed.

Lemma ownLookup_delete_same o k : ownLookup k (delete o k) = None.
Proof.
  induction o as [|[k' v'] r IH]; simpl; [reflexivity|].
  destruct (String.eqb_spec k k') as [->|Hne]; simpl; [exact IH|].
  destruct (String.eqb_spec k k'); [contradiction|exact IH].
Qed.

Lemma ownLookup_delete_other o k k' :
  k <> k' -> ownLookup k' (delete o k) = ownLookup k' o.
Proof.
  intros Hne. induction o as [|[k0 v0] r IH]; simpl; [reflexivity|].
  destruct (String.eqb_spec k k0) as [->|Hk]; simpl.
  - destruct (String.eqb_spec k' k0); [congruence|exact IH].
  - destruct (String.eqb_spec k' k0); [reflexivity|exact IH].
Qed.

Lemma ownLookup_none_iff o k : ownLookup k o = None <-> ~ In k (map fst o).
Proof.
  induction o as [|[k' v'] r IH]; simpl.
  - tauto.
  - destruct (String.eqb_spec k k') as [->|Hne].
    + split; [discriminate|]. intros H. exfalso. apply H. now left.
    + rewrite IH. split.
      * intros H [Heq|Hin]; [congruence|contradiction].
      * intros H Hin. apply H. now right.
Qed.

Lemma ownLookup_some_in o k v : ownLookup k o = Some v -> In k (map fst o).
Proof.
  intros H. destruct (in_dec string_dec k (map fst o)) as [Hin|Hout]; [exact Hin|].
  apply ownLookup_none_iff in Hout. congruence.
Qed.

(** An assignment to an own property keeps the names and their order. *)
Lemma set_names_own o k v v0 :
  ownLookup k o = Some v0 -> map fst (set o k v) = map fst o.
Proof.
  induction o as [|[k' v'] r IH]; simpl; [discriminate|].
  destruct (String.eqb_spec k k') as [->|Hne]; simpl.
  - reflexivity.
  - intros H. rewrite (IH H). reflexivity.
Qed.

(** An assignment to a new name creates the property last. *)
Lemma set_names_new o k v :
  ownLookup k o = None -> map fst (set o k v) = map fst o ++ [k].
Proof.
  induction o as [|[k' v'] r IH]; simpl; [reflexivity|].
  destruct (String.eqb_spec k k') as [->|Hne]; simpl; [discriminate|].
  intros H. rewrite (IH H). reflexivity.
Qed.

Lemma wf_set o k v : wf o -> wf (set o k v).
Proof.
  unfold wf. intros Hwf.
  destruct (ownLookup k o) as [v0|] eqn:Hk.
  - rewrite (set_names_own o k v v0 Hk). exact Hwf.
  - rewrite (set_names_new o k v Hk).
    apply NoDup_app; [exact Hwf | repeat constructor; simpl; tauto |].
    intros x Hx [<-|[]]. apply ownLookup_none_iff in Hk. contradiction.
Qed.

Lemma delete_names o k :
  map fst (delete o k) = filter (fun k' => negb (String.eqb k k')) (map fst o).
Proof.
  induction o as [|[k' v'] r IH]; simpl; [reflexivity|].
  destruct (String.eqb k k'); simpl; rewrite IH; reflexivity.
Qed.

Lemma wf_delete o k : wf o -> wf (delete o k).
Proof.
  unfold wf. rewrite delete_names. apply NoDup_filter.
Qed.

End Facts.

(** *** The order of enumeration *)

Lemma insertIndex_perm x l : Permutation (insertIndex x l) (x :: l).
Proof.
  induction l as [|y r IH]; simpl; [reflexivity|].
  destruct (fst x <=? fst y)%N; [reflexivity|].
  rewrite IH. apply perm_swap.
Qed.

Lemma sortIndices_perm l : Permutation (sortIndices l) l.
Proof.
  induction l as [|x r IH]; simpl; [reflexivity|].
  rewrite insertIndex_perm. now constructor.
Qed.

Lemma enumerate_perm ks : Permutation (enumerate ks) ks.
Proof.
  unfold enumerate.
  rewrite (Permutation_map snd (sortIndices_perm (indexKeys ks))).
  induction ks as [|k r IH]; simpl; [reflexivity|].
  destruct (arrayIndex k); simpl.
  - now constructor.
  - rewrite <- Permutation_middle. now constructor.
Qed.

Section Keys.
Context {V : Type}.
Implicit Types (o : t V) (k : string).

Lemma keys_in o k : In k (keys o) <-> In k (map fst o).
Proof.
  unfold keys. split; apply Permutation_in;
    [|symmetry]; apply enumerate_perm.
Qed.

Lemma keys_nodup o : wf o -> NoDup (keys o).
Proof.
  unfold wf, keys. intros H.
  apply (Permutation_NoDup (l := map fst o)); [|exact H].
  symmetry. apply enumerate_perm.
Qed.

Lemma keys_length o : List.length (keys o) = List.length o.
Proof.
  unfold keys. rewrite (Permutation_length (enumerate_perm (map fst o))).
  apply length_map.
Qed.

Lemma keys_empty_iff o : (List.length (keys o) =? 0)%nat = true <-> o = [].
Proof.
  rewrite keys_length, Nat.eqb_eq. destruct o; simpl; split; congruence.
Qed.

End Keys.

End JsObjectFacts.

(** Integer-like names are enumerated first, in ascending order. *)
Example enumeration_order :
  JsObject.enumerate ["b"; "10"; "a"; "9"; "007"] = ["9"; "10"; "b"; "a"; "007"].
Proof. reflexivity. Qed.

(* ------------------------------------------------------------------ *)
(** ** The classification of a fetched score *)

Lemma verdict_classify (config : Config) (oldScore newScore : Z) :
  verdict config oldScore newScore
  = classify_spec oldScore newScore
      (minValidScore config) (maxScoreDropThreshold config).
Proof.
  unfold verdict, classify_spec, isValidScore, isDroppingTooMuch.
  destruct (Z.leb_spec (minValidScore config) newScore);
    destruct (Z.ltb_spec newScore (minValidScore config)); try lia;
    destruct (Z.ltb_spec (newScore - oldScore) 0);
    destruct (Z.ltb_spec newScore oldScore); try lia;
    destruct (Z.ltb_spec (maxScoreDropThreshold config)
                         (Z.abs (newScore - oldScore)));
    destruct (Z.ltb_spec (maxScoreDropThreshold config) (oldScore - newScore));
    try lia;
    destruct (Z.eqb_spec newScore oldScore); try lia; reflexivity.
Qed.

Lemma verdict_changed_inv (config : Config) (oldScore newScore : Z) :
  verdict config oldScore newScore = Changed ->
  minValidScore config <= newScore /\ newScore <> oldScore.
Proof.
  unfold verdict, isValidScore.
  destruct (Z.leb_spec (minValidScore config) newScore); simpl.
  - destruct (isDroppingTooMuch config oldScore newScore); simpl;
      [discriminate|].
    destruct (Z.eqb_spec newScore oldScore); simpl; [discriminate|].
    intros _. split; assumption.
  - discriminate.
Qed.

Lemma playerAt_store (r : Registry) (groupId playerKey : string)
    (group : GroupSubscription) (player : PlayerData) :
  playerAt groupId playerKey
    (JsObject.set r groupId
       (withPlayers group (JsObject.set (players group) playerKey player)))
  = Some player.
Proof.
  unfold playerAt. rewrite JsObjectFacts.ownLookup_set_same. simpl.
  apply JsObjectFacts.ownLookup_set_same.
Qed.

Lemma playerAt_store_other (r : Registry) (g k g' k' : string)
    (group : GroupSubscription) (player : PlayerData) :
  JsObject.ownLookup g r = Some group ->
  (g', k') <> (g, k) ->
  playerAt g' k'
    (JsObject.set r g (withPlayers group (JsObject.set (players group) k player)))
  = playerAt g' k' r.
Proof.
  intros Hg Hne. unfold playerAt.
  destruct (string_dec g g') as [<-|Hgg].
  - rewrite JsObjectFacts.ownLookup_set_same, Hg. simpl.
    apply JsObjectFacts.ownLookup_set_other. congruence.
  - rewrite JsObjectFacts.ownLookup_set_other by exact Hgg. reflexivity.
Qed.

(** C1. One step of the pass, for a tracked player and a fetched score:
    the branch taken is the class the specification gives, and the step
    changes the stored snapshot, sends a notification and writes the
    registry exactly when the class is [Changed]; in the other classes
    the snapshot stays as it was. *)
Theorem step_classifies_and_acts
    (config : Config) (now : Z) (groupId playerKey : string)
    (player : PlayerData) (playerData : PlayerStats) (w : World) :
  playerAt groupId playerKey (subs w) = Some player ->
  let oldScore := rankScore player in
  let newScore := ps_rankScore playerData in
  let class := verdict config oldScore newScore in
  let w' := snd (runState (applyStats config now groupId playerKey
                             player playerData) w) in
  class = classify_spec oldScore newScore
            (minValidScore config) (maxScoreDropThreshold config)
  /\ exists events,
       trace w' = trace w ++ events
       /\ (existsb isSend events = true <-> class = Changed)
       /\ (existsb isSave events = true <-> class = Changed)
       /\ (playerAt groupId playerKey (subs w') <> Some player
           <-> class = Changed)
       /\ (class = Changed ->
           playerAt groupId playerKey (subs w')
           = Some (updatedPlayer player playerData now))
       /\ (class <> Changed -> subs w' = subs w).
Proof.
  intros Hat oldScore newScore class w'.
  split; [apply verdict_classify|].
  unfold playerAt in Hat.
  destruct (JsObject.ownLookup groupId (subs w)) as [group|] eqn:Hg;
    [|discriminate].
  subst w'. unfold applyStats. fold oldScore newScore class.
  destruct class eqn:Hclass.
  - (* Changed *)
    destruct (verdict_changed_inv _ _ _ Hclass) as [_ Hne].
    eexists. unfold storePlayer. cbn. rewrite Hg. cbn.
    split; [rewrite <- app_assoc; reflexivity|].
    rewrite playerAt_store.
    repeat split; try reflexivity; try discriminate.
    + intros _ Heq. injection Heq as Heq.
      apply (f_equal rankScore) in Heq. simpl in Heq.
      apply Hne. exact Heq.
    + intros H. contradiction.
  - (* Invalid *)
    eexists. cbn. split; [reflexivity|].
    unfold playerAt. rewrite Hg.
    repeat split; try discriminate; try reflexivity; try tauto.
  - (* AnomalousDrop *)
    eexists. cbn. split; [reflexivity|].
    unfold playerAt. rewrite Hg.
    repeat split; try discriminate; try reflexivity; try tauto.
  - (* Unchanged *)
    exists []. cbn. split; [symmetry; apply app_nil_r|].
    unfold playerAt. rewrite Hg.
    repeat split; try discriminate; try reflexivity; try tauto.
Qed.

Lemma step_classifies_and_acts_witness :
  playerAt "123" "moeneri" sampleRegistry = Some samplePlayer
  /\ verdict defaultConfig 10000 8500 = classify_spec 10000 8500 1 2000.
Proof.
  split; [reflexivity|].
  exact (proj1 (step_classifies_and_acts defaultConfig 50 "123" "moeneri"
                  samplePlayer (normalize (statsData 8500 "In lobby" 1))
                  (mkWorld sampleRegistry []) eq_refl)).
Defined.

(** The step for the sample player, from 10000 to 8500 points: one
    message, reporting a fall of 1500, then one save. *)
Example sample_step_trace :
  map isSend sampleStepTrace = [true; false]
  /\ map isSave sampleStepTrace = [false; true]
  /\ (exists g lines,
         In (EvSend g (MsgRankChange lines)) sampleStepTrace
         /\ In (LineChange false 1500) lines).
Proof.
  split; [reflexivity|]. split; [reflexivity|].
  eexists. eexists. split; [left; reflexivity|].
  simpl. tauto.
Qed.

(** A fall of 3000 is above the default threshold of 2000, a fall of
    1500 is not, and a score below the minimum is invalid. *)
Example verdict_examples :
  verdict defaultConfig 10000 7000 = AnomalousDrop
  /\ verdict defaultConfig 10000 8500 = Changed
  /\ verdict defaultConfig 10000 0 = Invalid
  /\ verdict defaultConfig 10000 10000 = Unchanged.
Proof. repeat split. Qed.

(* ------------------------------------------------------------------ *)
(** ** The order of the effects of a change *)

(** C3, as stated, fails: on a change the registry is not written before
    the message is sent; the message is sent first. *)
Lemma save_does_not_precede_send :
  verdict defaultConfig (rankScore samplePlayer)
          (ps_rankScore (normalize (statsData 8500 "In lobby" 1))) = Changed
  /\ precedesb isSave isSend sampleStepTrace = false
  /\ precedesb isSend isSave sampleStepTrace = true.
Proof. repeat split. Qed.

(** C3, amended. On a change the snapshot is updated in memory first,
    then the notification is sent, then the registry is written: the
    step adds exactly a send and a save to the trace, in this order; the
    message is built from the updated snapshot and the registry written is
    the one holding it. *)
Theorem changed_step_order
    (config : Config) (now : Z) (groupId playerKey : string)
    (player : PlayerData) (playerData : PlayerStats) (w : World) :
  playerAt groupId playerKey (subs w) = Some player ->
  verdict config (rankScore player) (ps_rankScore playerData) = Changed ->
  let w' := snd (runState (applyStats config now groupId playerKey
                             player playerData) w) in
  let player' := updatedPlayer player playerData now in
  trace w' =
    trace w ++
    [ EvSend groupId
        (rankChangeMessage now player' (rankScore player)
           (ps_rankScore playerData) playerData);
      EvSave (subs w') ]
  /\ playerAt groupId playerKey (subs w') = Some player'.
Proof.
  intros Hat Hclass w' player'. subst w'.
  unfold playerAt in Hat.
  destruct (JsObject.ownLookup groupId (subs w)) as [group|] eqn:Hg;
    [|discriminate].
  unfold applyStats. rewrite Hclass.
  unfold storePlayer. cbn. rewrite Hg. cbn.
  split.
  - rewrite <- app_assoc. reflexivity.
  - apply playerAt_store.
Qed.

Lemma changed_step_order_witness :
  (playerAt "123" "moeneri" sampleRegistry = Some samplePlayer
   /\ verdict defaultConfig (rankScore samplePlayer)
        (ps_rankScore (normalize (statsData 8500 "In lobby" 1))) = Changed)
  /\ playerAt "123" "moeneri"
       (subs (snd (run (applyStats defaultConfig 50 "123" "moeneri" samplePlayer
                          (normalize (statsData 8500 "In lobby" 1)))
                       sampleRegistry)))
     = Some (updatedPlayer samplePlayer
               (normalize (statsData 8500 "In lobby" 1)) 50).
Proof.
  split; [split; reflexivity|].
  exact (proj2 (changed_step_order defaultConfig 50 "123" "moeneri"
                  samplePlayer (normalize (statsData 8500 "In lobby" 1))
                  (mkWorld sampleRegistry []) eq_refl eq_refl)).
Defined.

(* ------------------------------------------------------------------ *)
(** ** The activity line of the notification *)

(** C5, as stated, fails: for an online player whose activity is
    neither lobby nor match the notification still has the activity
    line. *)
Lemma state_line_for_idle_online_player :
  ps_isOnline idleOnline = "在线"
  /\ ps_isInLobbyOrMatch idleOnline = false
  /\ hasStateLine
       (rankChangeMessage 50
          (updatedPlayer samplePlayer idleOnline 50) 10000 8500 idleOnline)
     = true.
Proof. repeat split. Qed.

Lemma percentLine_no_state (percent : string) :
  existsb (fun l => match l with LineState _ => true | _ => false end)
          (percentLine percent) = false.
Proof. unfold percentLine. destruct (_ && _); reflexivity. Qed.

Lemma translate_truthy (name : string) :
  JsString.truthy name = true -> JsString.truthy (translate name) = true.
Proof.
  intros H. unfold translate.
  destruct (tableLookup name nameMap) as [v|]; [|exact H].
  unfold JsString.orElse. destruct (JsString.truthy v) eqn:Hv; assumption.
Qed.

Lemma strOr_truthy (x : option string) (d : string) :
  JsString.truthy d = true -> JsString.truthy (strOr x d) = true.
Proof.
  intros H. destruct x as [s|]; simpl; [|exact H].
  unfold JsString.orElse. destruct (JsString.truthy s) eqn:Hs; assumption.
Qed.

(** The activity state [getPlayerStats] reports is never empty. *)
Lemma currentState_truthy (data : ApiData) :
  JsString.truthy (ps_currentState (normalize data)) = true.
Proof.
  rewrite currentState_is_whole_text.
  apply translate_truthy. unfold rawState.
  apply strOr_truthy, strOr_truthy. reflexivity.
Qed.

(** C5, amended. The notification has the activity line exactly when the
    player is online and the reported activity state is not empty; whether
    the player is in the lobby or in a match is not looked at.  For the
    statistics [getPlayerStats] builds, the state is never empty, so the
    line is there exactly when the player is online. *)
Theorem state_line_iff_online
    (now : Z) (player : PlayerData) (oldScore newScore : Z) :
  (forall playerData : PlayerStats,
      hasStateLine (rankChangeMessage now player oldScore newScore playerData)
      = String.eqb (ps_isOnline playerData) "在线"
        && JsString.truthy (ps_currentState playerData))
  /\ (forall data : ApiData,
      hasStateLine
        (rankChangeMessage now player oldScore newScore (normalize data))
      = true
      <-> rt_isOnline (match realtime data with
                       | Some r => r
                       | None => emptyRealtime
                       end) = Some 1).
Proof.
  assert (Hgen : forall playerData : PlayerStats,
      hasStateLine (rankChangeMessage now player oldScore newScore playerData)
      = String.eqb (ps_isOnline playerData) "在线"
        && JsString.truthy (ps_currentState playerData)).
  { intros playerData. unfold hasStateLine, rankChangeMessage, linesOf.
    rewrite !existsb_app, percentLine_no_state.
    destruct (String.eqb (ps_isOnline playerData) "在线");
      destruct (JsString.truthy (ps_selectedLegend playerData));
      destruct (JsString.truthy (ps_currentState playerData));
      destruct (0 <? newScore - oldScore); reflexivity. }
  split; [exact Hgen|].
  intros data. rewrite Hgen, currentState_truthy, andb_true_r.
  unfold normalize. rewrite splitTimeInfo_id. cbn [ps_isOnline].
  destruct (rt_isOnline _) as [[|p|p]|]; try (split; discriminate).
  destruct p; split; intros H; try discriminate H; reflexivity.
Qed.

(* ------------------------------------------------------------------ *)
(** ** One pass, player by player *)

Lemma retryLoop_gets (net : nat -> Outcome) (player : string) (maxRetries : Z)
    (remaining : nat) :
  forall (attempt : nat) (lastError : option ApiError) (name : string),
    In (NetGet name)
       (fst (retryLoop net player maxRetries remaining attempt lastError)) ->
    name = player.
Proof.
  induction remaining as [|remaining IH]; intros attempt lastError name; simpl.
  - tauto.
  - assert (Hdelay : forall l,
               In (NetGet name)
                  ((if 0 <? Z.of_nat attempt
                    then [NetDelay (2 ^ Z.of_nat attempt * 1000)] else []) ++ l)
               -> In (NetGet name) l).
    { intros l H. apply in_app_or in H. destruct H as [H|H]; [|exact H].
      destruct (0 <? Z.of_nat attempt); simpl in H;
        [destruct H as [H|[]]; discriminate H | contradiction]. }
    destruct (net attempt) as [data|error].
    + simpl. intros H. apply Hdelay in H.
      destruct H as [H|[]]. congruence.
    + destruct (isRetriableError error && (Z.of_nat attempt <? maxRetries)).
      * destruct (retryLoop net player maxRetries remaining (S attempt)
                    (Some error)) as [events result] eqn:Hloop.
        simpl. intros H. apply Hdelay in H. destruct H as [H|H]; [congruence|].
        apply (IH (S attempt) (Some error)). rewrite Hloop. exact H.
      * simpl. intros H. apply Hdelay in H.
        destruct H as [H|[]]. congruence.
Qed.

Lemma getPlayerStats_gets (maxRetries : Z) (net : nat -> Outcome)
    (player name : string) :
  In (NetGet name) (fst (getPlayerStats maxRetries net player)) -> name = player.
Proof.
  unfold getPlayerStats, apiRequestWithRetry.
  destruct (retryLoop net player maxRetries (Z.to_nat (maxRetries + 1)) 0 None)
    as [events result] eqn:Hloop.
  intros H. apply (retryLoop_gets net player maxRetries
                     (Z.to_nat (maxRetries + 1)) 0%nat None).
  rewrite Hloop. destruct result; exact H.
Qed.

Lemma awaitPlayerStats_run (config : Config) (net : nat -> Outcome)
    (name : string) (w : World) :
  runState (awaitPlayerStats config net name) w
  = (snd (getPlayerStats (maxRetries config) net name),
     mkWorld (subs w)
       (trace w ++ map EvNet (fst (getPlayerStats (maxRetries config) net name)))).
Proof.
  unfold awaitPlayerStats.
  destruct (getPlayerStats (maxRetries config) net name) as [events result].
  reflexivity.
Qed.

Lemma fetch_events_clean (config : Config) (net : nat -> Outcome) (name : string) :
  isBlacklisted name (blacklist config) = false ->
  Forall (clean config)
    (map EvNet (fst (getPlayerStats (maxRetries config) net name))).
Proof.
  intros Hok. apply Forall_forall. intros e He.
  apply in_map_iff in He. destruct He as [ne [<- Hin]].
  destruct ne as [ms|n]; simpl; [exact I|].
  apply getPlayerStats_gets in Hin. subst n. exact Hok.
Qed.

Lemma rankChangeMessage_about (now : Z) (player : PlayerData)
    (oldScore newScore : Z) (playerData : PlayerStats) (name : string) :
  about (rankChangeMessage now player oldScore newScore playerData) name ->
  name = playerName player.
Proof.
  unfold about, rankChangeMessage, percentLine.
  intros H. repeat (apply in_app_or in H; destruct H as [H|H]).
  - simpl in H.
    destruct (0 <? newScore - oldScore);
      repeat (destruct H as [H|H]; try discriminate H; try congruence);
      contradiction.
  - destruct (_ && _); simpl in H; [destruct H as [H|[]]; discriminate H|tauto].
  - destruct (_ && _); simpl in H; [destruct H as [H|[]]; discriminate H|tauto].
  - destruct (_ && _); simpl in H; [destruct H as [H|[]]; discriminate H|tauto].
Qed.

Lemma shape_store (r : Registry) (g k : string) (group : GroupSubscription)
    (player player' : PlayerData) :
  JsObject.ownLookup g r = Some group ->
  JsObject.ownLookup k (players group) = Some player ->
  shape (JsObject.set r g
           (withPlayers group (JsObject.set (players group) k player')))
  = shape r.
Proof.
  intros Hg Hk. induction r as [|[g0 grp0] rest IH]; simpl in *; [discriminate|].
  destruct (String.eqb_spec g g0) as [->|Hne]; simpl.
  - injection Hg as ->.
    rewrite (JsObjectFacts.set_names_own _ _ _ _ Hk). reflexivity.
  - rewrite (IH Hg). reflexivity.
Qed.

#[local] Arguments awaitPlayerStats : simpl never.

Lemma bind_run {A B : Type} (c : M A) (f : A -> M B) (w : World) :
  runState (bind c f) w
  = runState (f (fst (runState c w))) (snd (runState c w)).
Proof. cbn. destruct (runState c w). reflexivity. Qed.

Lemma checkPlayer_facts (config : Config) (env : Env) (g k : string) (w : World) :
  stepFacts config env g k w (snd (runState (checkPlayer config env g k) w)).
Proof.
  unfold stepFacts, checkPlayer, checked, fetchFails, playerAt.
  cbn -[getPlayerStats].
  destruct (JsObject.ownLookup g (subs w)) as [group|] eqn:Hg.
  2:{ cbn. rewrite ?Hg. repeat split; try reflexivity.
      exists []. rewrite app_nil_r.
      repeat split; [constructor | discriminate]. }
  destruct (JsObject.ownLookup k (players group)) as [player|] eqn:Hk.
  2:{ cbn. rewrite ?Hg, ?Hk. repeat split; try reflexivity.
      exists []. rewrite app_nil_r.
      repeat split; [constructor | discriminate]. }
  cbn [option_map].
  destruct (isBlacklisted (playerName player) (blacklist config)) eqn:Hbl.
  { cbn -[getPlayerStats]. rewrite ?Hg, ?Hk. cbn -[getPlayerStats].
    rewrite ?Hbl. repeat split; try reflexivity.
    eexists. repeat split.
    - repeat constructor.
    - intros p [= <-] Hp. congruence. }
  cbn [runState]. rewrite awaitPlayerStats_run. cbn [fst snd].
  pose proof (fetch_events_clean config (requests env g k) (playerName player) Hbl)
    as Hclean.
  destruct (getPlayerStats (maxRetries config) (requests env g k)
              (playerName player)) as [netEvents [playerData|message]] eqn:Hfetch.
  - (* the statistics arrived *)
    cbn [fst snd] in *. unfold applyStats.
    destruct (verdict config (rankScore player) (ps_rankScore playerData))
      eqn:Hclass.
    + (* Changed *)
      unfold storePlayer. cbn. rewrite Hg. cbn.
      repeat split.
      * intros g' k' Hne.
        apply (playerAt_store_other (subs w) g k g' k' group _ Hg Hne).
      * rewrite ?Hbl. apply playerAt_store.
      * apply (shape_store _ _ _ _ player _ Hg Hk).
      * eexists. split; [rewrite <- !app_assoc; reflexivity|].
        split.
        -- apply Forall_app. split; [exact Hclean|].
           constructor; [|repeat constructor].
           intros name Habout.
           apply rankChangeMessage_about in Habout. subst name. exact Hbl.
        -- intros p [= <-] _ Hfail. rewrite Hfetch in Hfail. discriminate Hfail.
    + cbn. rewrite Hg, Hk. cbn. rewrite ?Hbl. repeat split.
      eexists. split; [rewrite <- app_assoc; reflexivity|].
      split.
      * apply Forall_app. split; [exact Hclean | repeat constructor].
      * intros p [= <-] _ Hfail. rewrite Hfetch in Hfail. discriminate Hfail.
    + cbn. rewrite Hg, Hk. cbn. rewrite ?Hbl. repeat split.
      eexists. split; [rewrite <- app_assoc; reflexivity|].
      split.
      * apply Forall_app. split; [exact Hclean | repeat constructor].
      * intros p [= <-] _ Hfail. rewrite Hfetch in Hfail. discriminate Hfail.
    + cbn. rewrite Hg, Hk. cbn. rewrite ?Hbl. repeat split.
      eexists. split; [reflexivity|].
      split; [exact Hclean|].
      intros p [= <-] _ Hfail. rewrite Hfetch in Hfail. discriminate Hfail.
  - (* getPlayerStats threw *)
    cbn. rewrite Hg, Hk. cbn. rewrite ?Hbl. repeat split.
    eexists. split; [rewrite <- app_assoc; reflexivity|].
    split.
    + apply Forall_app. split; [exact Hclean | repeat constructor].
    + intros p [= <-] _ _. apply in_or_app. right. now left.
Qed.

Section Loops.

Variable config : Config.
Variable env : Env.

Lemma loopFacts_none (w : World) : loopFacts config env (fun _ _ => False) w w.
Proof.
  repeat split; try tauto.
  exists []. rewrite app_nil_r. repeat split; [constructor | tauto].
Qed.

Lemma loopFacts_step (g k : string) (w : World) :
  loopFacts config env (fun g' k' => g' = g /\ k' = k) w
    (exec (checkPlayer config env g k) w).
Proof.
  destruct (checkPlayer_facts config env g k w)
    as [Hother [Hsame [Hshape [events [Htrace [Hclean Hfail]]]]]].
  unfold exec. repeat split.
  - intros g' k' Hnot. apply Hother. intros [= -> ->]. tauto.
  - intros g' k' [-> ->]. exact Hsame.
  - exact Hshape.
  - exists events. repeat split; try assumption.
    intros g' k' p [-> ->]. apply Hfail.
Qed.

Lemma loopFacts_seq (V1 V2 : string -> string -> Prop) (w w1 w2 : World) :
  (forall g k, V1 g k -> V2 g k -> False) ->
  loopFacts config env V1 w w1 ->
  loopFacts config env V2 w1 w2 ->
  loopFacts config env (fun g k => V1 g k \/ V2 g k) w w2.
Proof.
  intros Hdisj [Hout1 [Hin1 [Hshape1 [ev1 [Htr1 [Hcl1 Hf1]]]]]]
         [Hout2 [Hin2 [Hshape2 [ev2 [Htr2 [Hcl2 Hf2]]]]]].
  repeat split.
  - intros g k Hnot. rewrite Hout2, Hout1 by tauto. reflexivity.
  - intros g k [H1|H2].
    + rewrite Hout2 by (intros H2; exact (Hdisj g k H1 H2)).
      apply Hin1, H1.
    + rewrite (Hin2 g k H2), Hout1 by (intros H1; exact (Hdisj g k H1 H2)).
      reflexivity.
  - congruence.
  - exists (ev1 ++ ev2). repeat split.
    + rewrite Htr2, Htr1, app_assoc. reflexivity.
    + apply Forall_app. split; assumption.
    + intros g k p [H1|H2] Hat Hbl Hfails; apply in_or_app.
      * left. exact (Hf1 g k p H1 Hat Hbl Hfails).
      * right. apply (Hf2 g k p H2); try assumption.
        rewrite Hout1 by (intros H1; exact (Hdisj g k H1 H2)). exact Hat.
Qed.

(** The players visited may be described differently, and players that
    are not in the registry may be counted as visited. *)
Lemma loopFacts_extend (V V' : string -> string -> Prop) (w w' : World) :
  (forall g k, V g k -> V' g k) ->
  (forall g k, V' g k -> V g k \/ (~ V g k /\ playerAt g k (subs w) = None)) ->
  loopFacts config env V w w' ->
  loopFacts config env V' w w'.
Proof.
  intros Hsub Hrest [Hout [Hin [Hshape [events [Htr [Hcl Hf]]]]]].
  repeat split.
  - intros g k Hnot. apply Hout. intros HV. apply Hnot, Hsub, HV.
  - intros g k HV'. destruct (Hrest g k HV') as [HV|[HnV Hnone]].
    + apply Hin, HV.
    + rewrite (Hout g k HnV), Hnone. reflexivity.
  - exact Hshape.
  - exists events. repeat split; try assumption.
    intros g k p HV' Hat Hbl Hfails.
    destruct (Hrest g k HV') as [HV|[_ Hnone]]; [|congruence].
    exact (Hf g k p HV Hat Hbl Hfails).
Qed.

Lemma forEach_cons {A : Type} (x : A) (rest : list A) (body : A -> M unit)
    (w : World) :
  exec (forEach (x :: rest) body) w = exec (forEach rest body) (exec (body x) w).
Proof.
  unfold exec. cbn. destruct (runState (body x) w). reflexivity.
Qed.

(** The inner loop over the keys [ks] of a group. *)
Lemma checkPlayers_facts (g : string) (ks : list string) :
  NoDup ks ->
  forall w,
    loopFacts config env (fun g' k' => g' = g /\ In k' ks) w
      (exec (forEach ks (checkPlayer config env g)) w).
Proof.
  induction ks as [|k ks IH]; intros Hnd w.
  - apply (loopFacts_extend (fun _ _ => False)); [tauto | | apply loopFacts_none].
    intros g' k' [_ []].
  - inversion Hnd as [|? ? Hnotin Hnd']; subst.
    rewrite forEach_cons.
    apply (loopFacts_extend
             (fun g' k' => (g' = g /\ k' = k) \/ (g' = g /\ In k' ks))).
    + intros g' k' [[-> ->]|[-> Hin]]; split; simpl; auto.
    + intros g' k' [-> [->|Hin]]; left; [left|right]; auto.
    + apply (loopFacts_seq _ _ w (exec (checkPlayer config env g k) w)).
      * intros g' k' [_ ->] [_ Hin]. contradiction.
      * apply loopFacts_step.
      * apply IH, Hnd'.
Qed.

Lemma shape_names (r : Registry) : map fst (shape r) = map fst r.
Proof. unfold shape. rewrite map_map. reflexivity. Qed.

Lemma ownLookup_in_shape (r : Registry) (g : string) (group : GroupSubscription) :
  JsObject.ownLookup g r = Some group ->
  In (g, map fst (players group)) (shape r).
Proof.
  induction r as [|[g0 grp0] rest IH]; simpl; [discriminate|].
  destruct (String.eqb_spec g g0) as [->|Hne].
  - intros [= ->]. now left.
  - intros H. right. exact (IH H).
Qed.

Lemma wfRegistry_group (r : Registry) (g : string) (group : GroupSubscription) :
  wfRegistry r -> JsObject.ownLookup g r = Some group ->
  JsObject.wf (players group).
Proof.
  intros [_ Hall] Hg. apply ownLookup_in_shape in Hg.
  rewrite Forall_forall in Hall. exact (Hall _ Hg).
Qed.

Lemma wfRegistry_shape (r r' : Registry) :
  shape r' = shape r -> wfRegistry r -> wfRegistry r'.
Proof. unfold wfRegistry. intros ->. tauto. Qed.

(** One iteration of the outer loop visits the players of the group. *)
Lemma checkGroup_facts (g : string) (w : World) :
  wfRegistry (subs w) ->
  loopFacts config env (fun g' _ => g' = g) w (exec (checkGroup config env g) w).
Proof.
  intros Hwf. unfold exec, checkGroup. cbn.
  destruct (JsObject.ownLookup g (subs w)) as [group|] eqn:Hg.
  - apply (loopFacts_extend
             (fun g' k' => g' = g /\ In k' (JsObject.keys (players group)))).
    + tauto.
    + intros g' k' ->.
      destruct (in_dec string_dec k' (JsObject.keys (players group)))
        as [Hin|Hout]; [left; tauto|right].
      split; [tauto|]. unfold playerAt. rewrite Hg.
      apply JsObjectFacts.ownLookup_none_iff.
      intros Hin. apply Hout, JsObjectFacts.keys_in, Hin.
    + apply checkPlayers_facts, JsObjectFacts.keys_nodup.
      exact (wfRegistry_group _ _ _ Hwf Hg).
  - cbn. apply (loopFacts_extend (fun _ _ => False));
      [tauto | | apply loopFacts_none].
    intros g' k' ->. right. split; [tauto|].
    unfold playerAt. rewrite Hg. reflexivity.
Qed.

(** The outer loop over the group identities [gs]. *)
Lemma checkGroups_facts (gs : list string) :
  NoDup gs ->
  forall w,
    wfRegistry (subs w) ->
    loopFacts config env (fun g' _ => In g' gs) w
      (exec (forEach gs (checkGroup config env)) w).
Proof.
  induction gs as [|g gs IH]; intros Hnd w Hwf.
  - apply (loopFacts_extend (fun _ _ => False)); [tauto | | apply loopFacts_none].
    intros g' k' [].
  - inversion Hnd as [|? ? Hnotin Hnd']; subst.
    rewrite forEach_cons.
    pose proof (checkGroup_facts g w Hwf) as Hstep.
    apply (loopFacts_extend (fun g' (_ : string) => g' = g \/ In g' gs)).
    + intros g' k' [->|Hin]; simpl; auto.
    + intros g' k' [->|Hin]; left; auto.
    + apply (loopFacts_seq _ _ w (exec (checkGroup config env g) w)).
      * intros g' _ -> Hin. contradiction.
      * exact Hstep.
      * apply IH; [exact Hnd'|].
        destruct Hstep as [_ [_ [Hshape _]]].
        exact (wfRegistry_shape _ _ Hshape Hwf).
Qed.

(** One pass: every tracked player ends with the snapshot its own
    iteration gives, whatever happens to the other players; the names of
    the registry are the same; no request and no message concerns a
    blacklisted name; a failed request is logged. *)
Lemma checkRankChanges_facts (w : World) :
  wfRegistry (subs w) ->
  loopFacts config env (fun _ _ => True) w (exec (checkRankChanges config env) w).
Proof.
  intros Hwf. unfold exec, checkRankChanges. cbn.
  apply (loopFacts_extend (fun g' (_ : string) => In g' (JsObject.keys (subs w)))).
  - tauto.
  - intros g' k' _.
    destruct (in_dec string_dec g' (JsObject.keys (subs w))) as [Hin|Hout];
      [left; exact Hin|right].
    split; [exact Hout|]. unfold playerAt.
    replace (JsObject.ownLookup g' (subs w)) with (@None GroupSubscription);
      [reflexivity|].
    symmetry. apply JsObjectFacts.ownLookup_none_iff.
    intros Hin. apply Hout, JsObjectFacts.keys_in, Hin.
  - apply checkGroups_facts; [|exact Hwf].
    apply JsObjectFacts.keys_nodup. destruct Hwf as [Hnd _].
    rewrite shape_names in Hnd. exact Hnd.
Qed.

End Loops.

(* ------------------------------------------------------------------ *)
(** ** A failed request during a pass *)

(** C9. In one pass, when the request for a tracked player fails, the
    failure is logged, the snapshot of that player stays as it was, and
    every player of the registry ends the pass with the snapshot its own
    iteration gives; whatever the world does for the failing player, the
    other players end the pass with the same snapshots. *)
Theorem fetch_failure_is_isolated
    (config : Config) (env : Env) (registry : Registry)
    (g k : string) (player : PlayerData) :
  wfRegistry registry ->
  playerAt g k registry = Some player ->
  isBlacklisted (playerName player) (blacklist config) = false ->
  fetchFails config env g k player ->
  let w' := snd (run (checkRankChanges config env) registry) in
  In (EvError (LogCheckFailed (playerName player))) (trace w')
  /\ playerAt g k (subs w') = Some player
  /\ (forall g' k' p',
         playerAt g' k' registry = Some p' ->
         playerAt g' k' (subs w') = Some (checked config env g' k' p'))
  /\ (forall env',
         (forall g' k', (g', k') <> (g, k) ->
                        requests env' g' k' = requests env g' k'
                        /\ clock env' g' k' = clock env g' k') ->
         forall g' k',
           (g', k') <> (g, k) ->
           playerAt g' k'
             (subs (snd (run (checkRankChanges config env') registry)))
           = playerAt g' k' (subs w')).
Proof.
  intros Hwf Hat Hbl Hfails w'.
  pose proof (checkRankChanges_facts config env (mkWorld registry []) Hwf)
    as Hfacts.
  change (exec (checkRankChanges config env) (mkWorld registry []))
    with w' in Hfacts.
  destruct Hfacts as [_ [Hin [_ [events [Htrace [_ Hlogged]]]]]].
  cbn [subs trace app] in Hin, Htrace, Hlogged.
  repeat split.
  - rewrite Htrace. exact (Hlogged g k player I Hat Hbl Hfails).
  - rewrite (Hin g k I), Hat. simpl. unfold checked.
    rewrite Hbl. unfold fetchFails in Hfails. rewrite Hfails. reflexivity.
  - intros g' k' p' Hat'. rewrite (Hin g' k' I), Hat'. reflexivity.
  - intros env' Hagree g' k' Hne.
    pose proof (checkRankChanges_facts config env' (mkWorld registry []) Hwf)
      as Hfacts'.
    destruct Hfacts' as [_ [Hin' _]].
    cbn [subs] in Hin'.
    change (snd (run (checkRankChanges config env') registry))
      with (exec (checkRankChanges config env') (mkWorld registry [])).
    rewrite (Hin' g' k' I), (Hin g' k' I).
    destruct (playerAt g' k' registry) as [p'|]; [|reflexivity].
    simpl. unfold checked.
    destruct (Hagree g' k' Hne) as [-> ->]. reflexivity.
Qed.

Lemma twoGroups_wf : wfRegistry twoGroups.
Proof. solve_wfRegistry. Qed.

Lemma fetch_failure_is_isolated_witness :
  (playerAt "123" "moeneri" twoGroups = Some samplePlayer
   /\ isBlacklisted (playerName samplePlayer) (blacklist defaultConfig) = false
   /\ fetchFails defaultConfig oneFailure "123" "moeneri" samplePlayer)
  /\ playerAt "123" "moeneri"
       (subs (snd (run (checkRankChanges defaultConfig oneFailure) twoGroups)))
     = Some samplePlayer.
Proof.
  split; [repeat split|].
  exact (proj1 (proj2 (fetch_failure_is_isolated defaultConfig oneFailure
                         twoGroups "123" "moeneri" samplePlayer
                         twoGroups_wf eq_refl eq_refl eq_refl))).
Defined.

(** The pass on that registry visits group 99 first (an integer-like
    name), logs the failure and updates, notifies and saves the two other
    players. *)
Example pass_with_one_failure :
  let w' := snd (run (checkRankChanges defaultConfig oneFailure) twoGroups) in
  option_map rankScore (playerAt "123" "moeneri" (subs w')) = Some 10000
  /\ option_map rankScore (playerAt "123" "zed" (subs w')) = Some 5500
  /\ option_map rankScore (playerAt "99" "zed" (subs w')) = Some 5500
  /\ map isSend (trace w')
     = [false; true; false; false; false; false; true; false].
Proof. repeat split. Qed.

(* ------------------------------------------------------------------ *)
(** ** The blacklist *)

Lemma present_truthy (s : string) :
  JsString.truthy s = true -> present (Some s) = Some s.
Proof. intros H. unfold present. rewrite H. reflexivity. Qed.

(** C6. A name of the blacklist (the lower-cased name is one of the
    trimmed, lower-cased entries) is refused by the query and by the watch
    command before any request, and the pass skips a tracked player of
    that name: its iteration only logs, its snapshot is the same after the
    pass, and the pass makes no request for the name and sends no message
    about it.  The name is not empty and the watch command comes from a
    group; an empty name or a missing group is answered before the
    blacklist is looked at. *)
Theorem blacklisted_player_is_skipped (config : Config) (name : string) :
  isBlacklisted name (blacklist config) = true ->
  JsString.truthy name = true ->
  (forall net now w,
      runState (apexrank config net now (Some name)) w
      = (QueryBlacklisted name,
         mkWorld (subs w) (trace w ++ [EvWarn (LogBlockedQuery name)])))
  /\ (forall net now groupId w,
      JsString.truthy groupId = true ->
      runState (apexrankwatch config net now (Some groupId) (Some name)) w
      = (WatchBlacklisted name,
         mkWorld (subs w) (trace w ++ [EvWarn (LogBlockedWatch name)])))
  /\ (forall env g k player w,
      playerAt g k (subs w) = Some player ->
      playerName player = name ->
      runState (checkPlayer config env g k) w
      = (tt, mkWorld (subs w) (trace w ++ [EvWarn (LogSkipBlacklisted name)])))
  /\ (forall env registry,
      wfRegistry registry ->
      let w' := snd (run (checkRankChanges config env) registry) in
      (forall g k player,
          playerAt g k registry = Some player ->
          playerName player = name ->
          playerAt g k (subs w') = Some player)
      /\ ~ In (EvNet (NetGet name)) (trace w')
      /\ (forall g m, In (EvSend g m) (trace w') -> ~ about m name)).
Proof.
  intros Hbl Hname. split; [|split; [|split]].
  - intros net now w. unfold apexrank.
    rewrite (present_truthy _ Hname), Hbl. reflexivity.
  - intros net now groupId w Hgroup. unfold apexrankwatch.
    rewrite (present_truthy _ Hname), (present_truthy _ Hgroup), Hbl.
    reflexivity.
  - intros env g k player w Hat <-. unfold playerAt in Hat.
    destruct (JsObject.ownLookup g (subs w)) as [group|] eqn:Hg;
      [|discriminate].
    unfold checkPlayer. cbn -[awaitPlayerStats]. rewrite Hg. cbn -[awaitPlayerStats].
    rewrite Hat. cbn -[awaitPlayerStats]. rewrite Hbl. reflexivity.
  - intros env registry Hwf w'.
    pose proof (checkRankChanges_facts config env (mkWorld registry []) Hwf)
      as [_ [Hin [_ [events [Htrace [Hclean _]]]]]].
    change (exec (checkRankChanges config env) (mkWorld registry []))
      with w' in Hin, Htrace.
    cbn [subs trace app] in Hin, Htrace.
    rewrite Forall_forall in Hclean.
    split; [|split].
    + intros g k player Hat <-.
      rewrite (Hin g k I), Hat. simpl. unfold checked. rewrite Hbl. reflexivity.
    + rewrite Htrace. intros Hnet.
      apply Hclean in Hnet. simpl in Hnet. congruence.
    + intros g m. rewrite Htrace. intros Hsend Habout.
      apply Hclean in Hsend. simpl in Hsend.
      specialize (Hsend name Habout). congruence.
Qed.

Lemma blacklisted_player_is_skipped_witness :
  (isBlacklisted "MOENERI" (blacklist blacklistConfig) = true
   /\ JsString.truthy "MOENERI" = true)
  /\ runState (apexrank blacklistConfig
                 (always (Resolved (statsData 5000 "In lobby" 1))) 50
                 (Some "MOENERI"))
              (mkWorld sampleRegistry [])
     = (QueryBlacklisted "MOENERI",
        mkWorld sampleRegistry [EvWarn (LogBlockedQuery "MOENERI")]).
Proof.
  split; [split; reflexivity|].
  exact (proj1 (blacklisted_player_is_skipped blacklistConfig "MOENERI"
                  eq_refl eq_refl)
               (always (Resolved (statsData 5000 "In lobby" 1))) 50
               (mkWorld sampleRegistry [])).
Defined.

(** The pass with the tracked player on the blacklist: one log entry,
    nothing else. *)
Example pass_skips_blacklisted_player :
  run (checkRankChanges blacklistConfig oneFailure) sampleRegistry
  = (tt, mkWorld sampleRegistry [EvWarn (LogSkipBlacklisted "MoeNeri")]).
Proof. reflexivity. Qed.

(** The name is compared as it is typed: it is not trimmed, and an entry
    with a comma inside cannot be written. *)
Example blacklist_examples :
  isBlacklisted "moeneri" " alice , MoeNeri " = true
  /\ isBlacklisted " moeneri" " alice , MoeNeri " = false
  /\ isBlacklisted "alice" EmptyString = false
  /\ isBlacklisted "alice" "   " = false.
Proof. repeat split. Qed.

(* ------------------------------------------------------------------ *)
(** ** Removing a tracked player *)

Lemma get_own {V : Type} (o : JsObject.t V) (k : string) (v : V) :
  JsObject.ownLookup k o = Some v -> JsObject.get o k = JsObject.Own v.
Proof. unfold JsObject.get. intros ->. reflexivity. Qed.

Lemma get_own_inv {V : Type} (o : JsObject.t V) (k : string) (v : V) :
  JsObject.get o k = JsObject.Own v -> JsObject.ownLookup k o = Some v.
Proof.
  unfold JsObject.get. destruct (JsObject.ownLookup k o); [congruence|].
  destruct (JsObject.isPrototypeKey k); discriminate.
Qed.

(** The two ways the handler ends: a removal, which changes the registry
    and writes it, or an answer that leaves the world as it was. *)
Lemma apexrankremove_cases (guildId playerArg : option string) (w : World) :
  (exists name groupId group,
      present playerArg = Some name
      /\ present guildId = Some groupId
      /\ JsObject.ownLookup groupId (subs w) = Some group
      /\ JsObject.get (players group) (JsString.toLowerCase name)
         <> JsObject.Undefined
      /\ runState (apexrankremove guildId playerArg) w
         = (Removed name,
            let registry' :=
              afterRemoval (subs w) groupId group (JsString.toLowerCase name) in
            mkWorld registry' (trace w ++ [EvSave registry'])))
  \/ ((forall name, fst (runState (apexrankremove guildId playerArg) w)
                    <> Removed name)
      /\ snd (runState (apexrankremove guildId playerArg) w) = w
      /\ (forall name groupId group,
             present playerArg = Some name ->
             present guildId = Some groupId ->
             JsObject.ownLookup groupId (subs w) = Some group ->
             JsObject.get (players group) (JsString.toLowerCase name)
             = JsObject.Undefined)).
Proof.
  unfold apexrankremove.
  destruct (present playerArg) as [name|];
    [|right; repeat split; discriminate].
  destruct (present guildId) as [groupId|];
    [|right; repeat split; discriminate].
  cbn.
  destruct (JsObject.get (subs w) groupId) as [group| |] eqn:Hget.
  - apply get_own_inv in Hget.
    destruct (JsObject.get (players group) (JsString.toLowerCase name))
      as [player| |] eqn:Hplayer.
    + left. exists name, groupId, group.
      split; [reflexivity|]. split; [reflexivity|]. split; [exact Hget|].
      split.
      { change (JsObject.get (players group) (JsString.toLowerCase name)
                <> JsObject.Undefined).
        rewrite Hplayer. discriminate. }
      unfold afterRemoval. cbn. destruct (_ =? _)%nat; reflexivity.
    + left. exists name, groupId, group.
      split; [reflexivity|]. split; [reflexivity|]. split; [exact Hget|].
      split.
      { change (JsObject.get (players group) (JsString.toLowerCase name)
                <> JsObject.Undefined).
        rewrite Hplayer. discriminate. }
      unfold afterRemoval. cbn. destruct (_ =? _)%nat; reflexivity.
    + right. cbn. repeat split; try discriminate.
      intros n g grp [= <-] [= <-] Hg.
      rewrite Hget in Hg. injection Hg as <-. exact Hplayer.
  - right. cbn. repeat split; try discriminate.
    intros n g grp [= <-] [= <-] Hg.
    rewrite (get_own _ _ _ Hg) in Hget. discriminate.
  - right. cbn. repeat split; try discriminate.
    intros n g grp [= <-] [= <-] Hg.
    rewrite (get_own _ _ _ Hg) in Hget. discriminate.
Qed.

Lemma afterRemoval_lookup (registry : Registry) (groupId : string)
    (group : GroupSubscription) (playerKey g : string) :
  JsObject.ownLookup g (afterRemoval registry groupId group playerKey)
  = if String.eqb groupId g
    then match JsObject.delete (players group) playerKey with
         | [] => None
         | players' => Some (withPlayers group players')
         end
    else JsObject.ownLookup g registry.
Proof.
  unfold afterRemoval.
  set (players' := JsObject.delete (players group) playerKey).
  destruct (List.length (JsObject.keys players') =? 0)%nat eqn:Hlen.
  - apply JsObjectFacts.keys_empty_iff in Hlen. rewrite Hlen.
    destruct (String.eqb_spec groupId g) as [<-|Hne].
    + apply JsObjectFacts.ownLookup_delete_same.
    + rewrite JsObjectFacts.ownLookup_delete_other,
              JsObjectFacts.ownLookup_set_other by exact Hne.
      reflexivity.
  - assert (Hne' : players' <> []).
    { intros Heq. apply JsObjectFacts.keys_empty_iff in Heq. congruence. }
    destruct (String.eqb_spec groupId g) as [<-|Hne].
    + rewrite JsObjectFacts.ownLookup_set_same.
      destruct players'; [contradiction|reflexivity].
    + apply JsObjectFacts.ownLookup_set_other. exact Hne.
Qed.

(** What the removal does for the groups without players: if no group
    was empty before, none is after; the group a player was removed from
    is gone or still has players; removing the only player of a group
    deletes the entry of the group; and after a removal the registry
    written is the resulting one.  The other groups are not looked at. *)
Theorem remove_leaves_no_empty_group
    (guildId playerArg : option string) (registry : Registry) :
  let reply := fst (run (apexrankremove guildId playerArg) registry) in
  let w' := snd (run (apexrankremove guildId playerArg) registry) in
  (noEmptyGroup registry -> noEmptyGroup (subs w'))
  /\ (forall name groupId group',
         reply = Removed name ->
         present guildId = Some groupId ->
         JsObject.ownLookup groupId (subs w') = Some group' ->
         players group' <> [])
  /\ (forall name, reply = Removed name -> trace w' = [EvSave (subs w')])
  /\ (forall name groupId group player,
         present playerArg = Some name ->
         present guildId = Some groupId ->
         JsObject.ownLookup groupId registry = Some group ->
         players group = [(JsString.toLowerCase name, player)] ->
         reply = Removed name
         /\ JsObject.ownLookup groupId (subs w') = None).
Proof.
  unfold run.
  destruct (apexrankremove_cases guildId playerArg (mkWorld registry []))
    as [[name [groupId [group [Hname [Hgroup [Hg [Hplayer Hrun]]]]]]]
       |[Hreply [Hworld Hundef]]].
  - rewrite Hrun. cbn [fst snd subs trace app] in *.
    split; [|split; [|split]].
    + intros Hinv g grp. rewrite afterRemoval_lookup.
      destruct (String.eqb groupId g); [|apply Hinv].
      destruct (JsObject.delete (players group) (JsString.toLowerCase name))
        as [|entry rest]; [discriminate|].
      intros [= <-]. discriminate.
    + intros n g group' _ Hguild. rewrite Hgroup in Hguild.
      injection Hguild as <-.
      rewrite afterRemoval_lookup, String.eqb_refl.
      destruct (JsObject.delete (players group) (JsString.toLowerCase name))
        as [|entry rest]; [discriminate|].
      intros [= <-]. discriminate.
    + intros n _. reflexivity.
    + intros n g grp player Hn Hguild Hlookup Hplayers.
      rewrite Hname in Hn. injection Hn as <-.
      rewrite Hgroup in Hguild. injection Hguild as <-.
      rewrite Hg in Hlookup. injection Hlookup as <-.
      split; [reflexivity|].
      rewrite afterRemoval_lookup, String.eqb_refl, Hplayers.
      simpl. rewrite String.eqb_refl. reflexivity.
  - rewrite Hworld. cbn [subs trace] in *.
    split; [|split; [|split]].
    + tauto.
    + intros n g group' Hn. exfalso. exact (Hreply n Hn).
    + intros n Hn. exfalso. exact (Hreply n Hn).
    + intros n g grp player Hn Hguild Hlookup Hplayers. exfalso.
      specialize (Hundef _ _ _ Hn Hguild Hlookup).
      unfold JsObject.get in Hundef. rewrite Hplayers in Hundef.
      simpl in Hundef. rewrite String.eqb_refl in Hundef. discriminate.
Qed.

Lemma twoGroups_noEmptyGroup : noEmptyGroup twoGroups.
Proof.
  intros g group. unfold twoGroups. simpl.
  destruct (String.eqb g "123"); [intros [= <-]; discriminate|].
  destruct (String.eqb g "99"); [intros [= <-]; discriminate|].
  discriminate.
Qed.

(** Removing one of the two players of group 123 leaves no empty
    group. *)
Lemma remove_leaves_no_empty_group_witness :
  noEmptyGroup twoGroups
  /\ noEmptyGroup
       (subs (snd (run (apexrankremove (Some "123") (Some "Zed")) twoGroups))).
Proof.
  split; [exact twoGroups_noEmptyGroup|].
  exact (proj1 (remove_leaves_no_empty_group (Some "123") (Some "Zed") twoGroups)
               twoGroups_noEmptyGroup).
Defined.

Example remove_last_player_deletes_group :
  run (apexrankremove (Some "123") (Some "MOENERI")) sampleRegistry
  = (Removed "MOENERI", mkWorld [] [EvSave []]).
Proof. reflexivity. Qed.

Example remove_one_of_two_players :
  run (apexrankremove (Some "123") (Some "Zed")) twoGroups
  = (Removed "Zed",
     let registry' :=
       [ ("123", mkGroupSubscription "123" [("moeneri", samplePlayer)]);
         ("99", mkGroupSubscription "99" [("zed", otherPlayer)]) ] in
     mkWorld registry' [EvSave registry']).
Proof. reflexivity. Qed.

(* ------------------------------------------------------------------ *)
(** ** Adding a tracked player *)

(** The ways the handler ends, by what it does to the registry: nothing;
    a new group without players, when the group is new and the read of
    the player key reaches [Object.prototype]; or a new player. *)
Lemma apexrankwatch_cases (config : Config) (net : nat -> Outcome) (now : Z)
    (guildId playerArg : option string) (w : World) :
  let reply := fst (runState (apexrankwatch config net now guildId playerArg) w) in
  let w' := snd (runState (apexrankwatch config net now guildId playerArg) w) in
  ((forall name rank, reply <> WatchAdded name rank) /\ subs w' = subs w)
  \/ (exists name groupId,
         present playerArg = Some name
         /\ present guildId = Some groupId
         /\ JsObject.get (subs w) groupId = JsObject.Undefined
         /\ JsObject.isPrototypeKey (JsString.toLowerCase name) = true
         /\ reply = WatchAlready name
         /\ subs w' = afterEmptyGroup (subs w) groupId)
  \/ (exists name groupId playerData,
         present playerArg = Some name
         /\ present guildId = Some groupId
         /\ isBlacklisted name (blacklist config) = false
         /\ snd (getPlayerStats (maxRetries config) net name) = inl playerData
         /\ minValidScore config <= ps_rankScore playerData
         /\ JsObject.get (subs w) groupId <> JsObject.Inherited
         /\ playerAt groupId (JsString.toLowerCase name) (subs w) = None
         /\ JsObject.isPrototypeKey (JsString.toLowerCase name) = false
         /\ reply = WatchAdded name (getRankDisplayText playerData)
         /\ subs w'
            = afterWatch (subs w) groupId (JsString.toLowerCase name)
                (newPlayerData name playerData now)
         /\ trace w'
            = trace w
              ++ map EvNet (fst (getPlayerStats (maxRetries config) net name))
              ++ [EvSave (subs w'); EvSend groupId (MsgWatching name)]).
Proof.
  unfold apexrankwatch.
  destruct (present playerArg) as [name|];
    [|left; split; [discriminate|reflexivity]].
  destruct (present guildId) as [groupId|];
    [|left; split; [discriminate|reflexivity]].
  destruct (isBlacklisted name (blacklist config)) eqn:Hbl;
    [left; split; [discriminate|reflexivity]|].
  rewrite bind_run, awaitPlayerStats_run. cbn [fst snd].
  destruct (getPlayerStats (maxRetries config) net name)
    as [netEvents [playerData|message]] eqn:Hfetch;
    [|left; split; [discriminate|reflexivity]].
  cbn [fst snd].
  destruct (Z.ltb_spec (ps_rankScore playerData) (minValidScore config))
    as [Hlow|Hvalid];
    [left; split; [discriminate|reflexivity]|].
  cbn -[JsObject.get].
  destruct (JsObject.get (subs w) groupId) as [group| |] eqn:Hget.
  - (* the group exists *)
    apply get_own_inv in Hget. unfold watchInGroup.
    unfold JsObject.get.
    destruct (JsObject.ownLookup (JsString.toLowerCase name) (players group))
      as [player|] eqn:Hplayer;
      [left; split; [discriminate|reflexivity]|].
    destruct (JsObject.isPrototypeKey (JsString.toLowerCase name)) eqn:Hproto;
      [left; split; [discriminate|reflexivity]|].
    right. right. exists name, groupId, playerData.
    unfold afterWatch, playerAt. rewrite Hget, Hplayer. cbn.
    repeat split; rewrite ?Hfetch;
      try reflexivity; try assumption; try discriminate.
    cbn [fst]. rewrite <- !app_assoc. reflexivity.
  - (* the read of the group reaches the prototype *)
    left. split; [discriminate|reflexivity].
  - (* the group is created *)
    unfold watchInGroup, JsObject.get. cbn -[JsObject.isPrototypeKey].
    destruct (JsObject.isPrototypeKey (JsString.toLowerCase name)) eqn:Hproto.
    + right. left. exists name, groupId.
      repeat split; try reflexivity; [exact Hget | exact Hproto].
    + right. right. exists name, groupId, playerData.
      assert (Hnone : JsObject.ownLookup groupId (subs w) = None).
      { unfold JsObject.get in Hget.
        destruct (JsObject.ownLookup groupId (subs w)); [discriminate|].
        reflexivity. }
      unfold afterWatch, playerAt. rewrite Hnone. cbn.
      repeat split; rewrite ?Hfetch;
        try reflexivity; try assumption; try discriminate.
      * assert (Hp : JsObject.isPrototypeKey groupId = false).
        { unfold JsObject.get in Hget. rewrite Hnone in Hget.
          destruct (JsObject.isPrototypeKey groupId);
            [discriminate|reflexivity]. }
        change ((if JsObject.isPrototypeKey groupId
                 then @JsObject.Inherited GroupSubscription
                 else JsObject.Undefined) <> JsObject.Inherited).
        rewrite Hp. discriminate.
      * cbn [fst]. rewrite <- !app_assoc. reflexivity.
Qed.

Lemma filter_set_new {V : Type} (o : JsObject.t V) (k : string) (v : V) :
  JsObject.ownLookup k o = None ->
  filter (fun entry => String.eqb k (fst entry)) (JsObject.set o k v) = [(k, v)].
Proof.
  induction o as [|[k' v'] r IH]; simpl.
  - intros _. rewrite String.eqb_refl. reflexivity.
  - destruct (String.eqb_spec k k') as [->|Hne]; [discriminate|].
    intros H. simpl. destruct (String.eqb_spec k k'); [contradiction|].
    exact (IH H).
Qed.

Lemma afterWatch_player (r : Registry) (g k : string) (player : PlayerData) :
  playerAt g k (afterWatch r g k player) = Some player.
Proof.
  unfold afterWatch.
  destruct (JsObject.ownLookup g r) as [group|]; apply playerAt_store.
Qed.

Lemma afterWatch_entries (r : Registry) (g k : string) (player : PlayerData) :
  playerAt g k r = None ->
  entriesOf g k (afterWatch r g k player) = [(k, player)].
Proof.
  unfold playerAt, afterWatch, entriesOf.
  destruct (JsObject.ownLookup g r) as [group|] eqn:Hg; intros Hnone.
  - rewrite JsObjectFacts.ownLookup_set_same. simpl.
    apply filter_set_new, Hnone.
  - rewrite JsObjectFacts.ownLookup_set_same. simpl.
    rewrite String.eqb_refl. reflexivity.
Qed.

(** The blacklist looks at the lower-cased name only. *)
Lemma isBlacklisted_lower (name name' blacklist : string) :
  JsString.toLowerCase name' = JsString.toLowerCase name ->
  isBlacklisted name' blacklist = isBlacklisted name blacklist.
Proof. unfold isBlacklisted. intros ->. reflexivity. Qed.

(** The handler when the player is already an own property of the group:
    the request is made, nothing else happens. *)
Lemma apexrankwatch_already (config : Config) (net : nat -> Outcome) (now : Z)
    (groupId name : string) (playerData : PlayerStats) (player : PlayerData)
    (w : World) :
  JsString.truthy groupId = true ->
  JsString.truthy name = true ->
  isBlacklisted name (blacklist config) = false ->
  snd (getPlayerStats (maxRetries config) net name) = inl playerData ->
  minValidScore config <= ps_rankScore playerData ->
  playerAt groupId (JsString.toLowerCase name) (subs w) = Some player ->
  runState (apexrankwatch config net now (Some groupId) (Some name)) w
  = (WatchAlready name,
     mkWorld (subs w)
       (trace w ++ map EvNet (fst (getPlayerStats (maxRetries config) net name)))).
Proof.
  intros Hgroup Hname Hbl Hfetch Hvalid Hat.
  unfold apexrankwatch.
  rewrite (present_truthy _ Hname), (present_truthy _ Hgroup), Hbl.
  rewrite bind_run, awaitPlayerStats_run. cbn [fst snd].
  rewrite Hfetch.
  destruct (Z.ltb_spec (ps_rankScore playerData) (minValidScore config));
    [lia|].
  unfold playerAt in Hat.
  destruct (JsObject.ownLookup groupId (subs w)) as [group|] eqn:Hg;
    [|discriminate].
  cbn -[JsObject.get]. rewrite (get_own _ _ _ Hg).
  unfold watchInGroup. rewrite (get_own _ _ _ Hat). reflexivity.
Qed.

(** The claim of C8 for the names that do not reach [Object.prototype]:
    the first call adds the player under the lower-cased name, the second
    call, with any spelling of the name, is refused and changes nothing,
    and the group has one entry for the key. *)
Lemma watch_twice (config : Config) (net net' : nat -> Outcome) (now now' : Z)
    (groupId name name' : string) (playerData playerData' : PlayerStats)
    (registry : Registry) :
  JsString.truthy groupId = true ->
  JsString.truthy name = true ->
  JsString.truthy name' = true ->
  JsString.toLowerCase name' = JsString.toLowerCase name ->
  isBlacklisted name (blacklist config) = false ->
  snd (getPlayerStats (maxRetries config) net name) = inl playerData ->
  minValidScore config <= ps_rankScore playerData ->
  snd (getPlayerStats (maxRetries config) net' name') = inl playerData' ->
  minValidScore config <= ps_rankScore playerData' ->
  JsObject.get registry groupId <> JsObject.Inherited ->
  playerAt groupId (JsString.toLowerCase name) registry = None ->
  JsObject.isPrototypeKey (JsString.toLowerCase name) = false ->
  let first :=
    run (apexrankwatch config net now (Some groupId) (Some name)) registry in
  let second :=
    runState (apexrankwatch config net' now' (Some groupId) (Some name'))
             (snd first) in
  fst first = WatchAdded name (getRankDisplayText playerData)
  /\ fst second = WatchAlready name'
  /\ subs (snd second) = subs (snd first)
  /\ entriesOf groupId (JsString.toLowerCase name) (subs (snd second))
     = [(JsString.toLowerCase name, newPlayerData name playerData now)].
Proof.
  intros Hgroup Hname Hname' Hlower Hbl Hfetch Hvalid Hfetch' Hvalid'
         Hown Hnone Hproto first second.
  assert (Hfirst : fst first = WatchAdded name (getRankDisplayText playerData)
                   /\ subs (snd first)
                      = afterWatch registry groupId (JsString.toLowerCase name)
                          (newPlayerData name playerData now)).
  { unfold first, run, apexrankwatch.
    rewrite (present_truthy _ Hname), (present_truthy _ Hgroup), Hbl.
    rewrite bind_run, awaitPlayerStats_run. cbn [fst snd]. rewrite Hfetch.
    destruct (Z.ltb_spec (ps_rankScore playerData) (minValidScore config));
      [lia|].
    cbn -[JsObject.get]. unfold afterWatch, playerAt in *.
    unfold JsObject.get in *.
    destruct (JsObject.ownLookup groupId registry) as [group|] eqn:Hg.
    - unfold watchInGroup, JsObject.get. rewrite Hnone, Hproto. cbn.
      split; reflexivity.
    - destruct (JsObject.isPrototypeKey groupId); [contradiction|].
      unfold watchInGroup, JsObject.get. cbn -[JsObject.isPrototypeKey].
      rewrite Hproto. cbn. split; reflexivity. }
  destruct Hfirst as [Hreply Hsubs].
  assert (Hat : playerAt groupId (JsString.toLowerCase name') (subs (snd first))
                = Some (newPlayerData name playerData now)).
  { rewrite Hlower, Hsubs. apply afterWatch_player. }
  assert (Hbl' : isBlacklisted name' (blacklist config) = false).
  { rewrite (isBlacklisted_lower name name' _ Hlower). exact Hbl. }
  pose proof (apexrankwatch_already config net' now' groupId name' playerData'
                _ (snd first) Hgroup Hname' Hbl' Hfetch' Hvalid' Hat) as Hsecond.
  fold second in Hsecond.
  repeat split.
  - exact Hreply.
  - rewrite Hsecond. reflexivity.
  - rewrite Hsecond. reflexivity.
  - rewrite Hsecond. cbn [snd subs]. rewrite Hsubs.
    apply afterWatch_entries, Hnone.
Qed.

(** C8. A first call for the player name [constructor], in an empty
    registry and with a valid score fetched, is refused as already
    tracked: the read of the key in the new, empty [players] object
    reaches [Object.prototype].  The group is left in the registry without
    players and nothing is written. *)
Theorem first_watch_of_constructor_is_refused :
  run (apexrankwatch defaultConfig
         (always (Resolved (statsData 5000 "In lobby" 1))) 50
         (Some "123") (Some "constructor")) []
  = (WatchAlready "constructor",
     mkWorld [("123", mkGroupSubscription "123" [])]
             [EvNet (NetGet "constructor")]).
Proof. reflexivity. Qed.

(** C7. The group without players that the refused call leaves behind
    stays in the registry through a removal in another group: after the
    watch of [constructor] in group 123 and of [bob] in group 456, the
    removal of [bob] is confirmed, group 456 is deleted, and the registry
    that is kept and written holds group 123 with no player. *)
Theorem removal_elsewhere_keeps_the_empty_group :
  let net := always (Resolved (statsData 5000 "In lobby" 1)) in
  let r1 :=
    subs (snd (run (apexrankwatch defaultConfig net 50
                      (Some "123") (Some "constructor")) [])) in
  let r2 :=
    subs (snd (run (apexrankwatch defaultConfig net 60
                      (Some "456") (Some "bob")) r1)) in
  let out := run (apexrankremove (Some "456") (Some "bob")) r2 in
  Reachable defaultConfig r2
  /\ option_map playerName (playerAt "456" "bob" r2) = Some "bob"
  /\ fst out = Removed "bob"
  /\ snd out
     = mkWorld [("123", mkGroupSubscription "123" [])]
               [EvSave [("123", mkGroupSubscription "123" [])]]
  /\ Reachable defaultConfig (subs (snd out))
  /\ ~ noEmptyGroup (subs (snd out)).
Proof.
  intros net r1 r2 out.
  assert (Hr2 : Reachable defaultConfig r2).
  { apply (ReachStep defaultConfig r1 r2).
    - apply (ReachStep defaultConfig [] r1 (ReachEmpty _)).
      exact (StepWatch defaultConfig net 50 (Some "123") (Some "constructor") []).
    - exact (StepWatch defaultConfig net 60 (Some "456") (Some "bob") r1). }
  split; [exact Hr2|].
  split; [reflexivity|].
  split; [reflexivity|].
  split; [reflexivity|].
  split.
  - apply (ReachStep defaultConfig r2 _ Hr2).
    exact (StepRemove defaultConfig (Some "456") (Some "bob") r2).
  - intros H. exact (H "123" _ eq_refl eq_refl).
Qed.

(** That group without players is a registry the plugin can reach; a
    removal in another group leaves it there. *)
Example empty_group_is_reachable :
  let r := [("123", mkGroupSubscription "123" [])] in
  Reachable defaultConfig r
  /\ ~ noEmptyGroup r
  /\ run (apexrankremove (Some "99") (Some "zed")) r
     = (RemoveNotTracked "zed", mkWorld r []).
Proof.
  intros r. split; [|split].
  - apply (ReachStep defaultConfig [] r (ReachEmpty _)).
    exact (StepWatch defaultConfig
             (always (Resolved (statsData 5000 "In lobby" 1))) 50
             (Some "123") (Some "constructor") []).
  - intros H. exact (H "123" _ eq_refl eq_refl).
  - reflexivity.
Qed.

(** The same two calls for the name of the specification. *)
Example watch_moeneri_twice :
  let first :=
    run (apexrankwatch defaultConfig
           (always (Resolved (statsData 5000 "In lobby" 1))) 50
           (Some "123") (Some "moeneri")) [] in
  let second :=
    runState (apexrankwatch defaultConfig
                (always (Resolved (statsData 5000 "In lobby" 1))) 60
                (Some "123") (Some "MoeNeri")) (snd first) in
  fst first = WatchAdded "moeneri" [LineRank "黄金" (Some 2); LineScore 5000]
  /\ fst second = WatchAlready "MoeNeri"
  /\ map fst (entriesOf "123" "moeneri" (subs (snd second))) = ["moeneri"].
Proof. repeat split. Qed.

(* ------------------------------------------------------------------ *)
(** ** The registries the handlers and the pass can produce *)

Lemma shape_set (r : Registry) (g : string) (group : GroupSubscription) :
  shape (JsObject.set r g group)
  = JsObject.set (shape r) g (map fst (players group)).
Proof.
  induction r as [|[g0 grp0] rest IH]; simpl; [reflexivity|].
  destruct (String.eqb g g0); simpl; [reflexivity|].
  rewrite IH. reflexivity.
Qed.

Lemma shape_delete (r : Registry) (g : string) :
  shape (JsObject.delete r g) = JsObject.delete (shape r) g.
Proof.
  induction r as [|[g0 grp0] rest IH]; simpl; [reflexivity|].
  destruct (String.eqb g g0); simpl; rewrite IH; reflexivity.
Qed.

Lemma set_in {V : Type} (o : JsObject.t V) (k : string) (v : V)
    (entry : string * V) :
  In entry (JsObject.set o k v) -> entry = (k, v) \/ In entry o.
Proof.
  induction o as [|[k' v'] r IH]; simpl.
  - intros [H|[]]. left. congruence.
  - destruct (String.eqb k k'); simpl.
    + intros [H|H]; [left; congruence | right; right; exact H].
    + intros [H|H]; [right; left; exact H|].
      destruct (IH H) as [Heq|Hin]; [left; exact Heq | right; right; exact Hin].
Qed.

Lemma wfRegistry_set (r : Registry) (g : string) (group : GroupSubscription) :
  wfRegistry r -> JsObject.wf (players group) ->
  wfRegistry (JsObject.set r g group).
Proof.
  intros [Hnames Hall] Hgroup. unfold wfRegistry. rewrite shape_set. split.
  - apply JsObjectFacts.wf_set. exact Hnames.
  - apply Forall_forall. intros entry Hin.
    apply set_in in Hin. destruct Hin as [->|Hin]; [exact Hgroup|].
    rewrite Forall_forall in Hall. exact (Hall _ Hin).
Qed.

Lemma wfRegistry_delete (r : Registry) (g : string) :
  wfRegistry r -> wfRegistry (JsObject.delete r g).
Proof.
  intros [Hnames Hall]. unfold wfRegistry. rewrite shape_delete. split.
  - apply JsObjectFacts.wf_delete. exact Hnames.
  - apply Forall_forall. intros entry Hin.
    apply filter_In in Hin. destruct Hin as [Hin _].
    rewrite Forall_forall in Hall. exact (Hall _ Hin).
Qed.

Lemma wfRegistry_empty : wfRegistry [].
Proof. split; constructor. Qed.

Lemma wfRegistry_afterWatch (r : Registry) (g k : string) (player : PlayerData) :
  wfRegistry r -> wfRegistry (afterWatch r g k player).
Proof.
  intros Hwf. unfold afterWatch.
  destruct (JsObject.ownLookup g r) as [group|] eqn:Hg.
  - apply wfRegistry_set; [exact Hwf|].
    apply JsObjectFacts.wf_set. exact (wfRegistry_group _ _ _ Hwf Hg).
  - apply wfRegistry_set.
    + apply wfRegistry_set; [exact Hwf | constructor].
    + simpl. repeat constructor. simpl. tauto.
Qed.

Lemma wfRegistry_afterRemoval (r : Registry) (g k : string)
    (group : GroupSubscription) :
  wfRegistry r -> JsObject.ownLookup g r = Some group ->
  wfRegistry (afterRemoval r g group k).
Proof.
  intros Hwf Hg. unfold afterRemoval.
  assert (Hset : wfRegistry
                   (JsObject.set r g
                      (withPlayers group (JsObject.delete (players group) k)))).
  { apply wfRegistry_set; [exact Hwf|]. simpl.
    apply JsObjectFacts.wf_delete. exact (wfRegistry_group _ _ _ Hwf Hg). }
  destruct (_ =? _)%nat; [apply wfRegistry_delete|]; exact Hset.
Qed.

Lemma afterWatch_other (r : Registry) (g k g' k' : string) (player : PlayerData) :
  (g', k') <> (g, k) ->
  playerAt g' k' (afterWatch r g k player) = playerAt g' k' r.
Proof.
  intros Hne. unfold afterWatch.
  destruct (JsObject.ownLookup g r) as [group|] eqn:Hg.
  - apply (playerAt_store_other r g k g' k' group player Hg Hne).
  - rewrite (playerAt_store_other _ g k g' k'
               (mkGroupSubscription g JsObject.empty) player).
    + unfold playerAt.
      destruct (string_dec g g') as [<-|Hgg].
      * rewrite JsObjectFacts.ownLookup_set_same, Hg. reflexivity.
      * rewrite JsObjectFacts.ownLookup_set_other by exact Hgg. reflexivity.
    + apply JsObjectFacts.ownLookup_set_same.
    + exact Hne.
Qed.

Lemma afterRemoval_player (r : Registry) (g k g' k' : string)
    (group : GroupSubscription) (p : PlayerData) :
  JsObject.ownLookup g r = Some group ->
  playerAt g' k' (afterRemoval r g group k) = Some p ->
  playerAt g' k' r = Some p.
Proof.
  intros Hg. unfold playerAt. rewrite afterRemoval_lookup.
  destruct (String.eqb_spec g g') as [<-|Hne]; [|tauto].
  rewrite Hg.
  remember (JsObject.delete (players group) k) as players' eqn:Hdel.
  destruct players' as [|entry rest]; [discriminate|].
  cbn [withPlayers players]. rewrite Hdel.
  destruct (string_dec k k') as [<-|Hkk].
  - rewrite JsObjectFacts.ownLookup_delete_same. discriminate.
  - rewrite JsObjectFacts.ownLookup_delete_other by exact Hkk. tauto.
Qed.

Lemma checked_score (config : Config) (env : Env) (g k : string)
    (p : PlayerData) :
  0 <= minValidScore config -> 0 <= rankScore p ->
  0 <= rankScore (checked config env g k p).
Proof.
  intros Hmin Hp. unfold checked.
  destruct (isBlacklisted _ _); [exact Hp|].
  destruct (snd (getPlayerStats _ _ _)) as [playerData|]; [|exact Hp].
  destruct (verdict config (rankScore p) (ps_rankScore playerData)) eqn:Hclass;
    try exact Hp.
  apply verdict_changed_inv in Hclass. simpl. lia.
Qed.

(** The names of a reachable registry are well formed and, when the
    minimum valid score is not negative, so is every stored score. *)
Lemma step_invariant (config : Config) (r r' : Registry) :
  0 <= minValidScore config ->
  Step config r r' ->
  wfRegistry r /\ scoresNonNegative r ->
  wfRegistry r' /\ scoresNonNegative r'.
Proof.
  intros Hmin Hstep [Hwf Hscores].
  destruct Hstep as [net now guildId playerArg r|guildId playerArg r|env r].
  - (* watch *)
    pose proof (apexrankwatch_cases config net now guildId playerArg
                  (mkWorld r [])) as Hcases.
    cbn zeta in Hcases. cbn [subs trace] in Hcases. unfold run.
    destruct Hcases
      as [[_ ->]
         |[[name [groupId [_ [_ [Hget [_ [_ ->]]]]]]]
          |[name [groupId [playerData
              [_ [_ [_ [_ [Hvalid [_ [Hnone [_ [_ [-> _]]]]]]]]]]]]]]].
    + split; assumption.
    + unfold afterEmptyGroup. split.
      * apply wfRegistry_set; [exact Hwf | constructor].
      * intros g k p. unfold playerAt.
        destruct (string_dec groupId g) as [<-|Hne].
        -- rewrite JsObjectFacts.ownLookup_set_same. discriminate.
        -- rewrite JsObjectFacts.ownLookup_set_other by exact Hne.
           apply Hscores.
    + split; [apply wfRegistry_afterWatch, Hwf|].
      intros g k p.
      destruct (string_dec g groupId) as [->|Hg];
        [destruct (string_dec k (JsString.toLowerCase name)) as [->|Hk]|].
      * rewrite afterWatch_player. intros [= <-]. simpl. lia.
      * rewrite afterWatch_other by congruence. apply Hscores.
      * rewrite afterWatch_other by congruence. apply Hscores.
  - (* remove *)
    unfold run.
    destruct (apexrankremove_cases guildId playerArg (mkWorld r []))
      as [[name [groupId [group [_ [_ [Hg [_ ->]]]]]]]|[_ [-> _]]].
    + cbn [snd subs] in *. split.
      * apply wfRegistry_afterRemoval; assumption.
      * intros g k p Hat. apply (Hscores g k p).
        exact (afterRemoval_player _ _ _ _ _ _ _ Hg Hat).
    + split; assumption.
  - (* one pass *)
    destruct (checkRankChanges_facts config env (mkWorld r []) Hwf)
      as [_ [Hin [Hshape _]]].
    change (exec (checkRankChanges config env) (mkWorld r []))
      with (snd (run (checkRankChanges config env) r)) in Hin, Hshape.
    cbn [subs] in Hin, Hshape. split.
    + exact (wfRegistry_shape _ _ Hshape Hwf).
    + intros g k p. rewrite (Hin g k I).
      destruct (playerAt g k r) as [p0|] eqn:Hat; [|discriminate].
      intros [= <-]. apply checked_score; [exact Hmin|].
      exact (Hscores g k p0 Hat).
Qed.

(** C10, as stated, fails: with a negative minimum valid score in the
    configuration, a watch command stores the negative score the service
    reports. *)
Lemma negative_score_is_stored :
  let r := subs (snd (run (apexrankwatch negativeMinimum
                             (always (Resolved (statsData (-5) "In lobby" 1)))
                             50 (Some "123") (Some "moeneri")) [])) in
  Reachable negativeMinimum r
  /\ option_map rankScore (playerAt "123" "moeneri" r) = Some (-5)
  /\ ~ scoresNonNegative r.
Proof.
  intros r. split; [|split].
  - apply (ReachStep _ [] r (ReachEmpty _)). apply StepWatch.
  - reflexivity.
  - intros H. specialize (H "123" "moeneri" _ eq_refl). simpl in H. lia.
Qed.

(** C10, amended. When the minimum valid score of the configuration is
    not negative, every snapshot of every registry reached from the empty
    one by watch commands, remove commands and passes has a score that is
    not negative. *)
Theorem stored_scores_are_not_negative (config : Config) (r : Registry) :
  0 <= minValidScore config ->
  Reachable config r ->
  scoresNonNegative r.
Proof.
  intros Hmin Hreach.
  assert (Hinv : wfRegistry r /\ scoresNonNegative r).
  { induction Hreach as [|r r' Hreach IH Hstep].
    - split; [apply wfRegistry_empty|]. intros g k p. discriminate.
    - exact (step_invariant config r r' Hmin Hstep IH). }
  exact (proj2 Hinv).
Qed.

Lemma stored_scores_are_not_negative_witness :
  (0 <= minValidScore defaultConfig /\ Reachable defaultConfig afterOneWatch)
  /\ scoresNonNegative afterOneWatch.
Proof.
  assert (Hmin : 0 <= minValidScore defaultConfig) by (simpl; lia).
  assert (Hreach : Reachable defaultConfig afterOneWatch).
  { apply (ReachStep _ [] _ (ReachEmpty _)). apply StepWatch. }
  split; [split; assumption|].
  exact (stored_scores_are_not_negative defaultConfig afterOneWatch Hmin Hreach).
Defined.


(* ------------------------------------------------------------------ *)
(** ** More on the fetch routine *)

Lemma transientb_spec (net : nat -> Outcome) (j : nat) :
  transientb net j = true <-> transientAt net j.
Proof.
  unfold transientb, transientAt. destruct (net j) as [data|e].
  - split; [discriminate|]. intros [e [H _]]. discriminate.
  - split.
    + intros H. exists e. split; [reflexivity|exact H].
    + intros [e' [[= <-] H]]. exact H.
Qed.

(** The first request, up to number [n], that is not a retriable
    failure; [n] when there is none before it. *)
Lemma first_decisive (net : nat -> Outcome) (n : nat) :
  exists k, (k <= n)%nat
            /\ (forall j, (j < k)%nat -> transientAt net j)
            /\ (k = n \/ ~ transientAt net k).
Proof.
  induction n as [|n [k [Hle [Hbefore Hk]]]].
  - exists 0%nat. repeat split; [lia | intros j Hj; lia | now left].
  - destruct Hk as [->|Hk].
    + destruct (transientb net n) eqn:Hn.
      * exists (S n). repeat split; [lia | | now left].
        intros j Hj. destruct (Nat.eq_dec j n) as [->|Hne].
        -- apply transientb_spec, Hn.
        -- apply Hbefore. lia.
      * exists n. repeat split; [lia | exact Hbefore | right].
        intros H. apply transientb_spec in H. congruence.
    + exists k. repeat split; [lia | exact Hbefore | now right].
Qed.

Lemma schedule_gets (player : string) (k : nat) :
  List.length (filter isGet (schedule player k)) = S k.
Proof.
  unfold schedule. simpl. f_equal.
  rewrite <- (length_seq k 1) at 2.
  induction (seq 1 k) as [|j l IH]; simpl; [reflexivity|].
  f_equal. exact IH.
Qed.

Lemma schedule_totalDelay (player : string) (k : nat) :
  totalDelay (schedule player k) = (2 ^ (Z.of_nat k + 1) - 2) * 1000.
Proof.
  unfold totalDelay, schedule, delaysOf. cbn [flat_map app].
  induction k as [|k IH].
  - reflexivity.
  - rewrite seq_S, !flat_map_app, fold_right_app. cbn [flat_map app fold_right].
    rewrite Z.add_0_r.
    assert (Hshift : forall (l : list Z) (a : Z),
               fold_right Z.add a l = fold_right Z.add 0 l + a).
    { induction l as [|x l IHl]; intros a; simpl; [lia|].
      rewrite IHl. lia. }
    rewrite Hshift, IH.
    replace (Z.of_nat (S k) + 1) with (Z.succ (Z.of_nat k + 1)) by lia.
    rewrite Z.pow_succ_r by lia.
    replace (Z.of_nat (1 + k)) with (Z.of_nat k + 1) by lia.
    lia.
Qed.

(** The events of a run are those of a schedule within the budget. *)
Lemma run_events (net : nat -> Outcome) (player : string) (maxRetries : Z) :
  0 <= maxRetries ->
  exists k,
    Z.of_nat k <= maxRetries
    /\ fst (apiRequestWithRetry net player maxRetries) = schedule player k.
Proof.
  intros Hbudget.
  destruct (first_decisive net (Z.to_nat maxRetries))
    as [k [Hle [Hbefore Hk]]].
  assert (Hk' : Z.of_nat k <= maxRetries) by lia.
  exists k. split; [exact Hk'|].
  destruct (apiRequestWithRetry_prefix net player maxRetries k Hbefore Hk')
    as [lastError [remaining Hrun]].
  rewrite Hrun, <- schedule_unfold. simpl.
  destruct (net k) as [data|e] eqn:Hnet; [reflexivity|].
  destruct (isRetriableError e && (Z.of_nat k <? maxRetries)) eqn:Hretry;
    [|reflexivity].
  exfalso. apply andb_prop in Hretry. destruct Hretry as [Hr Hlt].
  apply Z.ltb_lt in Hlt. destruct Hk as [->|Hk]; [lia|].
  apply Hk. exists e. split; assumption.
Qed.

(** X1. Whatever the requests do, a run of the routine with a budget that
    is not negative is a schedule: it ends at some request [k] within the
    budget, every request before [k] failed with a retriable error, the
    result is what request [k] did, and a run that stops before the budget
    is used up stops at a request that is not a retriable failure. *)
Theorem every_run_is_a_schedule
    (net : nat -> Outcome) (player : string) (maxRetries : Z) :
  0 <= maxRetries ->
  exists k,
    Z.of_nat k <= maxRetries
    /\ (forall j, (j < k)%nat -> transientAt net j)
    /\ apiRequestWithRetry net player maxRetries
       = (schedule player k, decidedBy net k)
    /\ (Z.of_nat k < maxRetries -> ~ transientAt net k).
Proof.
  intros Hbudget.
  destruct (first_decisive net (Z.to_nat maxRetries))
    as [k [Hle [Hbefore Hk]]].
  assert (Hk' : Z.of_nat k <= maxRetries) by lia.
  exists k. split; [exact Hk'|]. split; [exact Hbefore|].
  destruct (apiRequestWithRetry_prefix net player maxRetries k Hbefore Hk')
    as [lastError [remaining Hrun]].
  split.
  - rewrite Hrun, <- schedule_unfold. unfold decidedBy. simpl.
    destruct (net k) as [data|e] eqn:Hnet; [reflexivity|].
    destruct (isRetriableError e && (Z.of_nat k <? maxRetries)) eqn:Hretry;
      [|reflexivity].
    exfalso. apply andb_prop in Hretry. destruct Hretry as [Hr Hlt].
    apply Z.ltb_lt in Hlt. destruct Hk as [->|Hk]; [lia|].
    apply Hk. exists e. split; assumption.
  - intros Hlt. destruct Hk as [->|Hk]; [lia|exact Hk].
Qed.

Lemma every_run_is_a_schedule_witness :
  0 <= 3
  /\ exists k,
       Z.of_nat k <= 3
       /\ (forall j, (j < k)%nat -> transientAt (always notFound) j)
       /\ apiRequestWithRetry (always notFound) "moeneri" 3
          = (schedule "moeneri" k, decidedBy (always notFound) k)
       /\ (Z.of_nat k < 3 -> ~ transientAt (always notFound) k).
Proof.
  split; [lia|].
  exact (every_run_is_a_schedule (always notFound) "moeneri" 3 ltac:(lia)).
Defined.

(** X2. The routine never makes more than [maxRetries + 1] requests, all
    for the player asked for, and never waits longer in total than
    [2^(maxRetries+1) - 2] seconds: 14 seconds with the default budget. *)
Theorem request_budget
    (net : nat -> Outcome) (player : string) (maxRetries : Z) :
  0 <= maxRetries ->
  let events := fst (apiRequestWithRetry net player maxRetries) in
  Z.of_nat (List.length (filter isGet events)) <= maxRetries + 1
  /\ (forall name, In (NetGet name) events -> name = player)
  /\ 0 <= totalDelay events <= (2 ^ (maxRetries + 1) - 2) * 1000.
Proof.
  intros Hbudget events.
  destruct (run_events net player maxRetries Hbudget) as [k [Hk Hevents]].
  fold events in Hevents.
  split; [|split].
  - rewrite Hevents, schedule_gets. lia.
  - intros name Hin. subst events. unfold apiRequestWithRetry in Hin.
    exact (retryLoop_gets _ _ _ _ _ _ _ Hin).
  - rewrite Hevents, schedule_totalDelay.
    assert (Hpow : 2 ^ 1 <= 2 ^ (Z.of_nat k + 1) <= 2 ^ (maxRetries + 1)).
    { split; apply Z.pow_le_mono_r; lia. }
    change (2 ^ 1) with 2 in Hpow. lia.
Qed.

Lemma request_budget_witness :
  0 <= maxRetries defaultConfig
  /\ Z.of_nat (List.length
                 (filter isGet
                    (fst (apiRequestWithRetry (always timedOut) "moeneri"
                            (maxRetries defaultConfig)))))
     <= maxRetries defaultConfig + 1.
Proof.
  assert (H : 0 <= maxRetries defaultConfig) by (simpl; lia).
  split; [exact H|].
  exact (proj1 (request_budget (always timedOut) "moeneri"
                  (maxRetries defaultConfig) H)).
Defined.

(** With timeouts only, the default budget is used up: four requests and
    fourteen seconds of waiting. *)
Example timeouts_use_up_the_budget :
  let events := fst (apiRequestWithRetry (always timedOut) "moeneri" 3) in
  List.length (filter isGet events) = 4%nat /\ totalDelay events = 14000.
Proof. split; reflexivity. Qed.



(* ------------------------------------------------------------------ *)
(** ** The statistics built from a response *)

Lemma orElse_truthy (a b : string) :
  JsString.truthy b = true -> JsString.truthy (JsString.orElse a b) = true.
Proof.
  intros H. unfold JsString.orElse.
  destruct (JsString.truthy a) eqn:Ha; assumption.
Qed.

(** X4. Whatever the service sends, the statistics have an online status
    that is one of the two texts, decided by [isOnline === 1], and a rank
    name, a percentile, a tier and an activity state that are never
    empty. *)
Theorem normalize_fills_every_field (data : ApiData) :
  let stats := normalize data in
  let realtimeData :=
    match realtime data with Some r => r | None => emptyRealtime end in
  (ps_isOnline stats = "在线" <-> rt_isOnline realtimeData = Some 1)
  /\ (ps_isOnline stats = "离线" <-> rt_isOnline realtimeData <> Some 1)
  /\ JsString.truthy (ps_rankName stats) = true
  /\ JsString.truthy (ps_globalRankPercent stats) = true
  /\ JsString.truthy (ps_legendRank stats) = true
  /\ JsString.truthy (ps_currentState stats) = true.
Proof.
  intros stats realtimeData. subst stats.
  split; [|split; [|split; [|split; [|split]]]].
  - unfold normalize. rewrite splitTimeInfo_id. cbn [ps_isOnline].
    fold realtimeData.
    destruct (rt_isOnline realtimeData) as [[|p|p]|];
      try (split; discriminate).
    destruct p; split; intros H; try discriminate H; reflexivity.
  - unfold normalize. rewrite splitTimeInfo_id. cbn [ps_isOnline].
    fold realtimeData.
    destruct (rt_isOnline realtimeData) as [[|p|p]|]; try destruct p;
      split; intros H; try reflexivity; try discriminate H; congruence.
  - unfold normalize. rewrite splitTimeInfo_id. cbn [ps_rankName].
    apply translate_truthy, strOr_truthy. reflexivity.
  - unfold normalize. rewrite splitTimeInfo_id. cbn [ps_globalRankPercent].
    apply strOr_truthy. reflexivity.
  - unfold normalize. rewrite splitTimeInfo_id. cbn [ps_legendRank].
    unfold getLegendRank.
    destruct (tableLookup _ legendRankMap); [|reflexivity].
    apply orElse_truthy. reflexivity.
  - apply currentState_truthy.
Qed.

Lemma sentScore_missing (data : ApiData) :
  sentScore data = None \/ sentScore data = Some 0 ->
  ps_rankScore (normalize data) = 0.
Proof.
  unfold normalize, sentScore. rewrite splitTimeInfo_id. cbn [ps_rankScore].
  destruct (global data) as [globalData|]; [|reflexivity].
  destruct (gd_rank globalData) as [rankData|]; [|reflexivity].
  intros [->| ->]; reflexivity.
Qed.

(** X5. A response that has no score, or the score 0, is never added when
    the minimum valid score is positive: the watch command answers that
    the score 0 is too low and neither changes the registry nor writes or
    sends anything. *)
Theorem response_without_score_is_not_added
    (config : Config) (net : nat -> Outcome) (now : Z)
    (groupId name : string) (data : ApiData) (w : World) :
  0 < minValidScore config ->
  JsString.truthy name = true ->
  JsString.truthy groupId = true ->
  isBlacklisted name (blacklist config) = false ->
  snd (apiRequestWithRetry net name (maxRetries config)) = Returned data ->
  sentScore data = None \/ sentScore data = Some 0 ->
  runState (apexrankwatch config net now (Some groupId) (Some name)) w
  = (WatchTooLow name 0 (minValidScore config),
     mkWorld (subs w)
       (trace w
        ++ map EvNet (fst (apiRequestWithRetry net name (maxRetries config))))).
Proof.
  intros Hmin Hname Hgroup Hbl Hreturned Hscore.
  unfold apexrankwatch.
  rewrite (present_truthy _ Hname), (present_truthy _ Hgroup), Hbl.
  rewrite bind_run, awaitPlayerStats_run. unfold getPlayerStats.
  destruct (apiRequestWithRetry net name (maxRetries config))
    as [events result].
  cbn [snd] in Hreturned. subst result. cbn [fst snd].
  rewrite (sentScore_missing data Hscore).
  destruct (Z.ltb_spec 0 (minValidScore config)); [reflexivity|lia].
Qed.

Lemma response_without_score_is_not_added_witness :
  (0 < minValidScore defaultConfig
   /\ JsString.truthy "moeneri" = true
   /\ JsString.truthy "123" = true
   /\ isBlacklisted "moeneri" (blacklist defaultConfig) = false
   /\ snd (apiRequestWithRetry (always (Resolved emptyData)) "moeneri"
             (maxRetries defaultConfig)) = Returned emptyData
   /\ (sentScore emptyData = None \/ sentScore emptyData = Some 0))
  /\ runState (apexrankwatch defaultConfig (always (Resolved emptyData)) 50
                 (Some "123") (Some "moeneri")) (mkWorld [] [])
     = (WatchTooLow "moeneri" 0 1, mkWorld [] [EvNet (NetGet "moeneri")]).
Proof.
  split; [repeat split; try reflexivity; left; reflexivity|].
  exact (response_without_score_is_not_added defaultConfig
           (always (Resolved emptyData)) 50 "123" "moeneri" emptyData
           (mkWorld [] []) eq_refl eq_refl eq_refl eq_refl eq_refl
           (or_introl eq_refl)).
Defined.

(* ------------------------------------------------------------------ *)
(** ** More on the blacklist *)

Ltac each_ascii c :=
  destruct c as [[] [] [] [] [] [] [] []].

Lemma lowerChar_idem (c : ascii) :
  JsString.lowerChar (JsString.lowerChar c) = JsString.lowerChar c.
Proof. each_ascii c; reflexivity. Qed.

Lemma isWhite_lowerChar (c : ascii) :
  JsString.isWhite (JsString.lowerChar c) = JsString.isWhite c.
Proof. each_ascii c; reflexivity. Qed.

Lemma comma_lowerChar (c : ascii) :
  Ascii.eqb "," (JsString.lowerChar c) = Ascii.eqb "," c.
Proof. each_ascii c; reflexivity. Qed.

Lemma toLowerCase_idem (s : string) :
  JsString.toLowerCase (JsString.toLowerCase s) = JsString.toLowerCase s.
Proof.
  induction s as [|c r IH]; simpl; [reflexivity|].
  rewrite lowerChar_idem, IH. reflexivity.
Qed.

Lemma toLowerCase_empty (s : string) :
  JsString.toLowerCase s = EmptyString <-> s = EmptyString.
Proof. destruct s; simpl; split; congruence. Qed.

Lemma trimStart_lower (s : string) :
  JsString.trimStart (JsString.toLowerCase s)
  = JsString.toLowerCase (JsString.trimStart s).
Proof.
  induction s as [|c r IH]; simpl; [reflexivity|].
  rewrite isWhite_lowerChar. destruct (JsString.isWhite c); [exact IH|].
  reflexivity.
Qed.

Lemma trimEnd_lower (s : string) :
  JsString.trimEnd (JsString.toLowerCase s)
  = JsString.toLowerCase (JsString.trimEnd s).
Proof.
  induction s as [|c r IH]; simpl; [reflexivity|].
  rewrite IH, isWhite_lowerChar.
  destruct (JsString.trimEnd r) as [|c' r']; simpl; [|reflexivity].
  destruct (JsString.isWhite c); reflexivity.
Qed.

Lemma trim_lower (s : string) :
  JsString.trim (JsString.toLowerCase s)
  = JsString.toLowerCase (JsString.trim s).
Proof. unfold JsString.trim. rewrite trimStart_lower. apply trimEnd_lower. Qed.

Lemma truthy_lower (s : string) :
  JsString.truthy (JsString.toLowerCase s) = JsString.truthy s.
Proof. destruct s; reflexivity. Qed.

Lemma eqb_empty_lower (s : string) :
  String.eqb (JsString.toLowerCase s) EmptyString = String.eqb s EmptyString.
Proof. destruct s; reflexivity. Qed.

(** X6. The blacklist ignores the case of the name and the case of the
    configured list: two names with the same lower-cased form get the same
    answer under two lists with the same lower-cased form. *)
Theorem blacklist_ignores_case (name name' blacklist blacklist' : string) :
  JsString.toLowerCase name' = JsString.toLowerCase name ->
  JsString.toLowerCase blacklist' = JsString.toLowerCase blacklist ->
  isBlacklisted name' blacklist' = isBlacklisted name blacklist.
Proof.
  intros Hname Hlist. unfold isBlacklisted.
  rewrite Hname, Hlist.
  rewrite <- (truthy_lower blacklist'), <- (truthy_lower blacklist), Hlist.
  rewrite <- (eqb_empty_lower (JsString.trim blacklist')),
          <- (eqb_empty_lower (JsString.trim blacklist)).
  rewrite <- !trim_lower, Hlist. reflexivity.
Qed.

Lemma blacklist_ignores_case_witness :
  (JsString.toLowerCase "MOENERI" = JsString.toLowerCase "MoeNeri"
   /\ JsString.toLowerCase "Alice, MOENERI" = JsString.toLowerCase "alice, moeneri")
  /\ isBlacklisted "MOENERI" "Alice, MOENERI"
     = isBlacklisted "MoeNeri" "alice, moeneri".
Proof.
  split; [split; reflexivity|].
  exact (blacklist_ignores_case "MoeNeri" "MOENERI" "alice, moeneri"
           "Alice, MOENERI" eq_refl eq_refl).
Defined.

Lemma split_no_separator (sep : ascii) (s piece : string) :
  In piece (JsString.split sep s) -> hasChar sep piece = false.
Proof.
  revert piece. induction s as [|c r IH]; simpl; intros piece.
  - intros [<-|[]]. reflexivity.
  - destruct (Ascii.eqb c sep) eqn:Hc.
    + intros [<-|Hin]; [reflexivity|apply IH, Hin].
    + destruct (JsString.split sep r) as [|h t] eqn:Hsplit.
      * intros [<-|[]]. simpl. rewrite Ascii.eqb_sym, Hc. reflexivity.
      * intros [<-|Hin].
        -- simpl. rewrite Ascii.eqb_sym, Hc. apply IH. now left.
        -- apply IH. now right.
Qed.

Lemma hasChar_trimStart (c : ascii) (s : string) :
  hasChar c s = false -> hasChar c (JsString.trimStart s) = false.
Proof.
  induction s as [|c' r IH]; simpl; [reflexivity|].
  intros H. apply orb_false_elim in H. destruct H as [Hc Hr].
  destruct (JsString.isWhite c'); [apply IH, Hr|].
  simpl. rewrite Hc, Hr. reflexivity.
Qed.

Lemma hasChar_trimEnd (c : ascii) (s : string) :
  hasChar c s = false -> hasChar c (JsString.trimEnd s) = false.
Proof.
  induction s as [|c' r IH]; simpl; [reflexivity|].
  intros H. apply orb_false_elim in H. destruct H as [Hc Hr].
  specialize (IH Hr).
  destruct (JsString.trimEnd r) as [|c'' r'].
  - destruct (JsString.isWhite c'); simpl; [reflexivity|].
    rewrite Hc. reflexivity.
  - simpl. rewrite Hc. exact IH.
Qed.

Lemma hasChar_comma_lower (s : string) :
  hasChar "," (JsString.toLowerCase s) = hasChar "," s.
Proof.
  induction s as [|c r IH]; [reflexivity|].
  cbn [hasChar JsString.toLowerCase].
  rewrite comma_lowerChar, IH. reflexivity.
Qed.

Lemma startsWhite_trimStart (s : string) :
  startsWhite (JsString.trimStart s) = false.
Proof.
  induction s as [|c r IH]; simpl; [reflexivity|].
  destruct (JsString.isWhite c) eqn:Hc; [exact IH|]. simpl. exact Hc.
Qed.

Lemma startsWhite_trimEnd (s : string) :
  startsWhite s = false -> startsWhite (JsString.trimEnd s) = false.
Proof.
  destruct s as [|c r]; simpl; [reflexivity|]. intros Hc.
  destruct (JsString.trimEnd r); [rewrite Hc|]; simpl; exact Hc.
Qed.

Lemma endsWhite_trimEnd (s : string) : endsWhite (JsString.trimEnd s) = false.
Proof.
  induction s as [|c r IH]; simpl; [reflexivity|].
  destruct (JsString.trimEnd r) as [|c' r'] eqn:Hr.
  - destruct (JsString.isWhite c) eqn:Hc; simpl; [reflexivity|exact Hc].
  - exact IH.
Qed.

Lemma startsWhite_lower (s : string) :
  startsWhite (JsString.toLowerCase s) = startsWhite s.
Proof. destruct s; simpl; [reflexivity|apply isWhite_lowerChar]. Qed.

Lemma endsWhite_lower (s : string) :
  endsWhite (JsString.toLowerCase s) = endsWhite s.
Proof.
  induction s as [|c r IH]; simpl; [reflexivity|].
  destruct r as [|c' r']; simpl in *; [apply isWhite_lowerChar|exact IH].
Qed.

(** A blacklisted name is, lower-cased, one of the trimmed pieces of the
    lower-cased list. *)
Lemma isBlacklisted_piece (name blacklist : string) :
  isBlacklisted name blacklist = true ->
  exists piece,
    In piece (JsString.split "," (JsString.toLowerCase blacklist))
    /\ JsString.toLowerCase name = JsString.trim piece.
Proof.
  unfold isBlacklisted. destruct (_ || _); [discriminate|].
  unfold JsString.arrayIncludes. intros H.
  apply existsb_exists in H. destruct H as [entry [Hin Heq]].
  apply in_map_iff in Hin. destruct Hin as [piece [<- Hin]].
  apply String.eqb_eq in Heq. exists piece. split; assumption.
Qed.

(** X7. A name that starts or ends with white space, or that has a comma
    in it, is never blacklisted, whatever the list: the entries are the
    trimmed pieces between the commas and the name is compared as it
    is. *)
Theorem untrimmed_name_is_never_blacklisted (name blacklist : string) :
  startsWhite name = true \/ endsWhite name = true \/ hasChar "," name = true ->
  isBlacklisted name blacklist = false.
Proof.
  intros Hname.
  destruct (isBlacklisted name blacklist) eqn:Hbl; [exfalso|reflexivity].
  apply isBlacklisted_piece in Hbl. destruct Hbl as [piece [Hin Heq]].
  destruct Hname as [Hstart|[Hend|Hcomma]].
  - rewrite <- startsWhite_lower, Heq in Hstart. unfold JsString.trim in Hstart.
    rewrite startsWhite_trimEnd in Hstart by apply startsWhite_trimStart.
    discriminate.
  - rewrite <- endsWhite_lower, Heq in Hend. unfold JsString.trim in Hend.
    rewrite endsWhite_trimEnd in Hend. discriminate.
  - rewrite <- hasChar_comma_lower, Heq in Hcomma. unfold JsString.trim in Hcomma.
    rewrite hasChar_trimEnd in Hcomma; [discriminate|].
    apply hasChar_trimStart. exact (split_no_separator _ _ _ Hin).
Qed.

Lemma untrimmed_name_is_never_blacklisted_witness :
  (startsWhite " moeneri" = true \/ endsWhite " moeneri" = true
   \/ hasChar "," " moeneri" = true)
  /\ isBlacklisted " moeneri" "alice, moeneri" = false.
Proof.
  split; [left; reflexivity|].
  exact (untrimmed_name_is_never_blacklisted " moeneri" "alice, moeneri"
           (or_introl eq_refl)).
Defined.

(* ------------------------------------------------------------------ *)
(** ** The translation table *)

Lemma tableLookup_in (k v : string) (t : list (string * string)) :
  tableLookup k t = Some v -> In v (map snd t).
Proof.
  induction t as [|[k' v'] r IH]; simpl; [discriminate|].
  destruct (String.eqb k k'); [intros [= ->]; now left|].
  intros H. right. exact (IH H).
Qed.

Lemma nameMap_values :
  Forall (fun v => tableLookup v nameMap = None /\ JsString.truthy v = true)
         (map snd nameMap).
Proof. repeat constructor. Qed.

Lemma nameMap_values_own :
  Forall (fun v => JsObject.isPrototypeKey v = false) (map snd nameMap).
Proof. repeat constructor. Qed.

(** X8. A name that is not a member of [Object.prototype] is translated
    once: its translation is not a member of [Object.prototype] either
    and is not itself an entry of the table, so translating a translated
    name (a stored rank name, a state) gives the same text; and such a
    name, when the table does not have it, passes through unchanged. *)
Theorem translate_idempotent (name : string) :
  JsObject.isPrototypeKey name = false ->
  JsObject.isPrototypeKey (translate name) = false
  /\ translate (translate name) = translate name
  /\ (tableLookup name nameMap = None -> translate name = name).
Proof.
  intros Hproto. split; [|split].
  - destruct (tableLookup name nameMap) as [v|] eqn:Hlookup.
    + pose proof nameMap_values as Hall. rewrite Forall_forall in Hall.
      destruct (Hall v (tableLookup_in _ _ _ Hlookup)) as [_ Htruthy].
      assert (Hv : translate name = v).
      { unfold translate, JsString.orElse. rewrite Hlookup, Htruthy.
        reflexivity. }
      rewrite Hv.
      pose proof nameMap_values_own as Hown. rewrite Forall_forall in Hown.
      exact (Hown v (tableLookup_in _ _ _ Hlookup)).
    + unfold translate. rewrite Hlookup. exact Hproto.
  - destruct (tableLookup name nameMap) as [v|] eqn:Hlookup.
    + pose proof nameMap_values as Hall. rewrite Forall_forall in Hall.
      destruct (Hall v (tableLookup_in _ _ _ Hlookup)) as [Hnone Htruthy].
      assert (Hv : translate name = v).
      { unfold translate, JsString.orElse. rewrite Hlookup, Htruthy.
        reflexivity. }
      rewrite Hv. unfold translate. rewrite Hnone. reflexivity.
    + assert (Hv : translate name = name).
      { unfold translate. rewrite Hlookup. reflexivity. }
      rewrite Hv. exact Hv.
  - intros Hnone. unfold translate. rewrite Hnone. reflexivity.
Qed.

Lemma translate_idempotent_witness :
  JsObject.isPrototypeKey "In lobby" = false
  /\ translate (translate "In lobby") = translate "In lobby".
Proof.
  split; [reflexivity|].
  exact (proj1 (proj2 (translate_idempotent "In lobby" eq_refl))).
Defined.

(* ------------------------------------------------------------------ *)
(** ** The query command *)

Lemma existsb_map_EvNet (p : Event -> bool) (events : list NetEvent) :
  (forall e, p (EvNet e) = false) ->
  existsb p (map EvNet events) = false.
Proof.
  intros Hp. induction events as [|e r IH]; simpl; [reflexivity|].
  rewrite Hp, IH. reflexivity.
Qed.

(** X9. The query command only reads: whatever its argument and whatever
    the service does, it leaves the registry as it is, writes nothing and
    sends nothing, and it makes requests only for the name it was given,
    when that name is not blacklisted. *)
Theorem query_only_reads
    (config : Config) (net : nat -> Outcome) (now : Z)
    (playerArg : option string) (w : World) :
  let w' := snd (runState (apexrank config net now playerArg) w) in
  subs w' = subs w
  /\ exists events,
       trace w' = trace w ++ events
       /\ existsb isSave events = false
       /\ existsb isSend events = false
       /\ (forall name,
              In (EvNet (NetGet name)) events ->
              playerArg = Some name
              /\ isBlacklisted name (blacklist config) = false).
Proof.
  unfold apexrank.
  destruct (present playerArg) as [name|] eqn:Hpresent.
  2:{ cbn. split; [reflexivity|]. exists []. rewrite app_nil_r.
      repeat split; contradiction. }
  assert (Harg : playerArg = Some name).
  { unfold present in Hpresent. destruct playerArg as [s|]; [|discriminate].
    destruct (JsString.truthy s); congruence. }
  destruct (isBlacklisted name (blacklist config)) eqn:Hbl.
  { cbn. split; [reflexivity|]. eexists. split; [reflexivity|].
    split; [reflexivity|]. split; [reflexivity|].
    intros n [H|[]]. discriminate H. }
  rewrite bind_run, awaitPlayerStats_run. cbn [fst snd].
  assert (Hgets : forall n events',
             (forall e, In e events' -> isNet e = false) ->
             In (EvNet (NetGet n))
                (map EvNet (fst (getPlayerStats (maxRetries config) net name))
                 ++ events') ->
             playerArg = Some n
             /\ isBlacklisted n (blacklist config) = false).
  { intros n events' Hrest Hin. apply in_app_or in Hin.
    destruct Hin as [Hin|Hin].
    - apply in_map_iff in Hin. destruct Hin as [e [[= ->] Hin]].
      apply getPlayerStats_gets in Hin. subst n. split; assumption.
    - apply Hrest in Hin. discriminate Hin. }
  destruct (snd (getPlayerStats (maxRetries config) net name))
    as [playerData|message].
  - assert (Hquiet :
      exists events,
        trace w ++ map EvNet (fst (getPlayerStats (maxRetries config) net name))
        = trace w ++ events
        /\ existsb isSave events = false
        /\ existsb isSend events = false
        /\ (forall n, In (EvNet (NetGet n)) events ->
                      playerArg = Some n
                      /\ isBlacklisted n (blacklist config) = false)).
    { exists (map EvNet (fst (getPlayerStats (maxRetries config) net name))).
      split; [reflexivity|].
      rewrite !existsb_map_EvNet by reflexivity.
      split; [reflexivity|]. split; [reflexivity|].
      intros n Hin. apply (Hgets n []); [intros e []|].
      rewrite app_nil_r. exact Hin. }
    destruct (ps_rankScore playerData <? minValidScore config); cbn;
      (split; [reflexivity|exact Hquiet]).
  - cbn. split; [reflexivity|].
    exists (map EvNet (fst (getPlayerStats (maxRetries config) net name))
            ++ [EvError LogQueryFailed]).
    split; [rewrite app_assoc; reflexivity|].
    rewrite !existsb_app, !existsb_map_EvNet by reflexivity.
    split; [reflexivity|]. split; [reflexivity|].
    intros n Hin. apply (Hgets n [EvError LogQueryFailed]); [|exact Hin].
    intros e [<-|[]]. reflexivity.
Qed.

(** X10. In the answer of the query command the line of the current
    legend is there exactly for an online player with a legend, and the
    line of the activity state exactly for an online player who is in the
    lobby or in a match; for the statistics built from a response that
    flag is whether the activity text, annotation included, contains
    [lobby] or [match] in any case. *)
Theorem query_answer_lines (now : Z) :
  (forall playerData : PlayerStats,
      existsb isStateLine (formatPlayerRankText now playerData)
      = String.eqb (ps_isOnline playerData) "在线"
        && ps_isInLobbyOrMatch playerData
      /\ existsb isLegendLine (formatPlayerRankText now playerData)
         = String.eqb (ps_isOnline playerData) "在线"
           && JsString.truthy (ps_selectedLegend playerData))
  /\ (forall data : ApiData,
      ps_isInLobbyOrMatch (normalize data)
      = containsPattern (rawState data) "lobby"
        || containsPattern (rawState data) "match").
Proof.
  split.
  - intros playerData. unfold formatPlayerRankText, percentLine.
    rewrite !existsb_app.
    destruct (JsString.truthy (ps_globalRankPercent playerData)
              && negb (String.eqb (ps_globalRankPercent playerData) "未知"));
      destruct (String.eqb (ps_isOnline playerData) "在线");
      destruct (JsString.truthy (ps_selectedLegend playerData));
      destruct (ps_isInLobbyOrMatch playerData);
      split; reflexivity.
  - intros data. unfold normalize, rawState.
    rewrite splitTimeInfo_id. reflexivity.
Qed.

(** An annotated state still counts as being in a match. *)
Example annotated_state_is_in_match :
  ps_isInLobbyOrMatch (normalize (statsData 5000 "In Match (00:39)" 1)) = true
  /\ ps_isInLobbyOrMatch (normalize (statsData 5000 "Online" 1)) = false.
Proof. split; reflexivity. Qed.

(* ------------------------------------------------------------------ *)
(** ** More facts about dictionaries *)

Section MoreFacts.
Context {V : Type}.
Implicit Types (o : JsObject.t V) (k : string) (v : V).

Lemma set_set o k v v' :
  JsObject.set (JsObject.set o k v) k v' = JsObject.set o k v'.
Proof.
  induction o as [|[k0 v0] r IH]; simpl.
  - rewrite String.eqb_refl. reflexivity.
  - destruct (String.eqb k k0) eqn:Hk; simpl.
    + rewrite String.eqb_refl. reflexivity.
    + rewrite Hk, IH. reflexivity.
Qed.

Lemma set_same o k v : JsObject.ownLookup k o = Some v -> JsObject.set o k v = o.
Proof.
  induction o as [|[k0 v0] r IH]; simpl; [discriminate|].
  destruct (String.eqb_spec k k0) as [->|Hne].
  - intros [= ->]. reflexivity.
  - intros H. rewrite (IH H). reflexivity.
Qed.

Lemma delete_set o k v :
  JsObject.delete (JsObject.set o k v) k = JsObject.delete o k.
Proof.
  induction o as [|[k0 v0] r IH]; simpl.
  - rewrite String.eqb_refl. reflexivity.
  - destruct (String.eqb k k0) eqn:Hk; simpl.
    + rewrite String.eqb_refl. reflexivity.
    + rewrite Hk. simpl. rewrite IH. reflexivity.
Qed.

Lemma delete_absent o k : JsObject.ownLookup k o = None -> JsObject.delete o k = o.
Proof.
  induction o as [|[k0 v0] r IH]; simpl; [reflexivity|].
  destruct (String.eqb k k0); [discriminate|].
  intros H. simpl. rewrite (IH H). reflexivity.
Qed.

Lemma delete_empty_lookup o k k' :
  JsObject.delete o k = [] -> k <> k' -> JsObject.ownLookup k' o = None.
Proof.
  intros Hdel Hne.
  rewrite <- (JsObjectFacts.ownLookup_delete_other o k k' Hne), Hdel.
  reflexivity.
Qed.

End MoreFacts.

Lemma withPlayers_same (group : GroupSubscription) :
  withPlayers group (players group) = group.
Proof. destruct group. reflexivity. Qed.

(* ------------------------------------------------------------------ *)
(** ** More on the watch command *)

(** The run of the handler that adds a player. *)
Lemma apexrankwatch_added (config : Config) (net : nat -> Outcome) (now : Z)
    (groupId name : string) (playerData : PlayerStats) (w : World) :
  JsString.truthy groupId = true ->
  JsString.truthy name = true ->
  isBlacklisted name (blacklist config) = false ->
  snd (getPlayerStats (maxRetries config) net name) = inl playerData ->
  minValidScore config <= ps_rankScore playerData ->
  JsObject.get (subs w) groupId <> JsObject.Inherited ->
  playerAt groupId (JsString.toLowerCase name) (subs w) = None ->
  JsObject.isPrototypeKey (JsString.toLowerCase name) = false ->
  let registry' :=
    afterWatch (subs w) groupId (JsString.toLowerCase name)
      (newPlayerData name playerData now) in
  runState (apexrankwatch config net now (Some groupId) (Some name)) w
  = (WatchAdded name (getRankDisplayText playerData),
     mkWorld registry'
       (trace w
        ++ map EvNet (fst (getPlayerStats (maxRetries config) net name))
        ++ [EvSave registry'; EvSend groupId (MsgWatching name)])).
Proof.
  intros Hgroup Hname Hbl Hfetch Hvalid Hown Hnone Hproto registry'.
  subst registry'. unfold apexrankwatch.
  rewrite (present_truthy _ Hname), (present_truthy _ Hgroup), Hbl.
  rewrite bind_run, awaitPlayerStats_run. cbn [fst snd]. rewrite Hfetch.
  destruct (Z.ltb_spec (ps_rankScore playerData) (minValidScore config));
    [lia|].
  cbn -[JsObject.get]. unfold afterWatch, playerAt in *.
  unfold JsObject.get in *.
  destruct (JsObject.ownLookup groupId (subs w)) as [group|] eqn:Hg.
  - unfold watchInGroup, JsObject.get. rewrite Hnone, Hproto. cbn.
    rewrite <- !app_assoc. reflexivity.
  - destruct (JsObject.isPrototypeKey groupId); [contradiction|].
    unfold watchInGroup, JsObject.get. cbn -[JsObject.isPrototypeKey].
    rewrite Hproto. cbn. rewrite <- !app_assoc. reflexivity.
Qed.

(** X11. The watch command never overwrites or drops a snapshot that is
    in the registry, whatever it answers, and it keeps the names of the
    registry well formed. *)
Theorem watch_keeps_existing_snapshots
    (config : Config) (net : nat -> Outcome) (now : Z)
    (guildId playerArg : option string) (registry : Registry) :
  let registry' :=
    subs (snd (run (apexrankwatch config net now guildId playerArg) registry)) in
  (forall g k p,
      playerAt g k registry = Some p -> playerAt g k registry' = Some p)
  /\ (wfRegistry registry -> wfRegistry registry').
Proof.
  intros registry'. subst registry'. unfold run.
  pose proof (apexrankwatch_cases config net now guildId playerArg
                (mkWorld registry [])) as Hcases.
  cbn zeta in Hcases. cbn [subs trace] in Hcases.
  destruct Hcases
    as [[_ ->]
       |[[name [groupId [_ [_ [Hget [_ [_ ->]]]]]]]
        |[name [groupId [playerData
            [_ [_ [_ [_ [_ [_ [Hnone [_ [_ [-> _]]]]]]]]]]]]]]].
  - split; tauto.
  - split.
    + intros g k p Hat. unfold afterEmptyGroup, playerAt in *.
      destruct (string_dec groupId g) as [<-|Hne].
      * unfold JsObject.get in Hget.
        destruct (JsObject.ownLookup groupId registry); discriminate.
      * rewrite JsObjectFacts.ownLookup_set_other by exact Hne. exact Hat.
    + intros Hwf. apply wfRegistry_set; [exact Hwf | constructor].
  - split.
    + intros g k p Hat. rewrite afterWatch_other; [exact Hat|].
      intros [= -> ->]. congruence.
    + apply wfRegistry_afterWatch.
Qed.

Lemma apexrankwatch_quiet (config : Config) (net : nat -> Outcome) (now : Z)
    (guildId playerArg : option string) (w : World) :
  (forall name rank,
      fst (runState (apexrankwatch config net now guildId playerArg) w)
      <> WatchAdded name rank) ->
  exists events,
    trace (snd (runState (apexrankwatch config net now guildId playerArg) w))
    = trace w ++ events
    /\ existsb isSave events = false
    /\ existsb isSend events = false.
Proof.
  unfold apexrankwatch.
  destruct (present playerArg) as [name|];
    [|intros _; exists []; cbn; rewrite app_nil_r; repeat split].
  destruct (present guildId) as [groupId|];
    [|intros _; exists []; cbn; rewrite app_nil_r; repeat split].
  destruct (isBlacklisted name (blacklist config));
    [intros _; eexists; cbn; repeat split|].
  rewrite bind_run, awaitPlayerStats_run. cbn [fst snd].
  set (nets := fst (getPlayerStats (maxRetries config) net name)).
  assert (Hnets : existsb isSave (map EvNet nets) = false
                  /\ existsb isSend (map EvNet nets) = false).
  { split; apply existsb_map_EvNet; reflexivity. }
  destruct Hnets as [Hsave Hsend].
  destruct (snd (getPlayerStats (maxRetries config) net name))
    as [playerData|message].
  2:{ intros _. exists (map EvNet nets ++ [EvError LogWatchFailed]). cbn.
      rewrite app_assoc, !existsb_app, Hsave, Hsend. repeat split. }
  destruct (ps_rankScore playerData <? minValidScore config).
  { intros _. exists (map EvNet nets). cbn. repeat split; assumption. }
  cbn -[JsObject.get].
  destruct (JsObject.get (subs w) groupId) as [group| |].
  - unfold watchInGroup.
    destruct (JsObject.get (players group) (JsString.toLowerCase name)).
    + intros _. exists (map EvNet nets). cbn. repeat split; assumption.
    + intros _. exists (map EvNet nets). cbn. repeat split; assumption.
    + cbn. intros Hnot. exfalso. eapply Hnot. reflexivity.
  - intros _. exists (map EvNet nets ++ [EvError LogWatchFailed]). cbn.
    rewrite app_assoc, !existsb_app, Hsave, Hsend. repeat split.
  - unfold watchInGroup.
    destruct (JsObject.get
                (players (mkGroupSubscription groupId JsObject.empty))
                (JsString.toLowerCase name)).
    + intros _. exists (map EvNet nets). cbn. repeat split; assumption.
    + intros _. exists (map EvNet nets). cbn. repeat split; assumption.
    + cbn. intros Hnot. exfalso. eapply Hnot. reflexivity.
Qed.

(** X12. The watch command writes the registry and sends its message
    exactly when it answers that the player was added, and then it
    writes first and sends second, after the requests; with any other
    answer nothing is written and nothing is sent. *)
Theorem watch_writes_only_on_success
    (config : Config) (net : nat -> Outcome) (now : Z)
    (guildId playerArg : option string) (w : World) :
  let reply := fst (runState (apexrankwatch config net now guildId playerArg) w) in
  let w' := snd (runState (apexrankwatch config net now guildId playerArg) w) in
  exists events,
    trace w' = trace w ++ events
    /\ (forall name rank,
           reply = WatchAdded name rank ->
           exists requests groupId,
             present guildId = Some groupId
             /\ events = map EvNet requests
                         ++ [EvSave (subs w'); EvSend groupId (MsgWatching name)])
    /\ ((forall name rank, reply <> WatchAdded name rank) ->
        existsb isSave events = false /\ existsb isSend events = false).
Proof.
  intros reply w'.
  pose proof (apexrankwatch_cases config net now guildId playerArg w) as Hcases.
  cbn zeta in Hcases. fold reply w' in Hcases.
  destruct Hcases
    as [[Hnot _]
       |[[name [groupId [_ [_ [_ [_ [Hreply _]]]]]]]
        |[name [groupId [playerData
            [_ [Hguild [_ [_ [_ [_ [_ [_ [Hreply [_ Htrace]]]]]]]]]]]]]]].
  - destruct (apexrankwatch_quiet config net now guildId playerArg w Hnot)
      as [events [Htrace [Hsave Hsend]]].
    exists events. split; [exact Htrace|]. split.
    + intros n rank Hadded. exfalso. exact (Hnot n rank Hadded).
    + intros _. split; assumption.
  - assert (Hnot : forall n rank, reply <> WatchAdded n rank)
      by (intros n rank; rewrite Hreply; discriminate).
    destruct (apexrankwatch_quiet config net now guildId playerArg w Hnot)
      as [events [Htrace [Hsave Hsend]]].
    exists events. split; [exact Htrace|]. split.
    + intros n rank Hadded. exfalso. exact (Hnot n rank Hadded).
    + intros _. split; assumption.
  - eexists. split; [exact Htrace|]. split.
    + intros n rank Hadded. rewrite Hreply in Hadded.
      injection Hadded as <- _.
      eexists. exists groupId. split; [exact Hguild|reflexivity].
    + intros Hnot. exfalso. exact (Hnot _ _ Hreply).
Qed.

(* ------------------------------------------------------------------ *)
(** ** More on the remove command *)

Lemma afterRemoval_afterWatch (r : Registry) (g k : string)
    (player : PlayerData) (group' : GroupSubscription) :
  playerAt g k r = None ->
  (forall group, JsObject.ownLookup g r = Some group -> players group <> []) ->
  JsObject.ownLookup g (afterWatch r g k player) = Some group' ->
  afterRemoval (afterWatch r g k player) g group' k = r.
Proof.
  unfold playerAt, afterWatch, afterRemoval. intros Hnone Hfull.
  destruct (JsObject.ownLookup g r) as [group|] eqn:Hg.
  - rewrite JsObjectFacts.ownLookup_set_same. intros [= <-].
    cbn [withPlayers players groupId].
    rewrite delete_set, (delete_absent _ _ Hnone).
    destruct (List.length (JsObject.keys (players group)) =? 0)%nat eqn:Hlen.
    + apply JsObjectFacts.keys_empty_iff in Hlen.
      exfalso. exact (Hfull group eq_refl Hlen).
    + rewrite set_set.
      change (withPlayers
                (withPlayers group (JsObject.set (players group) k player))
                (players group))
        with (withPlayers group (players group)).
      rewrite withPlayers_same. apply set_same, Hg.
  - rewrite JsObjectFacts.ownLookup_set_same. intros [= <-].
    cbn [withPlayers players groupId JsObject.set JsObject.empty JsObject.delete
         filter fst negb].
    rewrite String.eqb_refl. cbn.
    rewrite !delete_set. apply delete_absent, Hg.
Qed.

(** X13. Adding a player and then removing it, under any spelling of the
    name, gives back the registry exactly as it was: the new entry goes,
    and so does the group when it was created for the player.  The name
    is not blacklisted and not a member of [Object.prototype], the player
    was not tracked, and the group, if it exists, has players. *)
Theorem watch_then_remove_restores
    (config : Config) (net : nat -> Outcome) (now : Z)
    (groupId name name' : string) (playerData : PlayerStats)
    (registry : Registry) :
  JsString.truthy groupId = true ->
  JsString.truthy name = true ->
  JsString.truthy name' = true ->
  JsString.toLowerCase name' = JsString.toLowerCase name ->
  isBlacklisted name (blacklist config) = false ->
  snd (getPlayerStats (maxRetries config) net name) = inl playerData ->
  minValidScore config <= ps_rankScore playerData ->
  JsObject.get registry groupId <> JsObject.Inherited ->
  playerAt groupId (JsString.toLowerCase name) registry = None ->
  JsObject.isPrototypeKey (JsString.toLowerCase name) = false ->
  (forall group,
      JsObject.ownLookup groupId registry = Some group -> players group <> []) ->
  let w1 :=
    snd (run (apexrankwatch config net now (Some groupId) (Some name)) registry) in
  let second := runState (apexrankremove (Some groupId) (Some name')) w1 in
  fst second = Removed name'
  /\ subs (snd second) = registry.
Proof.
  intros Hgroup Hname Hname' Hlower Hbl Hfetch Hvalid Hown Hnone Hproto Hfull
         w1 second.
  pose proof (apexrankwatch_added config net now groupId name playerData
                (mkWorld registry []) Hgroup Hname Hbl Hfetch Hvalid
                Hown Hnone Hproto) as Hadded.
  cbn zeta in Hadded. cbn [subs trace] in Hadded.
  assert (Hsubs : subs w1
                  = afterWatch registry groupId (JsString.toLowerCase name)
                      (newPlayerData name playerData now)).
  { unfold w1, run. rewrite Hadded. reflexivity. }
  destruct (apexrankremove_cases (Some groupId) (Some name') w1)
    as [[n [g [group [Hn [Hg [Hlookup [_ Hrun]]]]]]]
       |[_ [_ Hundef]]].
  - rewrite (present_truthy _ Hname') in Hn. injection Hn as <-.
    rewrite (present_truthy _ Hgroup) in Hg. injection Hg as <-.
    fold second in Hrun. rewrite Hrun. cbn [fst snd subs].
    split; [reflexivity|].
    rewrite Hlower. rewrite Hsubs in Hlookup |- *.
    apply afterRemoval_afterWatch; assumption.
  - exfalso.
    assert (Hat : playerAt groupId (JsString.toLowerCase name') (subs w1)
                  = Some (newPlayerData name playerData now)).
    { rewrite Hlower, Hsubs. apply afterWatch_player. }
    unfold playerAt in Hat.
    destruct (JsObject.ownLookup groupId (subs w1)) as [group|] eqn:Hlookup;
      [|discriminate].
    specialize (Hundef name' groupId group (present_truthy _ Hname')
                       (present_truthy _ Hgroup) Hlookup).
    rewrite (get_own _ _ _ Hat) in Hundef. discriminate.
Qed.

Lemma watch_then_remove_restores_witness :
  subs (snd (runState (apexrankremove (Some "123") (Some "ZOE"))
               (snd (run (apexrankwatch defaultConfig
                            (always (Resolved (statsData 5000 "In lobby" 1)))
                            50 (Some "123") (Some "Zoe")) sampleRegistry))))
  = sampleRegistry.
Proof.
  refine (proj2 (watch_then_remove_restores defaultConfig
                   (always (Resolved (statsData 5000 "In lobby" 1))) 50
                   "123" "Zoe" "ZOE"
                   (normalize (statsData 5000 "In lobby" 1)) sampleRegistry
                   eq_refl eq_refl eq_refl eq_refl eq_refl eq_refl _ _
                   eq_refl eq_refl _)).
  - simpl. lia.
  - discriminate.
  - intros group [= <-]. discriminate.
Defined.

(** X14. After the remove command has answered that the player was
    removed, the group has no snapshot under the lower-cased name, and
    every other snapshot of the registry is as it was. *)
Theorem remove_forgets_only_that_player
    (guildId playerArg : option string) (registry : Registry)
    (groupId name : string) :
  present guildId = Some groupId ->
  fst (run (apexrankremove guildId playerArg) registry) = Removed name ->
  let registry' := subs (snd (run (apexrankremove guildId playerArg) registry)) in
  playerAt groupId (JsString.toLowerCase name) registry' = None
  /\ (forall g k,
         (g, k) <> (groupId, JsString.toLowerCase name) ->
         playerAt g k registry' = playerAt g k registry).
Proof.
  intros Hguild Hreply registry'. subst registry'. unfold run in *.
  destruct (apexrankremove_cases guildId playerArg (mkWorld registry []))
    as [[n [g0 [group [Hn [Hg [Hlookup [_ Hrun]]]]]]]
       |[Hnot _]];
    [|exfalso; exact (Hnot name Hreply)].
  rewrite Hrun in *. cbn [fst snd subs] in *.
  injection Hreply as <-.
  rewrite Hguild in Hg. injection Hg as <-.
  unfold playerAt. split.
  - rewrite afterRemoval_lookup, String.eqb_refl.
    remember (JsObject.delete (players group) (JsString.toLowerCase n))
      as players' eqn:Hdel.
    destruct players' as [|entry rest]; [reflexivity|].
    cbn [withPlayers players]. rewrite Hdel.
    apply JsObjectFacts.ownLookup_delete_same.
  - intros g k Hne. rewrite afterRemoval_lookup.
    destruct (String.eqb_spec groupId g) as [<-|Hg]; [|reflexivity].
    rewrite Hlookup.
    assert (Hk : JsString.toLowerCase n <> k) by congruence.
    remember (JsObject.delete (players group) (JsString.toLowerCase n))
      as players' eqn:Hdel.
    destruct players' as [|entry rest].
    + symmetry. exact (delete_empty_lookup _ _ _ (eq_sym Hdel) Hk).
    + cbn [withPlayers players]. rewrite Hdel.
      apply JsObjectFacts.ownLookup_delete_other, Hk.
Qed.

Lemma remove_forgets_only_that_player_witness :
  (present (Some "123") = Some "123"
   /\ fst (run (apexrankremove (Some "123") (Some "Zed")) twoGroups)
      = Removed "Zed")
  /\ playerAt "123" "zed"
       (subs (snd (run (apexrankremove (Some "123") (Some "Zed")) twoGroups)))
     = None.
Proof.
  split; [split; reflexivity|].
  exact (proj1 (remove_forgets_only_that_player (Some "123") (Some "Zed")
                  twoGroups "123" "Zed" eq_refl eq_refl)).
Defined.

Lemma afterRemoval_forgets (r : Registry) (g k : string)
    (group : GroupSubscription) :
  playerAt g k (afterRemoval r g group k) = None.
Proof.
  unfold playerAt. rewrite afterRemoval_lookup, String.eqb_refl.
  remember (JsObject.delete (players group) k) as players' eqn:Hdel.
  destruct players' as [|entry rest]; [reflexivity|].
  cbn [withPlayers players]. rewrite Hdel.
  apply JsObjectFacts.ownLookup_delete_same.
Qed.

Lemma apexrankremove_untracked (groupId name : string) (w : World) :
  JsString.truthy groupId = true ->
  JsString.truthy name = true ->
  JsObject.isPrototypeKey (JsString.toLowerCase name) = false ->
  playerAt groupId (JsString.toLowerCase name) (subs w) = None ->
  runState (apexrankremove (Some groupId) (Some name)) w
  = (RemoveNotTracked name, w).
Proof.
  intros Hgroup Hname Hproto Hnone. unfold apexrankremove.
  rewrite (present_truthy _ Hname), (present_truthy _ Hgroup).
  cbn -[JsObject.get]. unfold playerAt in Hnone.
  unfold JsObject.get at 1.
  destruct (JsObject.ownLookup groupId (subs w)) as [group|].
  - unfold JsObject.get. rewrite Hnone, Hproto. reflexivity.
  - destruct (JsObject.isPrototypeKey groupId); reflexivity.
Qed.

(** X15. A second removal of the same player is answered as not tracked
    and changes nothing, and so is any removal that is not answered as
    removed: the registry is the same and nothing is written.  The name is
    not a member of [Object.prototype]. *)
Theorem remove_twice
    (groupId name : string) (w : World) :
  JsString.truthy groupId = true ->
  JsString.truthy name = true ->
  JsObject.isPrototypeKey (JsString.toLowerCase name) = false ->
  let first := runState (apexrankremove (Some groupId) (Some name)) w in
  let second := runState (apexrankremove (Some groupId) (Some name)) (snd first) in
  (fst first <> Removed name -> snd first = w)
  /\ fst second = RemoveNotTracked name
  /\ snd second = snd first.
Proof.
  intros Hgroup Hname Hproto first second.
  assert (Hnone : playerAt groupId (JsString.toLowerCase name)
                    (subs (snd first)) = None).
  { destruct (apexrankremove_cases (Some groupId) (Some name) w)
      as [[n [g [group [Hn [Hg [Hlookup [_ Hrun]]]]]]]
         |[_ [Hworld Hundef]]].
    - rewrite (present_truthy _ Hname) in Hn. injection Hn as <-.
      rewrite (present_truthy _ Hgroup) in Hg. injection Hg as <-.
      unfold first. rewrite Hrun. cbn [snd subs].
      apply afterRemoval_forgets.
    - unfold first. rewrite Hworld. unfold playerAt.
      destruct (JsObject.ownLookup groupId (subs w)) as [group|] eqn:Hlookup;
        [|reflexivity].
      specialize (Hundef name groupId group (present_truthy _ Hname)
                         (present_truthy _ Hgroup) Hlookup).
      unfold JsObject.get in Hundef.
      destruct (JsObject.ownLookup (JsString.toLowerCase name) (players group));
        [discriminate|reflexivity]. }
  split; [|].
  - intros Hnot.
    destruct (apexrankremove_cases (Some groupId) (Some name) w)
      as [[n [g [group [Hn [_ [_ [_ Hrun]]]]]]]|[_ [Hworld _]]].
    + exfalso. apply Hnot. unfold first. rewrite Hrun.
      rewrite (present_truthy _ Hname) in Hn. injection Hn as <-. reflexivity.
    + exact Hworld.
  - unfold second.
    rewrite (apexrankremove_untracked groupId name (snd first)
               Hgroup Hname Hproto Hnone).
    split; reflexivity.
Qed.

Lemma remove_twice_witness :
  (JsString.truthy "123" = true
   /\ JsString.truthy "Zed" = true
   /\ JsObject.isPrototypeKey (JsString.toLowerCase "Zed") = false)
  /\ fst (runState (apexrankremove (Some "123") (Some "Zed"))
            (snd (runState (apexrankremove (Some "123") (Some "Zed"))
                    (mkWorld twoGroups []))))
     = RemoveNotTracked "Zed".
Proof.
  split; [repeat split|].
  exact (proj1 (proj2 (remove_twice "123" "Zed" (mkWorld twoGroups [])
                         eq_refl eq_refl eq_refl))).
Defined.

(** X16. For a name whose lower-cased form is a member of
    [Object.prototype] (such as [constructor]) and a group that has
    players, the remove command answers that the player was removed and
    writes the registry although no such player is tracked; the registry
    is the same as before. *)
Theorem remove_of_inherited_name_is_confirmed
    (groupId name : string) (group : GroupSubscription) (w : World) :
  JsString.truthy groupId = true ->
  JsString.truthy name = true ->
  JsObject.isPrototypeKey (JsString.toLowerCase name) = true ->
  JsObject.ownLookup groupId (subs w) = Some group ->
  JsObject.ownLookup (JsString.toLowerCase name) (players group) = None ->
  players group <> [] ->
  runState (apexrankremove (Some groupId) (Some name)) w
  = (Removed name, mkWorld (subs w) (trace w ++ [EvSave (subs w)])).
Proof.
  intros Hgroup Hname Hproto Hlookup Hnone Hfull.
  destruct (apexrankremove_cases (Some groupId) (Some name) w)
    as [[n [g [group' [Hn [Hg [Hlookup' [_ Hrun]]]]]]]
       |[_ [_ Hundef]]].
  - rewrite (present_truthy _ Hname) in Hn. injection Hn as <-.
    rewrite (present_truthy _ Hgroup) in Hg. injection Hg as <-.
    rewrite Hlookup in Hlookup'. injection Hlookup' as <-.
    rewrite Hrun. cbn zeta.
    assert (Hsame : afterRemoval (subs w) groupId group
                      (JsString.toLowerCase name) = subs w).
    { unfold afterRemoval. rewrite (delete_absent _ _ Hnone).
      destruct (List.length (JsObject.keys (players group)) =? 0)%nat eqn:Hlen.
      - apply JsObjectFacts.keys_empty_iff in Hlen. contradiction.
      - rewrite withPlayers_same. apply set_same, Hlookup. }
    rewrite Hsame. reflexivity.
  - exfalso.
    specialize (Hundef name groupId group (present_truthy _ Hname)
                       (present_truthy _ Hgroup) Hlookup).
    unfold JsObject.get in Hundef. rewrite Hnone, Hproto in Hundef.
    discriminate.
Qed.

Lemma remove_of_inherited_name_is_confirmed_witness :
  runState (apexrankremove (Some "123") (Some "Constructor"))
           (mkWorld sampleRegistry [])
  = (Removed "Constructor", mkWorld sampleRegistry [EvSave sampleRegistry]).
Proof.
  refine (remove_of_inherited_name_is_confirmed "123" "Constructor"
            (mkGroupSubscription "123" [("moeneri", samplePlayer)])
            (mkWorld sampleRegistry []) eq_refl eq_refl eq_refl eq_refl
            eq_refl _).
  discriminate.
Defined.

(* ------------------------------------------------------------------ *)
(** ** The list command *)

Lemma objectValues_in {V : Type} (o : JsObject.t V) (v : V) :
  In v (objectValues o) <-> exists k, JsObject.ownLookup k o = Some v.
Proof.
  unfold objectValues. rewrite in_flat_map. split.
  - intros [k [_ Hin]].
    destruct (JsObject.ownLookup k o) as [v'|] eqn:Hk; [|contradiction].
    destruct Hin as [<-|[]]. exists k. exact Hk.
  - intros [k Hk]. exists k. split.
    + apply JsObjectFacts.keys_in.
      exact (JsObjectFacts.ownLookup_some_in _ _ _ Hk).
    + rewrite Hk. now left.
Qed.

Lemma objectValues_length {V : Type} (o : JsObject.t V) :
  List.length (objectValues o) = List.length o.
Proof.
  rewrite <- JsObjectFacts.keys_length. unfold objectValues.
  assert (Hall : forall k, In k (JsObject.keys o) ->
                           JsObject.ownLookup k o <> None).
  { intros k Hin Hnone. apply JsObjectFacts.keys_in in Hin.
    apply JsObjectFacts.ownLookup_none_iff in Hnone. contradiction. }
  induction (JsObject.keys o) as [|k ks IH]; simpl; [reflexivity|].
  destruct (JsObject.ownLookup k o) eqn:Hk.
  - simpl. f_equal. apply IH. intros k' Hin. apply Hall. now right.
  - exfalso. apply (Hall k); [now left|exact Hk].
Qed.

Lemma listEntries_numbers (values : list PlayerData) :
  forall index,
    map fst (listEntries index values)
    = map (fun i => Z.of_nat i + 1) (seq index (List.length values)).
Proof.
  induction values as [|p rest IH]; intros index; simpl; [reflexivity|].
  rewrite IH. reflexivity.
Qed.

Lemma listEntries_names (values : list PlayerData) :
  forall index,
    entryNames (listEntries index values) = map playerName values.
Proof.
  induction values as [|p rest IH]; intros index; simpl; [reflexivity|].
  rewrite IH. reflexivity.
Qed.

(** X17. For a group of the registry the list command changes nothing
    and answers that nothing is tracked exactly when the group has no
    player; otherwise it shows the name of every snapshot of the group
    and no other name, numbers the entries from 1, and gives the number of
    players as the total. *)
Theorem list_shows_the_tracked_players
    (config : Config) (groupId : string) (group : GroupSubscription)
    (w : World) :
  JsString.truthy groupId = true ->
  JsObject.ownLookup groupId (subs w) = Some group ->
  let reply := fst (runState (apexranklist config (Some groupId)) w) in
  snd (runState (apexranklist config (Some groupId)) w) = w
  /\ (reply = ListNothing <-> players group = [])
  /\ (forall name,
         In name (listedNames reply)
         <-> exists k p, JsObject.ownLookup k (players group) = Some p
                         /\ playerName p = name)
  /\ (forall entries total a b c,
         reply = ListPlayers entries total a b c ->
         total = List.length (players group)
         /\ List.length entries = total
         /\ map fst entries = map (fun i => Z.of_nat i + 1) (seq 0 total)).
Proof.
  intros Hgroup Hlookup reply. subst reply. unfold apexranklist.
  rewrite (present_truthy _ Hgroup). cbn -[JsObject.get].
  rewrite (get_own _ _ _ Hlookup).
  destruct (List.length (JsObject.keys (players group)) =? 0)%nat eqn:Hlen.
  - apply JsObjectFacts.keys_empty_iff in Hlen. cbn.
    split; [destruct w; reflexivity|]. split; [tauto|]. split.
    + intros name. split; [contradiction|].
      intros [k [p [Hk _]]]. rewrite Hlen in Hk. discriminate.
    + discriminate.
  - assert (Hfull : players group <> []).
    { intros Heq. apply JsObjectFacts.keys_empty_iff in Heq. congruence. }
    cbn. split; [destruct w; reflexivity|]. split.
    { split; [discriminate|contradiction]. }
    split.
    + intros name. rewrite listEntries_names, in_map_iff. split.
      * intros [p [Hname Hin]]. apply objectValues_in in Hin.
        destruct Hin as [k Hk]. exists k, p. split; assumption.
      * intros [k [p [Hk Hname]]]. exists p. split; [exact Hname|].
        apply objectValues_in. exists k. exact Hk.
    + intros entries total a b c [= <- <- _ _ _].
      rewrite JsObjectFacts.keys_length.
      split; [reflexivity|]. split.
      * rewrite <- (length_map fst), listEntries_numbers, length_map, length_seq.
        apply objectValues_length.
      * rewrite listEntries_numbers, objectValues_length. reflexivity.
Qed.

Lemma list_shows_the_tracked_players_witness :
  (JsString.truthy "123" = true
   /\ JsObject.ownLookup "123" (subs (mkWorld twoGroups []))
      = Some (mkGroupSubscription "123"
                [("moeneri", samplePlayer); ("zed", otherPlayer)]))
  /\ snd (runState (apexranklist defaultConfig (Some "123"))
            (mkWorld twoGroups []))
     = mkWorld twoGroups [].
Proof.
  split; [split; reflexivity|].
  exact (proj1 (list_shows_the_tracked_players defaultConfig "123" _
                  (mkWorld twoGroups []) eq_refl eq_refl)).
Defined.

(** The list of that group, and the answer for a group that is not in
    the registry or whose read reaches [Object.prototype]. *)
Example list_examples :
  listedNames (fst (run (apexranklist defaultConfig (Some "123")) twoGroups))
  = ["MoeNeri"; "Zed"]
  /\ fst (run (apexranklist defaultConfig (Some "7")) twoGroups) = ListNothing
  /\ fst (run (apexranklist defaultConfig (Some "toString")) twoGroups)
     = ListNothing
  /\ fst (run (apexranklist defaultConfig None) twoGroups) = ListGroupOnly.
Proof. repeat split. Qed.

Lemma snapshot_is_listed (config : Config) (groupId k : string)
    (group : GroupSubscription) (p : PlayerData) (w : World) :
  JsString.truthy groupId = true ->
  JsObject.ownLookup groupId (subs w) = Some group ->
  JsObject.ownLookup k (players group) = Some p ->
  In (playerName p)
     (listedNames (fst (runState (apexranklist config (Some groupId)) w))).
Proof.
  intros Hgroup Hlookup Hk. unfold apexranklist.
  rewrite (present_truthy _ Hgroup). cbn -[JsObject.get].
  rewrite (get_own _ _ _ Hlookup).
  destruct (List.length (JsObject.keys (players group)) =? 0)%nat eqn:Hlen.
  - apply JsObjectFacts.keys_empty_iff in Hlen. rewrite Hlen in Hk.
    discriminate.
  - cbn. rewrite listEntries_names. apply in_map.
    apply objectValues_in. exists k. exact Hk.
Qed.

(** X18. A player that the watch command has added is shown by the list
    command of the group, under the name as it was typed. *)
Theorem added_player_is_listed
    (config : Config) (net : nat -> Outcome) (now : Z)
    (groupId name : string) (playerData : PlayerStats) (registry : Registry) :
  JsString.truthy groupId = true ->
  JsString.truthy name = true ->
  isBlacklisted name (blacklist config) = false ->
  snd (getPlayerStats (maxRetries config) net name) = inl playerData ->
  minValidScore config <= ps_rankScore playerData ->
  JsObject.get registry groupId <> JsObject.Inherited ->
  playerAt groupId (JsString.toLowerCase name) registry = None ->
  JsObject.isPrototypeKey (JsString.toLowerCase name) = false ->
  let w1 :=
    snd (run (apexrankwatch config net now (Some groupId) (Some name)) registry) in
  In name (listedNames (fst (runState (apexranklist config (Some groupId)) w1))).
Proof.
  intros Hgroup Hname Hbl Hfetch Hvalid Hown Hnone Hproto w1.
  pose proof (apexrankwatch_added config net now groupId name playerData
                (mkWorld registry []) Hgroup Hname Hbl Hfetch Hvalid
                Hown Hnone Hproto) as Hadded.
  cbn zeta in Hadded. cbn [subs trace] in Hadded.
  assert (Hat : playerAt groupId (JsString.toLowerCase name) (subs w1)
                = Some (newPlayerData name playerData now)).
  { unfold w1, run. rewrite Hadded. cbn [snd subs]. apply afterWatch_player. }
  unfold playerAt in Hat.
  destruct (JsObject.ownLookup groupId (subs w1)) as [group|] eqn:Hlookup;
    [|discriminate].
  exact (snapshot_is_listed config groupId _ group _ w1 Hgroup Hlookup Hat).
Qed.

Lemma added_player_is_listed_witness :
  In "Zoe"
     (listedNames
        (fst (runState (apexranklist defaultConfig (Some "123"))
                (snd (run (apexrankwatch defaultConfig
                             (always (Resolved (statsData 5000 "In lobby" 1)))
                             50 (Some "123") (Some "Zoe")) sampleRegistry))))).
Proof.
  refine (added_player_is_listed defaultConfig
            (always (Resolved (statsData 5000 "In lobby" 1))) 50
            "123" "Zoe" (normalize (statsData 5000 "In lobby" 1)) sampleRegistry
            eq_refl eq_refl eq_refl eq_refl _ _ eq_refl eq_refl).
  - simpl. lia.
  - discriminate.
Defined.

(* ------------------------------------------------------------------ *)
(** ** More on the pass *)

Lemma checked_name (config : Config) (env : Env) (g k : string) (p : PlayerData) :
  playerName (checked config env g k p) = playerName p.
Proof.
  unfold checked. destruct (isBlacklisted _ _); [reflexivity|].
  destruct (snd (getPlayerStats _ _ _)) as [playerData|]; [|reflexivity].
  destruct (verdict _ _ _); reflexivity.
Qed.

(** X19. A pass neither adds nor removes a group or a player and never
    renames a player: the names of the registry and the name in every
    snapshot are the same after the pass. *)
Theorem pass_keeps_the_players
    (config : Config) (env : Env) (registry : Registry) :
  wfRegistry registry ->
  let registry' := subs (snd (run (checkRankChanges config env) registry)) in
  shape registry' = shape registry
  /\ (forall g k,
         option_map playerName (playerAt g k registry')
         = option_map playerName (playerAt g k registry)).
Proof.
  intros Hwf registry'.
  pose proof (checkRankChanges_facts config env (mkWorld registry []) Hwf)
    as [_ [Hin [Hshape _]]].
  change (subs (exec (checkRankChanges config env) (mkWorld registry [])))
    with registry' in Hin, Hshape.
  cbn [subs] in Hin, Hshape.
  split; [exact Hshape|].
  intros g k. rewrite (Hin g k I).
  destruct (playerAt g k registry) as [p|]; [|reflexivity].
  simpl. rewrite checked_name. reflexivity.
Qed.

Lemma pass_keeps_the_players_witness :
  wfRegistry twoGroups
  /\ shape (subs (snd (run (checkRankChanges defaultConfig oneFailure) twoGroups)))
     = shape twoGroups.
Proof.
  split; [exact twoGroups_wf|].
  exact (proj1 (pass_keeps_the_players defaultConfig oneFailure twoGroups
                  twoGroups_wf)).
Defined.

Lemma verdict_changed_bounds (config : Config) (oldScore newScore : Z) :
  verdict config oldScore newScore = Changed ->
  minValidScore config <= newScore
  /\ newScore <> oldScore
  /\ (newScore < oldScore -> oldScore - newScore <= maxScoreDropThreshold config).
Proof.
  unfold verdict, isValidScore, isDroppingTooMuch.
  destruct (Z.leb_spec (minValidScore config) newScore); simpl; [|discriminate].
  destruct (Z.ltb_spec (newScore - oldScore) 0);
    destruct (Z.ltb_spec (maxScoreDropThreshold config)
                         (Z.abs (newScore - oldScore)));
    simpl; try discriminate;
    destruct (Z.eqb_spec newScore oldScore); simpl; try discriminate;
    intros _; repeat split; try assumption; lia.
Qed.

(** X20. A pass changes a snapshot only together with its score: after a
    pass a snapshot is either exactly as before (the character, the rank
    and the time of the last check included) or it has another score, one
    that is not below the minimum and not more than the threshold below
    the old score, and the time of the last check is the time of the
    pass. *)
Theorem pass_changes_a_snapshot_only_with_its_score
    (config : Config) (env : Env) (registry : Registry)
    (g k : string) (p p' : PlayerData) :
  wfRegistry registry ->
  playerAt g k registry = Some p ->
  playerAt g k (subs (snd (run (checkRankChanges config env) registry)))
  = Some p' ->
  p' = p
  \/ (rankScore p' <> rankScore p
      /\ minValidScore config <= rankScore p'
      /\ (rankScore p' < rankScore p ->
          rankScore p - rankScore p' <= maxScoreDropThreshold config)
      /\ lastChecked p' = clock env g k
      /\ isBlacklisted (playerName p) (blacklist config) = false).
Proof.
  intros Hwf Hat Hat'.
  pose proof (checkRankChanges_facts config env (mkWorld registry []) Hwf)
    as [_ [Hin _]].
  change (exec (checkRankChanges config env) (mkWorld registry []))
    with (snd (run (checkRankChanges config env) registry)) in Hin.
  cbn [subs] in Hin.
  rewrite (Hin g k I), Hat in Hat'. simpl in Hat'. injection Hat' as <-.
  unfold checked.
  destruct (isBlacklisted (playerName p) (blacklist config)); [now left|].
  destruct (snd (getPlayerStats _ _ _)) as [playerData|]; [|now left].
  destruct (verdict config (rankScore p) (ps_rankScore playerData)) eqn:Hclass;
    try (now left).
  right. apply verdict_changed_bounds in Hclass.
  destruct Hclass as [Hvalid [Hne Hdrop]]. simpl.
  repeat split; assumption.
Qed.

Lemma pass_changes_a_snapshot_only_with_its_score_witness :
  (wfRegistry twoGroups
   /\ playerAt "123" "zed" twoGroups = Some otherPlayer
   /\ playerAt "123" "zed"
        (subs (snd (run (checkRankChanges defaultConfig oneFailure) twoGroups)))
      = Some (updatedPlayer otherPlayer
                (normalize (statsData 5500 "In lobby" 1)) 100))
  /\ (updatedPlayer otherPlayer (normalize (statsData 5500 "In lobby" 1)) 100
      = otherPlayer
      \/ lastChecked
           (updatedPlayer otherPlayer (normalize (statsData 5500 "In lobby" 1)) 100)
         = clock oneFailure "123" "zed").
Proof.
  split; [split; [exact twoGroups_wf|split; reflexivity]|].
  destruct (pass_changes_a_snapshot_only_with_its_score
              defaultConfig oneFailure twoGroups "123" "zed" otherPlayer _
              twoGroups_wf eq_refl eq_refl) as [H|[_ [_ [_ [H _]]]]].
  - left. exact H.
  - right. exact H.
Defined.

Lemma pairedb_app (a b : list Event) :
  pairedb a = true -> pairedb b = true -> pairedb (a ++ b) = true.
Proof.
  intros Ha Hb.
  assert (H : forall n l, (List.length l <= n)%nat ->
                          pairedb l = true -> pairedb (l ++ b) = true).
  { induction n as [|n IH]; intros l Hlen Hl.
    - destruct l; [exact Hb|simpl in Hlen; lia].
    - destruct l as [|e l]; [exact Hb|]. simpl in Hlen.
      destruct e as [ne|r|gid m|entry|entry];
        try (simpl in *; apply IH; [lia|exact Hl]).
      + simpl in Hl. discriminate.
      + destruct l as [|e' l']; [simpl in Hl; discriminate|].
        destruct e'; simpl in Hl; try discriminate.
        simpl in *. apply IH; [lia|exact Hl]. }
  exact (H (List.length a) a (Nat.le_refl _) Ha).
Qed.

Lemma pairedb_nets (events : list NetEvent) : pairedb (map EvNet events) = true.
Proof. induction events as [|e r IH]; simpl; [reflexivity|exact IH]. Qed.

Lemma checkPlayer_paired (config : Config) (env : Env) (g k : string) (w : World) :
  exists events,
    trace (exec (checkPlayer config env g k) w) = trace w ++ events
    /\ pairedb events = true.
Proof.
  unfold exec, checkPlayer. cbn -[getPlayerStats].
  destruct (JsObject.ownLookup g (subs w)) as [group|] eqn:Hg;
    [|exists []; cbn; rewrite app_nil_r; split; reflexivity].
  destruct (JsObject.ownLookup k (players group)) as [player|] eqn:Hk;
    [|exists []; cbn; rewrite app_nil_r; split; reflexivity].
  destruct (isBlacklisted (playerName player) (blacklist config));
    [eexists; cbn; split; reflexivity|].
  cbn [runState]. rewrite awaitPlayerStats_run. cbn [fst snd].
  set (nets := fst (getPlayerStats (maxRetries config) (requests env g k)
                      (playerName player))).
  destruct (snd (getPlayerStats (maxRetries config) (requests env g k)
                   (playerName player))) as [playerData|message].
  - unfold applyStats.
    destruct (verdict config (rankScore player) (ps_rankScore playerData)).
    + unfold storePlayer. cbn. rewrite Hg. cbn.
      eexists. split; [rewrite <- !app_assoc; reflexivity|].
      apply pairedb_app; [apply pairedb_nets|reflexivity].
    + cbn. eexists. split; [rewrite <- !app_assoc; reflexivity|].
      apply pairedb_app; [apply pairedb_nets|reflexivity].
    + cbn. eexists. split; [rewrite <- !app_assoc; reflexivity|].
      apply pairedb_app; [apply pairedb_nets|reflexivity].
    + cbn. exists (map EvNet nets). split; [reflexivity|apply pairedb_nets].
  - cbn. eexists. split; [rewrite <- !app_assoc; reflexivity|].
    apply pairedb_app; [apply pairedb_nets|reflexivity].
Qed.

Lemma forEach_paired {A : Type} (body : A -> M unit) :
  (forall x w, exists events,
      trace (exec (body x) w) = trace w ++ events /\ pairedb events = true) ->
  forall l w, exists events,
      trace (exec (forEach l body) w) = trace w ++ events
      /\ pairedb events = true.
Proof.
  intros Hbody. induction l as [|x rest IH]; intros w.
  - exists []. cbn. rewrite app_nil_r. split; reflexivity.
  - rewrite forEach_cons.
    destruct (Hbody x w) as [ev1 [Htr1 Hp1]].
    destruct (IH (exec (body x) w)) as [ev2 [Htr2 Hp2]].
    exists (ev1 ++ ev2). split.
    + rewrite Htr2, Htr1, app_assoc. reflexivity.
    + apply pairedb_app; assumption.
Qed.

Lemma checkGroup_paired (config : Config) (env : Env) (g : string) (w : World) :
  exists events,
    trace (exec (checkGroup config env g) w) = trace w ++ events
    /\ pairedb events = true.
Proof.
  unfold exec, checkGroup. cbn.
  destruct (JsObject.ownLookup g (subs w)) as [group|].
  - apply (forEach_paired (checkPlayer config env g)).
    apply checkPlayer_paired.
  - exists []. cbn. rewrite app_nil_r. split; reflexivity.
Qed.

(** X21. In a pass the registry is written right after every message
    that is sent and at no other time: in the trace of a pass every send
    is followed at once by a save and every save follows a send, so there
    are as many saves as sends. *)
Theorem pass_saves_after_every_send
    (config : Config) (env : Env) (registry : Registry) :
  let events := trace (snd (run (checkRankChanges config env) registry)) in
  pairedb events = true
  /\ List.length (filter isSave events) = List.length (filter isSend events).
Proof.
  intros events.
  assert (Hpaired : pairedb events = true).
  { destruct (forEach_paired (checkGroup config env)
                (checkGroup_paired config env)
                (JsObject.keys registry) (mkWorld registry []))
      as [ev [Htrace Hp]].
    cbn [trace app] in Htrace.
    change (trace (exec (forEach (JsObject.keys registry)
                           (checkGroup config env)) (mkWorld registry [])))
      with events in Htrace.
    rewrite Htrace. exact Hp. }
  split; [exact Hpaired|].
  clear -Hpaired.
  assert (H : forall n l, (List.length l <= n)%nat -> pairedb l = true ->
                          List.length (filter isSave l)
                          = List.length (filter isSend l)).
  { induction n as [|n IH]; intros l Hlen Hl.
    - destruct l; [reflexivity|simpl in Hlen; lia].
    - destruct l as [|e l]; [reflexivity|]. simpl in Hlen.
      destruct e as [ne|r|gid m|entry|entry];
        try (simpl in *; apply IH; [lia|exact Hl]).
      + simpl in Hl. discriminate.
      + destruct l as [|e' l']; [simpl in Hl; discriminate|].
        destruct e'; simpl in Hl; try discriminate.
        simpl in *. f_equal. apply IH; [lia|exact Hl]. }
  exact (H (List.length events) events (Nat.le_refl _) Hpaired).
Qed.

(* ------------------------------------------------------------------ *)
(** ** The keys of the registry *)

Lemma present_inv (x : option string) (s : string) :
  present x = Some s -> JsString.truthy s = true.
Proof.
  destruct x as [s'|]; [|discriminate]. simpl.
  destruct (JsString.truthy s') eqn:Htruthy; [|discriminate].
  intros [= <-]. exact Htruthy.
Qed.

Lemma step_names_invariant (config : Config) (r r' : Registry) :
  Step config r r' ->
  wfRegistry r /\ storedUnderLowercasedName r ->
  wfRegistry r' /\ storedUnderLowercasedName r'.
Proof.
  intros Hstep [Hwf Hnames].
  destruct Hstep as [net now guildId playerArg r|guildId playerArg r|env r].
  - pose proof (apexrankwatch_cases config net now guildId playerArg
                  (mkWorld r [])) as Hcases.
    cbn zeta in Hcases. cbn [subs trace] in Hcases. unfold run.
    destruct Hcases
      as [[_ ->]
         |[[name [groupId [_ [_ [Hget [_ [_ ->]]]]]]]
          |[name [groupId [playerData
              [Hname [_ [_ [_ [_ [_ [Hnone [_ [_ [-> _]]]]]]]]]]]]]]].
    + split; assumption.
    + unfold afterEmptyGroup. split.
      * apply wfRegistry_set; [exact Hwf | constructor].
      * intros g k p. unfold playerAt.
        destruct (string_dec groupId g) as [<-|Hne].
        -- rewrite JsObjectFacts.ownLookup_set_same. discriminate.
        -- rewrite JsObjectFacts.ownLookup_set_other by exact Hne.
           apply Hnames.
    + split; [apply wfRegistry_afterWatch, Hwf|].
      intros g k p.
      destruct (string_dec g groupId) as [->|Hg];
        [destruct (string_dec k (JsString.toLowerCase name)) as [->|Hk]|].
      * rewrite afterWatch_player. intros [= <-]. simpl.
        split; [reflexivity|exact (present_inv _ _ Hname)].
      * rewrite afterWatch_other by congruence. apply Hnames.
      * rewrite afterWatch_other by congruence. apply Hnames.
  - unfold run.
    destruct (apexrankremove_cases guildId playerArg (mkWorld r []))
      as [[name [groupId [group [_ [_ [Hg [_ ->]]]]]]]|[_ [-> _]]].
    + cbn [snd subs] in *. split.
      * apply wfRegistry_afterRemoval; assumption.
      * intros g k p Hat. apply (Hnames g k p).
        exact (afterRemoval_player _ _ _ _ _ _ _ Hg Hat).
    + split; assumption.
  - destruct (checkRankChanges_facts config env (mkWorld r []) Hwf)
      as [_ [Hin [Hshape _]]].
    change (exec (checkRankChanges config env) (mkWorld r []))
      with (snd (run (checkRankChanges config env) r)) in Hin, Hshape.
    cbn [subs] in Hin, Hshape. split.
    + exact (wfRegistry_shape _ _ Hshape Hwf).
    + intros g k p. rewrite (Hin g k I).
      destruct (playerAt g k r) as [p0|] eqn:Hat; [|discriminate].
      intros [= <-]. rewrite checked_name. exact (Hnames g k p0 Hat).
Qed.

Lemma reachable_names (config : Config) (r : Registry) :
  Reachable config r -> wfRegistry r /\ storedUnderLowercasedName r.
Proof.
  induction 1 as [|r r' Hreach IH Hstep].
  - split; [apply wfRegistry_empty|]. intros g k p. discriminate.
  - exact (step_names_invariant config r r' Hstep IH).
Qed.

(** X22. In every registry reached from the empty one by watch commands,
    remove commands and passes, every player is stored under the
    lower-cased form of the name in its snapshot, and that name is not
    empty. *)
Theorem players_are_stored_under_their_lowercased_name
    (config : Config) (r : Registry) :
  Reachable config r -> storedUnderLowercasedName r.
Proof. intros Hreach. exact (proj2 (reachable_names config r Hreach)). Qed.

Lemma players_are_stored_under_their_lowercased_name_witness :
  Reachable defaultConfig afterOneWatch
  /\ storedUnderLowercasedName afterOneWatch.
Proof.
  assert (Hreach : Reachable defaultConfig afterOneWatch).
  { apply (ReachStep _ [] _ (ReachEmpty _)). apply StepWatch. }
  split; [exact Hreach|].
  exact (players_are_stored_under_their_lowercased_name
           defaultConfig afterOneWatch Hreach).
Defined.

(** X23. A player of a reachable registry can be removed by the name in
    its snapshot: in the player's group the remove command with that name
    confirms the removal and the player is no longer in the registry. *)
Theorem tracked_player_can_be_removed
    (config : Config) (r : Registry) (g k : string) (p : PlayerData) :
  Reachable config r ->
  JsString.truthy g = true ->
  playerAt g k r = Some p ->
  let out := run (apexrankremove (Some g) (Some (playerName p))) r in
  fst out = Removed (playerName p)
  /\ playerAt g k (subs (snd out)) = None.
Proof.
  intros Hreach Hg Hat out.
  destruct (reachable_names config r Hreach) as [_ Hnames].
  destruct (Hnames g k p Hat) as [Hk Hname].
  assert (Hgroup : exists group,
             JsObject.ownLookup g r = Some group
             /\ JsObject.ownLookup k (players group) = Some p).
  { unfold playerAt in Hat.
    destruct (JsObject.ownLookup g r) as [group|]; [|discriminate].
    exists group. split; [reflexivity|exact Hat]. }
  destruct Hgroup as [group [Hlookup Hplayer]].
  destruct (apexrankremove_cases (Some g) (Some (playerName p)) (mkWorld r []))
    as [[name [groupId [group' [Hn [Hgid [Hg' [_ Hrun]]]]]]]|[_ [_ Hundef]]].
  - rewrite (present_truthy _ Hname) in Hn.
    rewrite (present_truthy _ Hg) in Hgid.
    injection Hn as <-. injection Hgid as <-.
    subst out. unfold run. rewrite Hrun. cbn [fst snd subs].
    split; [reflexivity|]. rewrite Hk. apply afterRemoval_forgets.
  - exfalso.
    specialize (Hundef (playerName p) g group
                  (present_truthy _ Hname) (present_truthy _ Hg) Hlookup).
    rewrite <- Hk in Hundef.
    rewrite (get_own _ _ _ Hplayer) in Hundef. discriminate.
Qed.

Lemma tracked_player_can_be_removed_witness :
  (Reachable defaultConfig afterOneWatch
   /\ JsString.truthy "123" = true
   /\ option_map playerName (playerAt "123" "moeneri" afterOneWatch)
      = Some "moeneri")
  /\ fst (run (apexrankremove (Some "123") (Some "moeneri")) afterOneWatch)
     = Removed "moeneri".
Proof.
  assert (Hreach : Reachable defaultConfig afterOneWatch).
  { apply (ReachStep _ [] _ (ReachEmpty _)). apply StepWatch. }
  split; [split; [exact Hreach|split; reflexivity]|].
  exact (proj1 (tracked_player_can_be_removed defaultConfig afterOneWatch
                  "123" "moeneri" _ Hreach eq_refl eq_refl)).
Defined.

(* ------------------------------------------------------------------ *)
(** ** Sending to a group *)

Lemma existsb_filter {A : Type} (p f : A -> bool) (l : list A) :
  existsb f (filter p l) = existsb (fun x => p x && f x) l.
Proof.
  induction l as [|x l IH]; [reflexivity|]. simpl.
  destruct (p x); simpl; rewrite IH; reflexivity.
Qed.

Lemma sendLoop_result (bots : list Notifier.Bot) (groupId message : string) :
  snd (Notifier.sendLoop bots groupId message)
  = existsb (fun bot => delivers bot groupId message) bots.
Proof.
  induction bots as [|bot rest IH]; [reflexivity|].
  simpl. unfold delivers at 1.
  destruct (Notifier.sendMessage bot groupId message); [reflexivity|].
  destruct (Notifier.internalSendGroupMsg bot) as [send|].
  - destruct (send groupId message); [reflexivity|].
    destruct (Notifier.sendLoop rest groupId message) as [calls ok].
    exact IH.
  - destruct (Notifier.sendLoop rest groupId message) as [calls ok].
    exact IH.
Qed.

Lemma sendGroupMessage_loop (ctxBots : list Notifier.Bot)
    (groupId message : string) :
  Notifier.sendGroupMessage ctxBots groupId message
  = Notifier.sendLoop (Notifier.oneBots ctxBots) groupId message.
Proof.
  unfold Notifier.sendGroupMessage.
  destruct (Notifier.oneBots ctxBots); reflexivity.
Qed.

(** X24. A message to a group is reported as sent exactly when some bot
    of the OneBot platform delivers it, by [sendMessage] or, that having
    failed, by [internal.sendGroupMsg]; bots of other platforms do not
    count. *)
Theorem message_is_sent_iff_a_onebot_delivers
    (ctxBots : list Notifier.Bot) (groupId message : string) :
  snd (Notifier.sendGroupMessage ctxBots groupId message)
  = existsb (fun bot => isOneBot bot && delivers bot groupId message) ctxBots.
Proof.
  rewrite sendGroupMessage_loop, sendLoop_result.
  apply existsb_filter.
Qed.

Lemma sendLoop_stops (pre post : list Notifier.Bot) (bot : Notifier.Bot)
    (groupId message : string) :
  delivers bot groupId message = true ->
  Notifier.sendLoop (pre ++ bot :: post) groupId message
  = Notifier.sendLoop (pre ++ [bot]) groupId message.
Proof.
  intros Hdelivers. induction pre as [|b pre IH].
  - simpl. unfold delivers in Hdelivers.
    destruct (Notifier.sendMessage bot groupId message); [reflexivity|].
    destruct (Notifier.internalSendGroupMsg bot) as [send|];
      [|discriminate].
    simpl in Hdelivers. rewrite Hdelivers. reflexivity.
  - simpl. rewrite IH. reflexivity.
Qed.

(** X25. The loop over the bots stops at the first bot that delivers:
    the bots after it are not called, whatever they are, and the message
    is reported as sent. *)
Theorem bots_after_the_first_delivery_are_not_called
    (pre post : list Notifier.Bot) (bot : Notifier.Bot)
    (groupId message : string) :
  isOneBot bot = true ->
  delivers bot groupId message = true ->
  Notifier.sendGroupMessage (pre ++ bot :: post) groupId message
  = Notifier.sendGroupMessage (pre ++ [bot]) groupId message
  /\ snd (Notifier.sendGroupMessage (pre ++ bot :: post) groupId message)
     = true.
Proof.
  intros Hone Hdelivers. split.
  - rewrite !sendGroupMessage_loop. unfold Notifier.oneBots.
    rewrite !filter_app. cbn [filter].
    change (String.eqb (Notifier.platform bot) "onebot") with (isOneBot bot).
    rewrite Hone. apply sendLoop_stops. exact Hdelivers.
  - rewrite sendGroupMessage_loop, sendLoop_result.
    unfold Notifier.oneBots. rewrite existsb_filter.
    rewrite existsb_app. cbn [existsb].
    change (String.eqb (Notifier.platform bot) "onebot") with (isOneBot bot).
    rewrite Hone, Hdelivers. simpl. apply orb_true_r.
Qed.

Lemma bots_after_the_first_delivery_are_not_called_witness :
  (isOneBot fallbackBot = true /\ delivers fallbackBot "123" "hello" = true)
  /\ Notifier.sendGroupMessage
       ([discordBot; brokenBot] ++ fallbackBot :: [brokenBot; fallbackBot])
       "123" "hello"
     = ([Notifier.CallBot "1001" Notifier.Primary "123" "hello";
         Notifier.CallBot "1001" Notifier.Fallback "123" "hello";
         Notifier.CallBot "1002" Notifier.Primary "123" "hello";
         Notifier.CallBot "1002" Notifier.Fallback "123" "hello"], true).
Proof.
  split; [split; reflexivity|].
  rewrite (proj1 (bots_after_the_first_delivery_are_not_called
                    [discordBot; brokenBot] [brokenBot; fallbackBot]
                    fallbackBot "123" "hello" eq_refl eq_refl)).
  reflexivity.
Defined.

Lemma sendLoop_calls (bots : list Notifier.Bot) (groupId message : string)
    (call : Notifier.Call) :
  In call (fst (Notifier.sendLoop bots groupId message)) ->
  exists bot method,
    In bot bots
    /\ call = Notifier.CallBot (Notifier.selfId bot) method groupId message
    /\ (method = Notifier.Fallback ->
        Notifier.sendMessage bot groupId message = false
        /\ Notifier.internalSendGroupMsg bot <> None).
Proof.
  induction bots as [|bot rest IH]; [intros []|].
  assert (Hprimary :
            exists bot' method,
              In bot' (bot :: rest)
              /\ Notifier.CallBot (Notifier.selfId bot) Notifier.Primary
                   groupId message
                 = Notifier.CallBot (Notifier.selfId bot') method groupId message
              /\ (method = Notifier.Fallback ->
                  Notifier.sendMessage bot' groupId message = false
                  /\ Notifier.internalSendGroupMsg bot' <> None)).
  { exists bot, Notifier.Primary.
    split; [left; reflexivity|split; [reflexivity|discriminate]]. }
  assert (Hrest :
            In call (fst (Notifier.sendLoop rest groupId message)) ->
            exists bot' method,
              In bot' (bot :: rest)
              /\ call
                 = Notifier.CallBot (Notifier.selfId bot') method groupId message
              /\ (method = Notifier.Fallback ->
                  Notifier.sendMessage bot' groupId message = false
                  /\ Notifier.internalSendGroupMsg bot' <> None)).
  { intros Hin. destruct (IH Hin) as [bot' [method [Hbot [Hcall Hfallback]]]].
    exists bot', method. split; [right; exact Hbot|split; assumption]. }
  simpl.
  destruct (Notifier.sendMessage bot groupId message) eqn:Hsend.
  - intros [<-|[]]. exact Hprimary.
  - assert (Hfallback :
              forall send, Notifier.internalSendGroupMsg bot = Some send ->
              exists bot' method,
                In bot' (bot :: rest)
                /\ Notifier.CallBot (Notifier.selfId bot) Notifier.Fallback
                     groupId message
                   = Notifier.CallBot (Notifier.selfId bot') method
                       groupId message
                /\ (method = Notifier.Fallback ->
                    Notifier.sendMessage bot' groupId message = false
                    /\ Notifier.internalSendGroupMsg bot' <> None)).
    { intros send Hinternal. exists bot, Notifier.Fallback.
      split; [left; reflexivity|split; [reflexivity|]].
      intros _. split; [exact Hsend|congruence]. }
    destruct (Notifier.internalSendGroupMsg bot) as [send|] eqn:Hinternal.
    + destruct (send groupId message).
      * intros [<-|[<-|[]]]; [exact Hprimary|exact (Hfallback send eq_refl)].
      * destruct (Notifier.sendLoop rest groupId message) as [calls ok].
        intros [<-|[<-|Hin]];
          [exact Hprimary|exact (Hfallback send eq_refl)|exact (Hrest Hin)].
    + destruct (Notifier.sendLoop rest groupId message) as [calls ok].
      intros [<-|Hin]; [exact Hprimary|exact (Hrest Hin)].
Qed.

(** X26. Sending to a group calls only bots of the OneBot platform, with
    the group and the message it was given, and calls
    [internal.sendGroupMsg] of a bot only when [sendMessage] of that bot
    has failed. *)
Theorem only_onebot_bots_are_called
    (ctxBots : list Notifier.Bot) (groupId message : string)
    (call : Notifier.Call) :
  In call (fst (Notifier.sendGroupMessage ctxBots groupId message)) ->
  exists bot method,
    In bot ctxBots
    /\ Notifier.platform bot = "onebot"
    /\ call = Notifier.CallBot (Notifier.selfId bot) method groupId message
    /\ (method = Notifier.Fallback ->
        Notifier.sendMessage bot groupId message = false
        /\ Notifier.internalSendGroupMsg bot <> None).
Proof.
  rewrite sendGroupMessage_loop. intros Hin.
  destruct (sendLoop_calls _ _ _ _ Hin)
    as [bot [method [Hbot [Hcall Hfallback]]]].
  unfold Notifier.oneBots in Hbot. apply filter_In in Hbot.
  destruct Hbot as [Hbot Hplatform]. apply String.eqb_eq in Hplatform.
  exists bot, method. repeat split; try assumption; apply Hfallback; assumption.
Qed.

Lemma only_onebot_bots_are_called_witness :
  In (Notifier.CallBot "1002" Notifier.Fallback "123" "hello")
     (fst (Notifier.sendGroupMessage [discordBot; fallbackBot] "123" "hello"))
  /\ exists bot method,
       In bot [discordBot; fallbackBot]
       /\ Notifier.platform bot = "onebot"
       /\ Notifier.CallBot "1002" Notifier.Fallback "123" "hello"
          = Notifier.CallBot (Notifier.selfId bot) method "123" "hello"
       /\ (method = Notifier.Fallback ->
           Notifier.sendMessage bot "123" "hello" = false
           /\ Notifier.internalSendGroupMsg bot <> None).
Proof.
  assert (Hin : In (Notifier.CallBot "1002" Notifier.Fallback "123" "hello")
                   (fst (Notifier.sendGroupMessage [discordBot; fallbackBot]
                           "123" "hello"))).
  { simpl. right. left. reflexivity. }
  split; [exact Hin|].
  exact (only_onebot_bots_are_called [discordBot; fallbackBot] "123" "hello"
           _ Hin).
Defined.

(** X27. The test command reports the test message as sent exactly when
    it is used in a group and a bot of the OneBot platform delivers the
    message to that group; it answers without a word about sending
    exactly when it is used outside a group, and then it calls no bot. *)
Theorem test_command_reply
    (ctxBots : list Notifier.Bot) (guildId : option string) :
  (snd (Notifier.apextest ctxBots guildId) = Notifier.TestSent
   <-> exists groupId,
         present guildId = Some groupId
         /\ existsb (fun bot => isOneBot bot
                                && delivers bot groupId Notifier.testMessage)
              ctxBots = true)
  /\ (snd (Notifier.apextest ctxBots guildId) = Notifier.TestRunning
      <-> present guildId = None)
  /\ (present guildId = None -> fst (Notifier.apextest ctxBots guildId) = []).
Proof.
  unfold Notifier.apextest.
  destruct (present guildId) as [groupId|].
  - pose proof (eq_sym (sendGroupMessage_loop ctxBots groupId
                          Notifier.testMessage)) as Hloop.
    pose proof (sendLoop_result (Notifier.oneBots ctxBots) groupId
                  Notifier.testMessage) as Hresult.
    rewrite Hloop in Hresult.
    unfold Notifier.oneBots in Hresult. rewrite existsb_filter in Hresult.
    change (fun x : Notifier.Bot =>
              String.eqb (Notifier.platform x) "onebot"
              && delivers x groupId Notifier.testMessage)
      with (fun bot => isOneBot bot
                       && delivers bot groupId Notifier.testMessage)
      in Hresult.
    destruct (Notifier.sendGroupMessage ctxBots groupId Notifier.testMessage)
      as [calls success].
    cbn [snd fst] in *.
    split; [|split].
    + split.
      * destruct success; [|discriminate]. intros _. exists groupId.
        split; [reflexivity|symmetry; exact Hresult].
      * intros [g [[= <-] Hsome]]. rewrite Hresult, Hsome. reflexivity.
    + split; [destruct success; discriminate|discriminate].
    + discriminate.
  - cbn [snd fst]. split; [|split].
    + split; [discriminate|intros [g [Hg _]]; discriminate].
    + split; reflexivity.
    + reflexivity.
Qed.

(* ------------------------------------------------------------------ *)
(** ** The two tables *)

Lemma tableLookup_entry (k v : string) (t : list (string * string)) :
  tableLookup k t = Some v -> In (k, v) t.
Proof.
  induction t as [|[k' v'] r IH]; simpl; [discriminate|].
  destruct (String.eqb_spec k k') as [<-|Hne]; [intros [= ->]; now left|].
  intros H. right. exact (IH H).
Qed.

(** X28. Every legend that has a grade is the translation of a name of
    the translation table, and its grade is one of S, A, B, C and D: a
    grade other than ['未知'] is never given to a name the translation
    cannot produce. *)
Theorem graded_legend_is_a_translation (legend : string) :
  JsObject.isPrototypeKey legend = false ->
  getLegendRank legend <> "未知" ->
  (exists name, In name (map fst nameMap) /\ translate name = legend)
  /\ In (getLegendRank legend) ["S"; "A"; "B"; "C"; "D"].
Proof.
  intros _ Hgraded. unfold getLegendRank in *.
  destruct (tableLookup legend legendRankMap) as [grade|] eqn:Hlookup;
    [|contradiction].
  apply tableLookup_entry in Hlookup.
  assert (Hall :
            forallb
              (fun entry : string * string =>
                 existsb (fun name => String.eqb (translate name) (fst entry))
                   (map fst nameMap)
                 && existsb (String.eqb (JsString.orElse (snd entry) "未知"))
                      ["S"; "A"; "B"; "C"; "D"])
              legendRankMap = true) by (vm_compute; reflexivity).
  rewrite forallb_forall in Hall. specialize (Hall _ Hlookup).
  cbn [fst snd] in Hall. apply andb_true_iff in Hall.
  destruct Hall as [Hname Hgrade].
  apply existsb_exists in Hname. destruct Hname as [name [Hin Heq]].
  apply String.eqb_eq in Heq.
  apply existsb_exists in Hgrade. destruct Hgrade as [g [Hg Heqg]].
  apply String.eqb_eq in Heqg.
  split; [exists name; split; assumption|].
  rewrite Heqg. exact Hg.
Qed.

Lemma graded_legend_is_a_translation_witness :
  (JsObject.isPrototypeKey "罗芭" = false /\ getLegendRank "罗芭" <> "未知")
  /\ In (getLegendRank "罗芭") ["S"; "A"; "B"; "C"; "D"].
Proof.
  assert (Hgraded : getLegendRank "罗芭" <> "未知") by (vm_compute; discriminate).
  split; [split; [reflexivity|exact Hgraded]|].
  exact (proj2 (graded_legend_is_a_translation "罗芭" eq_refl Hgraded)).
Defined.
